(** * alphafold_web_app: the job-tracking server, embedded and verified

    The development follows the server side of the repository:

    - [shared/utils]            the sequence validator ([isValidSequence]);
    - [services/queueService]   the two JSON files [queue.json] and [log.json];
    - [services/blobServices]   the Azure storage adapter, and the S3 adapter's
                                existence check;
    - [controllers/sequenceController]
                                the four request handlers.

    Handlers are written in a small state-and-exception monad over the
    contents of the two files.  What a request sees of the outside (process
    environment, clock, id generator, storage and predictor replies) is
    gathered in a record [Env].

    Requests are handled one at a time; reading and writing the two files
    does not fail; the clock shows one instant during a request.

    The handlers are followed from the moment they are called.  What
    [server/index] puts in front of them ([cors()], [bodyParser.json()] with
    its limit on the size of a request body, the router matching the path)
    is not modelled: a statement about a handler speaks of the requests
    that reach it. *)

From Stdlib Require Import String Ascii List Bool NArith ZArith Lia.
Import ListNotations.


(** ** JavaScript strings and values *)

(** A JavaScript string is a sequence of UTF-16 code units. *)
Definition code_unit := N.
Definition jsstring := list code_unit.

(** Source literals are Basic Latin: [js] reads one as a [jsstring]. *)
Fixpoint js (s : string) : jsstring :=
  match s with
  | EmptyString => []
  | String a rest => N_of_ascii a :: js rest
  end.

(** What the server sees in a field of a parsed JSON body: a string, or
    something else (absent, null, number, boolean, array, object), of which
    the code only observes whether it is truthy. *)
Inductive JsValue :=
| JsString (s : jsstring)
| JsOther (truthy_value : bool).

Definition typeof_string (v : JsValue) : bool :=
  match v with JsString _ => true | JsOther _ => false end.

(** [!v] is [negb (truthy v)]; the empty string is falsy. *)
Definition truthy (v : JsValue) : bool :=
  match v with
  | JsString [] => false
  | JsString (_ :: _) => true
  | JsOther b => b
  end.

Definition as_string (v : JsValue) : jsstring :=
  match v with JsString s => s | JsOther _ => [] end.

(** [s.split("")]: the one-code-unit strings of [s], each kept as its unit. *)
Definition split_units (s : jsstring) : list code_unit := s.

(** [s.startsWith(sub)] at position 0, and [s.includes(sub)]: a substring
    test, not a membership test. *)
Fixpoint startsWith (s sub : jsstring) : bool :=
  match sub, s with
  | [], _ => true
  | _ :: _, [] => false
  | c :: sub', d :: s' => (c =? d)%N && startsWith s' sub'
  end.

Fixpoint includes (s sub : jsstring) : bool :=
  startsWith s sub ||
  match s with
  | [] => false
  | _ :: s' => includes s' sub
  end.

(** The code units outside Basic Latin whose upper-case form has a Basic
    Latin letter in it, with that form (Unicode SpecialCasing and
    UnicodeData). *)
Definition latin_upper_forms : list (code_unit * jsstring) :=
  [ (0x00DF, [0x53; 0x53]);          (* sharp s: SS *)
    (0x0131, [0x49]);                (* dotless i: I *)
    (0x0149, [0x02BC; 0x4E]);        (* n preceded by apostrophe *)
    (0x017F, [0x53]);                (* long s: S *)
    (0x01F0, [0x4A; 0x030C]);        (* j with caron *)
    (0x1E96, [0x48; 0x0331]);        (* h with line below *)
    (0x1E97, [0x54; 0x0308]);        (* t with diaeresis *)
    (0x1E98, [0x57; 0x030A]);        (* w with ring above *)
    (0x1E99, [0x59; 0x030A]);        (* y with ring above *)
    (0x1E9A, [0x41; 0x02BE]);        (* a with right half ring *)
    (0xFB00, [0x46; 0x46]);          (* ligature ff: FF *)
    (0xFB01, [0x46; 0x49]);          (* ligature fi: FI *)
    (0xFB02, [0x46; 0x4C]);          (* ligature fl: FL *)
    (0xFB03, [0x46; 0x46; 0x49]);    (* ligature ffi: FFI *)
    (0xFB04, [0x46; 0x46; 0x4C]);    (* ligature ffl: FFL *)
    (0xFB05, [0x53; 0x54]);          (* ligature long s t: ST *)
    (0xFB06, [0x53; 0x54]) ]%N.      (* ligature st: ST *)

Fixpoint lookup (char : code_unit) (table : list (code_unit * jsstring))
  : option jsstring :=
  match table with
  | [] => None
  | (c, form) :: rest => if (c =? char)%N then Some form else lookup char rest
  end.

(** [char.toUpperCase()] for a one-code-unit string [char].  The built-in
    follows the Unicode default case conversion, special casing included, so
    the result may be longer than one unit.  Basic Latin letters and the
    units of [latin_upper_forms] get their upper-case form; each remaining
    code unit is sent to itself here: its form, itself or another string of
    non-Latin units, has no Basic Latin letter in it either. *)
Definition toUpperCase (char : code_unit) : jsstring :=
  if ((97 <=? char) && (char <=? 122))%N then [(char - 32)%N]
  else match lookup char latin_upper_forms with
       | Some form => form
       | None => [char]
       end.

(** ** shared/utils *)

Definition validAminoAcids : jsstring := js "ACDEFGHIKLMNPQRSTVWY".

Definition isValidSequence (sequence : JsValue) : bool :=
  if negb (truthy sequence) || negb (typeof_string sequence) then false
  else
    forallb (fun char => includes validAminoAcids (toUpperCase char))
            (split_units (as_string sequence)).

(** ** shared/types *)

(** Instants, in milliseconds; [new Date().toISOString()] is kept as the
    instant it renders. *)
Definition Time := N.
Bind Scope N_scope with Time.

Module Status.

Inductive t := submitted | queued | processing | completed | error.

(** [===] on two statuses. *)
Definition eqb (a b : t) : bool :=
  match a, b with
  | submitted, submitted | queued, queued | processing, processing
  | completed, completed | error, error => true
  | _, _ => false
  end.

End Status.

(** A read URL with its SAS token.  For a running process the address and
    the signature are functions of the blob name and of the expiry, the two
    fields kept here. *)
Record SasUrl := {
  sas_blobName : string;
  sas_expiresOn : Time
}.

Record JobData := {
  jobId : string;
  sequence : jsstring;
  status : Status.t;
  storageName : string;
  storageUrl : option SasUrl;
  submittedAt : Time;
  processedAt : option Time;
  completedAt : option Time;
  error : option string;
  uploaded : option bool
}.

(** [Partial<JobData>]: [None] is an absent key. *)
Record PartialJobData := {
  p_jobId : option string;
  p_sequence : option jsstring;
  p_status : option Status.t;
  p_storageName : option string;
  p_storageUrl : option SasUrl;
  p_submittedAt : option Time;
  p_processedAt : option Time;
  p_completedAt : option Time;
  p_error : option string;
  p_uploaded : option bool
}.

Definition override {A} (old : A) (new : option A) : A :=
  match new with Some a => a | None => old end.

Definition override_opt {A} (old new : option A) : option A :=
  match new with Some a => Some a | None => old end.

(** [{ ...job, ...updates }] *)
Definition spread (job : JobData) (updates : PartialJobData) : JobData :=
  {| jobId := override (jobId job) (p_jobId updates);
     sequence := override (sequence job) (p_sequence updates);
     status := override (status job) (p_status updates);
     storageName := override (storageName job) (p_storageName updates);
     storageUrl := override_opt (storageUrl job) (p_storageUrl updates);
     submittedAt := override (submittedAt job) (p_submittedAt updates);
     processedAt := override_opt (processedAt job) (p_processedAt updates);
     completedAt := override_opt (completedAt job) (p_completedAt updates);
     error := override_opt (error job) (p_error updates);
     uploaded := override_opt (uploaded job) (p_uploaded updates) |}.

(** The body sent to the predictor. *)
Record AlphaFoldRequest := {
  af_platform : string;
  af_jobId : string;
  af_sequence : jsstring;
  af_storageAccount : string;
  af_containerName : string;
  af_storageName : string;
  af_storageUrl : SasUrl
}.

(** ** Exceptions and promises *)

(** A thrown value: the fields of an error object that the code reads. *)
Record JsError := {
  err_name : string;
  err_message : string;
  err_statusCode : option Z
}.

Definition new_Error (message : string) : JsError :=
  {| err_name := "Error"; err_message := message; err_statusCode := None |}.

(** How a call to an SDK or to the network settles. *)
Inductive Settled :=
| Resolved
| Rejected (e : JsError).

(** ** What a request sees of the outside *)

Record Env := {
  AZURE_STORAGE_ACCOUNT_NAME : option string;
  AZURE_STORAGE_ACCOUNT_KEY : option string;
  AZURE_STORAGE_CONTAINER_NAME : option string;
  ALPHAFOLD_VM_ENDPOINT : option string;
  (** [new Date()] during the request *)
  Date_now : Time;
  (** the id [uuidv4()] hands out *)
  uuidv4 : string;
  (** [blobClient.getProperties()], by blob name *)
  getProperties : string -> Settled;
  (** [s3Client.send(new HeadObjectCommand(..))], by object key *)
  headObject : string -> Settled;
  (** [axios.post(endpoint, body)] *)
  axios_post : string -> AlphaFoldRequest -> Settled
}.

(** An environment variable is usable when it is set and not empty. *)
Definition env_truthy (v : option string) : bool :=
  match v with
  | Some s => negb (String.eqb s "")
  | None => false
  end.

Definition env_value (v : option string) : string :=
  match v with Some s => s | None => "" end.

(** ** The two files, and the monad of the handlers *)

Record Store := {
  queue : list JobData;    (* data/queue.json *)
  log : list JobData       (* data/log.json *)
}.

Inductive Completion (A : Type) :=
| Normal (a : A)
| Throw (e : JsError).
Arguments Normal {A} a.
Arguments Throw {A} e.

(** An asynchronous computation: it reads and rewrites the files, and
    either returns or throws; what it wrote before throwing stays written.
    Reading and writing the files themselves is taken not to fail. *)
Definition Async (A : Type) := Store -> Completion A * Store.

Definition ret {A} (a : A) : Async A := fun s => (Normal a, s).

Definition throw {A} (e : JsError) : Async A := fun s => (Throw e, s).

Definition bind {A B} (m : Async A) (k : A -> Async B) : Async B :=
  fun s =>
    match m s with
    | (Normal a, s') => k a s'
    | (Throw e, s') => (Throw e, s')
    end.

Definition tryCatch {A} (body : Async A) (handler : JsError -> Async A) : Async A :=
  fun s =>
    match body s with
    | (Normal a, s') => (Normal a, s')
    | (Throw e, s') => handler e s'
    end.

(** [await] of a settled promise. *)
Definition await (p : Settled) : Async unit :=
  match p with
  | Resolved => ret tt
  | Rejected e => throw e
  end.

Declare Scope async_scope.
Delimit Scope async_scope with async.
Notation "x <- m ;; k" := (bind m (fun x => k))
  (at level 61, m at next level, right associativity) : async_scope.
Notation "m ;; k" := (bind m (fun _ => k))
  (at level 61, right associativity) : async_scope.
Open Scope async_scope.

(** ** services/queueService *)

Definition readQueue : Async (list JobData) := fun s => (Normal (queue s), s).
Definition readLog : Async (list JobData) := fun s => (Normal (log s), s).
Definition writeQueue (content : list JobData) : Async unit :=
  fun s => (Normal tt, {| queue := content; log := log s |}).
Definition writeLog (content : list JobData) : Async unit :=
  fun s => (Normal tt, {| queue := queue s; log := content |}).

Definition has_id (id : string) (job : JobData) : bool :=
  String.eqb (jobId job) id.

Definition with_processedAt (job : JobData) (t : Time) : JobData :=
  spread job {| p_jobId := None; p_sequence := None; p_status := None;
                p_storageName := None; p_storageUrl := None;
                p_submittedAt := None; p_processedAt := Some t;
                p_completedAt := None; p_error := None; p_uploaded := None |}.

Definition addToQueue (jobData : JobData) : Async unit :=
  queueContent <- readQueue ;;
  writeQueue (queueContent ++ [jobData]).

Definition addToLog (env : Env) (jobData : JobData) : Async unit :=
  logContent <- readLog ;;
  writeLog (logContent ++ [with_processedAt jobData (Date_now env)]).

Definition removeFromQueue (id : string) : Async unit :=
  queueContent <- readQueue ;;
  let updatedQueue := filter (fun job => negb (has_id id job)) queueContent in
  writeQueue updatedQueue.

Definition getQueuedJob (id : string) : Async (option JobData) :=
  queueContent <- readQueue ;;
  ret (find (has_id id) queueContent).

Definition getLoggedJob (id : string) : Async (option JobData) :=
  logContent <- readLog ;;
  ret (find (has_id id) logContent).

(** [content.findIndex(p)], with [None] for -1. *)
Fixpoint findIndex {A} (p : A -> bool) (content : list A) : option nat :=
  match content with
  | [] => None
  | x :: rest =>
      if p x then Some 0
      else match findIndex p rest with
           | Some i => Some (S i)
           | None => None
           end
  end.

(** [content[index] = x] for an index inside the array. *)
Fixpoint assign {A} (content : list A) (index : nat) (x : A) : list A :=
  match content, index with
  | [], _ => []
  | _ :: rest, 0 => x :: rest
  | y :: rest, S i => y :: assign rest i x
  end.

Definition updateLoggedJob (id : string) (updates : PartialJobData)
  : Async (option JobData) :=
  logContent <- readLog ;;
  match findIndex (has_id id) logContent with
  | None => ret None
  | Some index =>
      match nth_error logContent index with
      | None => ret None      (* not reached: the index lies in the array *)
      | Some old =>
          let updatedJob := spread old updates in
          writeLog (assign logContent index updatedJob) ;;
          ret (Some updatedJob)
      end
  end.

Definition getAllJobs : Async (list JobData * list JobData) :=
  queueContent <- readQueue ;;
  logContent <- readLog ;;
  ret (queueContent, logContent).

(** ** services/blobServices (Azure) *)

(** [expiresOn.setHours(expiresOn.getHours() + 24)]: the same time of day
    one day later, 24 hours on a server whose clock has no daylight saving. *)
Definition hours24 : Time := 86400000%N.

Definition generateSasUrl (env : Env) (blobName : string) : Async SasUrl :=
  if negb (env_truthy (AZURE_STORAGE_ACCOUNT_NAME env))
     || negb (env_truthy (AZURE_STORAGE_ACCOUNT_KEY env))
  then throw (new_Error "Storage account name and key are required for SAS generation")
  else
    let expiresOn := (Date_now env + hours24)%N in
    ret {| sas_blobName := blobName; sas_expiresOn := expiresOn |}.

Definition statusCode_is (e : JsError) (n : Z) : bool :=
  match err_statusCode e with
  | Some c => (c =? n)%Z
  | None => false
  end.

Definition checkBlobExists (env : Env) (blobName : string) : Async bool :=
  tryCatch
    (await (getProperties env blobName) ;;
     ret true)
    (fun error =>
       if statusCode_is error 404 then ret false
       else throw error).

Definition getContainerName (env : Env) : Async string :=
  if negb (env_truthy (AZURE_STORAGE_CONTAINER_NAME env))
  then throw (new_Error "AZURE_STORAGE_CONTAINER_NAME environment variable is not set")
  else ret (env_value (AZURE_STORAGE_CONTAINER_NAME env)).

Definition getStorageAccountName (env : Env) : Async string :=
  if negb (env_truthy (AZURE_STORAGE_ACCOUNT_NAME env))
  then throw (new_Error "AZURE_STORAGE_ACCOUNT_NAME environment variable is not set")
  else ret (env_value (AZURE_STORAGE_ACCOUNT_NAME env)).

(** ** The S3 adapter's existence check *)

Definition checkObjectExists (env : Env) (objectKey : string) : Async bool :=
  tryCatch
    (await (headObject env objectKey) ;;
     ret true)
    (fun err =>
       if String.eqb (err_name err) "NotFound" then ret false
       else throw err).

(** ** controllers/sequenceController *)

Inductive Json :=
| ErrorJson (error : string)
| SubmitJson (jobId : string) (storageUrl : SasUrl) (message : string)
| JobJson (job : JobData) (message : string)
| ResultJson (jobId : string) (status : Status.t)
             (storageUrl : option SasUrl) (message : string)
| JobsJson (queued processed : list JobData).

(** [res.status(code).json(body)] *)
Record Response := {
  code : nat;
  json : Json
}.

Definition respond (c : nat) (body : Json) : Async Response :=
  ret {| code := c; json := body |}.

Definition with_status (job : JobData) (s : Status.t) : JobData :=
  spread job {| p_jobId := None; p_sequence := None; p_status := Some s;
                p_storageName := None; p_storageUrl := None;
                p_submittedAt := None; p_processedAt := None;
                p_completedAt := None; p_error := None; p_uploaded := None |}.

Definition with_error (job : JobData) (msg : string) : JobData :=
  spread job {| p_jobId := None; p_sequence := None; p_status := None;
                p_storageName := None; p_storageUrl := None;
                p_submittedAt := None; p_processedAt := None;
                p_completedAt := None; p_error := Some msg; p_uploaded := None |}.

Definition submitSequence (env : Env) (body_sequence : JsValue) : Async Response :=
  tryCatch
    (let sequence := body_sequence in
     if negb (truthy sequence) then
       respond 400 (ErrorJson "Sequence is required")
     else if negb (isValidSequence sequence) then
       respond 400 (ErrorJson
         "Invalid protein sequence. Use standard amino acid codes (ACDEFGHIKLMNPQRSTVWY).")
     else
       let jobId := uuidv4 env in
       let storageName := ("proteins/" ++ jobId ++ ".pdb")%string in
       storageUrl <- generateSasUrl env storageName ;;
       let jobData :=
         {| jobId := jobId;
            sequence := as_string sequence;
            status := Status.queued;
            storageName := storageName;
            storageUrl := Some storageUrl;
            submittedAt := Date_now env;
            processedAt := None;
            completedAt := None;
            error := None;
            uploaded := None |} in
       addToQueue jobData ;;
       (* the file keeps the record as written: the assignments to
          [jobData] below do not reach it *)
       tryCatch
         (alphafoldVmEndpoint <-
            (if negb (env_truthy (ALPHAFOLD_VM_ENDPOINT env))
             then throw (new_Error "ALPHAFOLD_VM_ENDPOINT environment variable is not set")
             else ret (env_value (ALPHAFOLD_VM_ENDPOINT env))) ;;
          storageAccount <- getStorageAccountName env ;;
          containerName <- getContainerName env ;;
          await (axios_post env alphafoldVmEndpoint
                   {| af_platform := "azure";
                      af_jobId := jobId;
                      af_sequence := as_string sequence;
                      af_storageAccount := storageAccount;
                      af_containerName := containerName;
                      af_storageName := storageName;
                      af_storageUrl := storageUrl |}) ;;
          let jobData := with_status jobData Status.processing in
          addToLog env jobData ;;
          removeFromQueue jobId)
         (fun error =>
            let jobData := with_status jobData Status.error in
            let jobData := with_error jobData "Failed to send to AlphaFold VM" in
            addToLog env jobData) ;;
       respond 200 (SubmitJson jobId storageUrl "Sequence submitted successfully"))
    (fun error =>
       respond 500 (ErrorJson "Server error processing sequence")).

Definition getJobStatus (env : Env) (jobId : string) : Async Response :=
  tryCatch
    (queuedJob <- getQueuedJob jobId ;;
     match queuedJob with
     | Some queuedJob =>
         respond 200 (JobJson queuedJob "Job is queued for processing")
     | None =>
         loggedJob <- getLoggedJob jobId ;;
         match loggedJob with
         | Some loggedJob =>
             if Status.eqb (status loggedJob) Status.processing
                || Status.eqb (status loggedJob) Status.completed
             then
               storageUrl <- generateSasUrl env (storageName loggedJob) ;;
               blobExists <- checkBlobExists env (storageName loggedJob) ;;
               let response :=
                 spread loggedJob
                   {| p_jobId := None; p_sequence := None;
                      p_status := Some (if blobExists then Status.completed
                                        else Status.processing);
                      p_storageName := None;
                      p_storageUrl := Some storageUrl;
                      p_submittedAt := None; p_processedAt := None;
                      p_completedAt := None; p_error := None;
                      p_uploaded := Some blobExists |} in
               respond 200 (JobJson response "Job has been processed")
             else
               respond 200 (JobJson loggedJob "Job has been processed")
         | None =>
             respond 404 (ErrorJson "Job not found")
         end
     end)
    (fun error =>
       respond 500 (ErrorJson "Server error checking job status")).

Definition checkResult (env : Env) (jobId : string) : Async Response :=
  tryCatch
    (loggedJob <- getLoggedJob jobId ;;
     match loggedJob with
     | None => respond 404 (ErrorJson "Job not found")
     | Some loggedJob =>
         tryCatch
           (exists_ <- checkBlobExists env (storageName loggedJob) ;;
            if exists_ : bool then
              (if Status.eqb (status loggedJob) Status.processing then
                 _ <- updateLoggedJob jobId
                        {| p_jobId := None; p_sequence := None;
                           p_status := Some Status.completed;
                           p_storageName := None; p_storageUrl := None;
                           p_submittedAt := None; p_processedAt := None;
                           p_completedAt := Some (Date_now env);
                           p_error := None; p_uploaded := None |} ;;
                 ret tt
               else ret tt) ;;
              storageUrl <- generateSasUrl env (storageName loggedJob) ;;
              respond 200 (ResultJson jobId Status.completed (Some storageUrl)
                             "Result is available")
            else
              respond 200 (ResultJson jobId Status.processing None
                             "Result is not available yet"))
           (fun error => throw error)
     end)
    (fun error =>
       respond 500 (ErrorJson "Server error checking result")).

Definition listAllJobs (env : Env) : Async Response :=
  tryCatch
    (jobs <- getAllJobs ;;
     respond 200 (JobsJson (fst jobs) (snd jobs)))
    (fun error =>
       respond 500 (ErrorJson "Server error listing jobs")).

(** ** routes/api *)

(** A request as the router hands it to its handler: the [sequence] field
    of the parsed body, or the [jobId] parameter taken from the path. *)
Inductive Request :=
| POST_submit_sequence (body_sequence : JsValue)
| GET_job_status (jobId : string)
| GET_check_result (jobId : string)
| GET_admin_jobs.

Definition route (env : Env) (req : Request) : Async Response :=
  match req with
  | POST_submit_sequence body_sequence => submitSequence env body_sequence
  | GET_job_status jobId => getJobStatus env jobId
  | GET_check_result jobId => checkResult env jobId
  | GET_admin_jobs => listAllJobs env
  end.

(** The store after a request, and the response sent. *)
Definition store_after {A} (m : Async A) (s : Store) : Store := snd (m s).

Definition response_of (m : Async Response) (s : Store) : option Response :=
  match fst (m s) with
  | Normal r => Some r
  | Throw _ => None
  end.

(** ** Sample surroundings and stores *)

Definition not_found_404 : JsError :=
  {| err_name := "RestError"; err_message := "The specified blob does not exist.";
     err_statusCode := Some 404%Z |}.

Definition s3_not_found : JsError :=
  {| err_name := "NotFound"; err_message := "UnknownError";
     err_statusCode := Some 404%Z |}.

Definition connection_refused : JsError :=
  {| err_name := "AxiosError"; err_message := "connect ECONNREFUSED";
     err_statusCode := None |}.

Definition service_unavailable : JsError :=
  {| err_name := "RestError"; err_message := "Server busy";
     err_statusCode := Some 503%Z |}.

(** A configured server at instant [now]; [blob] tells whether the result
    object is in storage, [vm] whether the predictor takes the request. *)
Definition sample_env (now : Time) (id : string) (blob vm : bool) : Env :=
  {| AZURE_STORAGE_ACCOUNT_NAME := Some "afstore"%string;
     AZURE_STORAGE_ACCOUNT_KEY := Some "c2VjcmV0"%string;
     AZURE_STORAGE_CONTAINER_NAME := Some "structures"%string;
     ALPHAFOLD_VM_ENDPOINT := Some "http://10.0.0.4:5000/predict"%string;
     Date_now := now;
     uuidv4 := id;
     getProperties := fun _ => if blob then Resolved else Rejected not_found_404;
     headObject := fun _ => if blob then Resolved else Rejected s3_not_found;
     axios_post := fun _ _ => if vm then Resolved else Rejected connection_refused |}.

(** The same server while the storage service answers 503. *)
Definition busy_storage_env (now : Time) (id : string) : Env :=
  {| AZURE_STORAGE_ACCOUNT_NAME := Some "afstore"%string;
     AZURE_STORAGE_ACCOUNT_KEY := Some "c2VjcmV0"%string;
     AZURE_STORAGE_CONTAINER_NAME := Some "structures"%string;
     ALPHAFOLD_VM_ENDPOINT := Some "http://10.0.0.4:5000/predict"%string;
     Date_now := now;
     uuidv4 := id;
     getProperties := fun _ => Rejected service_unavailable;
     headObject := fun _ => Rejected service_unavailable;
     axios_post := fun _ _ => Resolved |}.

Definition empty_store : Store := {| queue := []; log := [] |}.

(** A ten-letter sequence, and the store a fresh server is left with when
    it is submitted at instant 1000 while the predictor refuses the
    connection. *)
Definition ten_letters : jsstring := js "ACDEFGHIKL".

Definition store_after_refused_dispatch : Store :=
  store_after (submitSequence (sample_env 1000 "job-1" false false)
                              (JsString ten_letters))
              empty_store.

(** The store a fresh server is left with when the same submission is
    taken by the predictor. *)
Definition store_after_dispatch : Store :=
  store_after (submitSequence (sample_env 1000 "job-1" false true)
                              (JsString ten_letters))
              empty_store.

(** ** Words for the statements *)

Definition in_queue (id : string) (s : Store) : bool := existsb (has_id id) (queue s).
Definition in_log (id : string) (s : Store) : bool := existsb (has_id id) (log s).

Definition sas_configured (env : Env) : bool :=
  env_truthy (AZURE_STORAGE_ACCOUNT_NAME env)
  && env_truthy (AZURE_STORAGE_ACCOUNT_KEY env).

(** The URL [generateSasUrl] hands out during a request. *)
Definition fresh_url (env : Env) (blobName : string) : SasUrl :=
  {| sas_blobName := blobName; sas_expiresOn := (Date_now env + hours24)%N |}.

(** The [storageUrl] field of a response body, when it has one. *)
Definition response_storageUrl (r : Response) : option SasUrl :=
  match json r with
  | SubmitJson _ url _ => Some url
  | JobJson job _ => storageUrl job
  | ResultJson _ _ url _ => url
  | ErrorJson _ | JobsJson _ _ => None
  end.

(** The [status] field of a response body, when it has one. *)
Definition response_status (r : Response) : option Status.t :=
  match json r with
  | JobJson job _ => Some (status job)
  | ResultJson _ st _ _ => Some st
  | SubmitJson _ _ _ | ErrorJson _ | JobsJson _ _ => None
  end.

(** The [error] field of a response body, when it has one. *)
Definition response_error (r : Response) : option string :=
  match json r with
  | ErrorJson e => Some e
  | JobJson job _ => error job
  | SubmitJson _ _ _ | ResultJson _ _ _ _ | JobsJson _ _ => None
  end.

(** The records [submitSequence] writes for a sequence [seq]. *)
Definition storageName_of (id : string) : string :=
  ("proteins/" ++ id ++ ".pdb")%string.

Definition queued_record (env : Env) (seq : jsstring) : JobData :=
  {| jobId := uuidv4 env;
     sequence := seq;
     status := Status.queued;
     storageName := storageName_of (uuidv4 env);
     storageUrl := Some (fresh_url env (storageName_of (uuidv4 env)));
     submittedAt := Date_now env;
     processedAt := None;
     completedAt := None;
     error := None;
     uploaded := None |}.

Definition processing_record (env : Env) (seq : jsstring) : JobData :=
  {| jobId := uuidv4 env;
     sequence := seq;
     status := Status.processing;
     storageName := storageName_of (uuidv4 env);
     storageUrl := Some (fresh_url env (storageName_of (uuidv4 env)));
     submittedAt := Date_now env;
     processedAt := Some (Date_now env);
     completedAt := None;
     error := None;
     uploaded := None |}.

Definition error_record (env : Env) (seq : jsstring) : JobData :=
  {| jobId := uuidv4 env;
     sequence := seq;
     status := Status.error;
     storageName := storageName_of (uuidv4 env);
     storageUrl := Some (fresh_url env (storageName_of (uuidv4 env)));
     submittedAt := Date_now env;
     processedAt := Some (Date_now env);
     completedAt := None;
     error := Some "Failed to send to AlphaFold VM"%string;
     uploaded := None |}.

Definition submit_ok (env : Env) : Response :=
  {| code := 200;
     json := SubmitJson (uuidv4 env) (fresh_url env (storageName_of (uuidv4 env)))
                        "Sequence submitted successfully" |}.

(** The predictor call of [submitSequence] for [seq] fails: the endpoint or
    the container name is not set, or the POST is rejected. *)
Definition dispatch_fails (env : Env) (seq : jsstring) : Prop :=
  env_truthy (ALPHAFOLD_VM_ENDPOINT env) = false
  \/ env_truthy (AZURE_STORAGE_CONTAINER_NAME env) = false
  \/ exists e,
       axios_post env (env_value (ALPHAFOLD_VM_ENDPOINT env))
         {| af_platform := "azure";
            af_jobId := uuidv4 env;
            af_sequence := seq;
            af_storageAccount := env_value (AZURE_STORAGE_ACCOUNT_NAME env);
            af_containerName := env_value (AZURE_STORAGE_CONTAINER_NAME env);
            af_storageName := storageName_of (uuidv4 env);
            af_storageUrl := fresh_url env (storageName_of (uuidv4 env)) |}
       = Rejected e.

Definition dispatch_succeeds (env : Env) (seq : jsstring) : Prop :=
  env_truthy (ALPHAFOLD_VM_ENDPOINT env) = true
  /\ env_truthy (AZURE_STORAGE_CONTAINER_NAME env) = true
  /\ axios_post env (env_value (ALPHAFOLD_VM_ENDPOINT env))
       {| af_platform := "azure";
          af_jobId := uuidv4 env;
          af_sequence := seq;
          af_storageAccount := env_value (AZURE_STORAGE_ACCOUNT_NAME env);
          af_containerName := env_value (AZURE_STORAGE_CONTAINER_NAME env);
          af_storageName := storageName_of (uuidv4 env);
          af_storageUrl := fresh_url env (storageName_of (uuidv4 env)) |}
     = Resolved.

(** [u] is one letter of the amino-acid alphabet. *)
Definition one_letter (u : jsstring) : bool :=
  match u with
  | [l] => existsb (N.eqb l) validAminoAcids
  | _ => false
  end.

(** The two ligatures whose upper-case form is the two letters ST. *)
Definition ligature_st (c : code_unit) : bool :=
  ((c =? 0xFB05) || (c =? 0xFB06))%N.

(** The first element satisfying [p] replaced by its image under [f]. *)
Fixpoint update_first {A} (p : A -> bool) (f : A -> A) (l : list A) : list A :=
  match l with
  | [] => []
  | x :: rest => if p x then f x :: rest else x :: update_first p f rest
  end.

(** The update [checkResult] applies at instant [now]. *)
Definition completion (now : Time) : PartialJobData :=
  {| p_jobId := None; p_sequence := None;
     p_status := Some Status.completed;
     p_storageName := None; p_storageUrl := None;
     p_submittedAt := None; p_processedAt := None;
     p_completedAt := Some now;
     p_error := None; p_uploaded := None |}.

(** What [getJobStatus] adds to a logged record it re-checks. *)
Definition rechecked (env : Env) (job : JobData) (blobExists : bool) : JobData :=
  {| jobId := jobId job;
     sequence := sequence job;
     status := if blobExists then Status.completed else Status.processing;
     storageName := storageName job;
     storageUrl := Some (fresh_url env (storageName job));
     submittedAt := submittedAt job;
     processedAt := processedAt job;
     completedAt := completedAt job;
     error := error job;
     uploaded := Some blobExists |}.

(** The blob of a job is in storage, or the provider says not-found. *)
Definition blob_present (env : Env) (job : JobData) : Prop :=
  getProperties env (storageName job) = Resolved.

Definition blob_absent (env : Env) (job : JobData) : Prop :=
  exists e, getProperties env (storageName job) = Rejected e
            /\ err_statusCode e = Some 404%Z.

(** A server that has no storage account key in its environment. *)
Definition keyless_env (now : Time) (id : string) (blob : bool) : Env :=
  {| AZURE_STORAGE_ACCOUNT_NAME := Some "afstore"%string;
     AZURE_STORAGE_ACCOUNT_KEY := None;
     AZURE_STORAGE_CONTAINER_NAME := Some "structures"%string;
     ALPHAFOLD_VM_ENDPOINT := Some "http://10.0.0.4:5000/predict"%string;
     Date_now := now;
     uuidv4 := id;
     getProperties := fun _ => if blob then Resolved else Rejected not_found_404;
     headObject := fun _ => if blob then Resolved else Rejected s3_not_found;
     axios_post := fun _ _ => Resolved |}.

(** The status codes and error texts the handlers send. *)
Definition handler_codes : list nat := [200; 400; 404; 500].

Definition handler_errors : list string :=
  [ "Sequence is required";
    "Invalid protein sequence. Use standard amino acid codes (ACDEFGHIKLMNPQRSTVWY).";
    "Server error processing sequence";
    "Job not found";
    "Server error checking job status";
    "Server error checking result";
    "Server error listing jobs" ]%string.

(** The job id a request is about: the one handed out for a submission,
    the one in the path of a poll. *)
Definition request_id (env : Env) (req : Request) : option string :=
  match req with
  | POST_submit_sequence _ => Some (uuidv4 env)
  | GET_job_status id => Some id
  | GET_check_result id => Some id
  | GET_admin_jobs => None
  end.

(** The records of a collection that carry the id. *)
Definition records_of (id : string) (content : list JobData) : list JobData :=
  filter (has_id id) content.

(** * The client *)

(** ** More of JavaScript's strings *)

(** White space and line terminators: what [trim] strips and what the
    pattern [\s] matches. *)
Definition isWhiteSpace (c : code_unit) : bool :=
  existsb (N.eqb c)
    [ 0x0009; 0x000A; 0x000B; 0x000C; 0x000D; 0x0020; 0x00A0; 0x1680;
      0x2000; 0x2001; 0x2002; 0x2003; 0x2004; 0x2005; 0x2006; 0x2007;
      0x2008; 0x2009; 0x200A; 0x2028; 0x2029; 0x202F; 0x205F; 0x3000;
      0xFEFF ]%N.

Fixpoint trimStart (s : jsstring) : jsstring :=
  match s with
  | [] => []
  | c :: rest => if isWhiteSpace c then trimStart rest else s
  end.

Definition trimEnd (s : jsstring) : jsstring := rev (trimStart (rev s)).

Definition trim (s : jsstring) : jsstring := trimEnd (trimStart s).

(** [s.replace(/\s/g, "")] *)
Definition removeWhiteSpace (s : jsstring) : jsstring :=
  filter (fun c => negb (isWhiteSpace c)) s.

(** [a === b] on strings. *)
Fixpoint jsstring_eqb (a b : jsstring) : bool :=
  match a, b with
  | [], [] => true
  | c :: a', d :: b' => (c =? d)%N && jsstring_eqb a' b'
  | _, _ => false
  end.

(** ** client/services/api *)

(** How an HTTP request ends for the browser, as far as the wrappers are
    followed here: with a reply that one of the handlers sent (a status
    code and a JSON body), or with none (the server cannot be reached).
    Which requests reach a handler is decided in front of the handlers, by
    [bodyParser.json()] and by the router matching the path the wrapper has
    pasted together; that part of the server is not modelled, and the
    replies Express sends by itself (its 404 and 413 pages) are not among
    these outcomes. *)
Inductive HttpOutcome :=
| Replied (r : Response)
| NoResponse.

Module Api.

(** What a wrapper does: it returns [response.data] or throws an [Error]
    with a message. *)
Inductive Outcome :=
| Returned (data : Json)
| ThrownError (message : string).

(** axios resolves for the status codes 200 to 299 and rejects for the
    others, with the reply in [error.response]. *)
Definition resolves (r : Response) : bool :=
  (200 <=? code r) && (code r <? 300).

(** [text || fallback], for the [error] field of a reply body. *)
Definition or_else (text : option string) (fallback : string) : string :=
  match text with
  | Some t => if String.eqb t "" then fallback else t
  | None => fallback
  end.

Definition submitSequence (post : JsValue -> HttpOutcome) (sequence : jsstring)
  : Outcome :=
  match post (JsString sequence) with
  | Replied response =>
      if resolves response then Returned (json response)
      else ThrownError (or_else (response_error response) "Failed to submit sequence")
  | NoResponse => ThrownError "Network error. Please try again later."
  end.

Definition getJobStatus (get : string -> HttpOutcome) (jobId : string) : Outcome :=
  match get jobId with
  | Replied response =>
      if resolves response then Returned (json response)
      else ThrownError (or_else (response_error response) "Failed to get job status")
  | NoResponse => ThrownError "Network error. Please try again later."
  end.

Definition checkResult (get : string -> HttpOutcome) (jobId : string) : Outcome :=
  match get jobId with
  | Replied response =>
      if resolves response then Returned (json response)
      else ThrownError (or_else (response_error response) "Failed to check result")
  | NoResponse => ThrownError "Network error. Please try again later."
  end.

End Api.

(** ** client/components/SequenceInput *)

Module SequenceInput.

(** The two pieces of state [validateSequence] sets. *)
Record Validation := {
  isValid : bool;
  validationMsg : string
}.

(** [validateSequence(seq)]: the state it sets; its return value is the
    [isValid] it sets. *)
Definition validateSequence (seq : jsstring) : Validation :=
  match trim seq with
  | [] =>
      {| isValid := false; validationMsg := "Please enter a protein sequence" |}
  | _ :: _ =>
      if negb (isValidSequence (JsString seq)) then
        {| isValid := false;
           validationMsg :=
             "Invalid amino acids: Use standard single-letter codes (ACDEFGHIKLMNPQRSTVWY)." |}
      else if length seq <? 10 then
        {| isValid := false;
           validationMsg := "Sequence is too short (minimum 10 amino acids)" |}
      else if 1000 <? length seq then
        {| isValid := false;
           validationMsg := "Sequence is too long (maximum 1000 amino acids)" |}
      else
        {| isValid := true; validationMsg := "" |}
  end.

(** The form's [onSubmit] handler: whether it calls the [onSubmit] it was
    given. *)
Definition handleSubmit (sequence : jsstring) : bool :=
  isValid (validateSequence sequence).

(** The text area's [onChange]: the sequence it stores, and the validation
    state after it. *)
Definition onChange (state : Validation) (value : jsstring) : jsstring * Validation :=
  (removeWhiteSpace value,
   if negb (isValid state) then validateSequence value else state).

End SequenceInput.

(** ** client/components/App: the list of recent jobs *)

Module App.

Record StoredJob := {
  jobId : string;
  sequence : jsstring;
  timestamp : Time
}.

(** [storeJob(id, seq)] with the list [recentJobs] it sees and the instant
    [Date.now()] gives: the list it stores, in state and in localStorage. *)
Definition storeJob (recentJobs : list StoredJob) (now : Time)
           (id : string) (seq : jsstring) : list StoredJob :=
  let newJob := {| jobId := id; sequence := seq; timestamp := now |} in
  let updatedJobs :=
    firstn 5 (newJob :: filter (fun job => negb (String.eqb (jobId job) id)) recentJobs) in
  updatedJobs.

End App.

(** ** client/components/ProteinViewer: chains of a PDB file *)

(** [s.substring(start, end)] for [start <= end]. *)
Definition substring (s : jsstring) (start end_ : nat) : jsstring :=
  firstn (end_ - start) (skipn start s).

(** [s.split(sep)] for a one-unit separator. *)
Fixpoint split (sep : code_unit) (s : jsstring) : list jsstring :=
  match s with
  | [] => [[]]
  | c :: rest =>
      if (c =? sep)%N then [] :: split sep rest
      else match split sep rest with
           | first :: others => (c :: first) :: others
           | [] => [[c]]
           end
  end.

(** The value of a digit in a radix, if it is one. *)
Definition digit_value (radix : Z) (c : code_unit) : option Z :=
  let v :=
    if ((48 <=? c) && (c <=? 57))%N then Some (Z.of_N c - 48)%Z
    else if ((97 <=? c) && (c <=? 122))%N then Some (Z.of_N c - 87)%Z
    else if ((65 <=? c) && (c <=? 90))%N then Some (Z.of_N c - 55)%Z
    else None in
  match v with
  | Some d => if (d <? radix)%Z then Some d else None
  | None => None
  end.

(** The number written by the longest run of digits at the start of [s];
    [acc] is [None] until a digit has been read. *)
Fixpoint leading_number (radix : Z) (acc : option Z) (s : jsstring) : option Z :=
  match s with
  | [] => acc
  | c :: rest =>
      match digit_value radix c with
      | Some d =>
          leading_number radix
            (Some (radix * match acc with Some n => n | None => 0 end + d)%Z) rest
      | None => acc
      end
  end.

(** [parseInt(input)] without a radix; [None] is NaN.  Leading white space
    is skipped, then a sign, then a 0x or 0X prefix, which selects radix 16.
    The result is exact below 2^53, which covers the four characters the
    viewer passes; minus zero is given as zero, as a Map key takes it. *)
Definition parseInt (input : jsstring) : option Z :=
  let s := trimStart input in
  let (sign, s) :=
    match s with
    | 45%N :: rest => ((-1)%Z, rest)
    | 43%N :: rest => (1%Z, rest)
    | _ => (1%Z, s)
    end in
  let (radix, s) :=
    match s with
    | 48%N :: 120%N :: rest => (16%Z, rest)
    | 48%N :: 88%N :: rest => (16%Z, rest)
    | _ => (10%Z, s)
    end in
  match leading_number radix None s with
  | Some n => Some (sign * n)%Z
  | None => None
  end.

Module ProteinViewer.

(** The object literal of [threeToOne]. *)
Definition map : list (jsstring * jsstring) :=
  [ (js "ALA", js "A"); (js "ARG", js "R"); (js "ASN", js "N"); (js "ASP", js "D");
    (js "CYS", js "C"); (js "GLN", js "Q"); (js "GLU", js "E"); (js "GLY", js "G");
    (js "HIS", js "H"); (js "ILE", js "I"); (js "LEU", js "L"); (js "LYS", js "K");
    (js "MET", js "M"); (js "PHE", js "F"); (js "PRO", js "P"); (js "SER", js "S");
    (js "THR", js "T"); (js "TRP", js "W"); (js "TYR", js "Y"); (js "VAL", js "V") ].

(** [object[key]] among the object's own properties. *)
Fixpoint property {V} (object : list (jsstring * V)) (key : jsstring) : option V :=
  match object with
  | [] => None
  | (k, v) :: rest => if jsstring_eqb k key then Some v else property rest key
  end.

(** [map[three] || 'X'].  The names the viewer passes have at most three
    characters, so that [three] is never the name of a property that every
    object inherits. *)
Definition threeToOne (three : jsstring) : jsstring :=
  match property map three with
  | Some one => one
  | None => js "X"
  end.

(** A chain: its id, the Map of its residues in insertion order (residue
    number, NaN being [None], to residue name), and its sequence. *)
Record Chain := {
  id : jsstring;
  residues : list (option Z * jsstring);
  sequence : jsstring
}.

Definition option_Z_eqb (a b : option Z) : bool :=
  match a, b with
  | Some x, Some y => (x =? y)%Z
  | None, None => true
  | _, _ => false
  end.

(** [residues.has(resNum)] *)
Definition has (residues : list (option Z * jsstring)) (resNum : option Z) : bool :=
  existsb (fun entry => option_Z_eqb (fst entry) resNum) residues.

Definition is_chain (chainId : jsstring) (chain : Chain) : bool :=
  jsstring_eqb (id chain) chainId.

(** The body of the [forEach] for a line that is an atom record, on the
    chains created so far, in the order of their creation. *)
Definition record_atom (chains : list Chain) (line : jsstring) : list Chain :=
  let chainId := trim (substring line 21 22) in
  let resName := trim (substring line 17 20) in
  let resNum := parseInt (trim (substring line 22 26)) in
  let chains :=
    if existsb (is_chain chainId) chains then chains
    else chains ++ [{| id := chainId; residues := []; sequence := [] |}] in
  update_first (is_chain chainId)
    (fun chain =>
       if has (residues chain) resNum then chain
       else {| id := id chain;
               residues := residues chain ++ [(resNum, resName)];
               sequence := (sequence chain ++ threeToOne resName)%list |})
    chains.

Definition each_line (chains : list Chain) (line : jsstring) : list Chain :=
  if startsWith line (js "ATOM") || startsWith line (js "HETATM")
  then record_atom chains line
  else chains.

(** [Object.values(chains)]: the properties whose key is an array index
    (here the one-digit ids) come first, in ascending order, then the others
    in the order of their creation. *)
Definition is_digit_id (chain : Chain) : bool :=
  match id chain with
  | [c] => ((48 <=? c) && (c <=? 57))%N
  | _ => false
  end.

Definition Object_values (chains : list Chain) : list Chain :=
  flat_map (fun digit => filter (is_chain [digit]) chains)
           [48; 49; 50; 51; 52; 53; 54; 55; 56; 57]%N
  ++ filter (fun chain => negb (is_digit_id chain)) chains.

Definition extractChains (pdbData : jsstring) : list Chain :=
  let lines := split 10%N pdbData in
  Object_values (fold_left each_line lines []).

End ProteinViewer.

(** What holds of every chain while a file is read: it has a residue, its
    residue numbers are distinct, and its sequence is made of the codes of
    its residues, in their order. *)
Definition chain_consistent (chain : ProteinViewer.Chain) : Prop :=
  ProteinViewer.residues chain <> []
  /\ NoDup (List.map fst (ProteinViewer.residues chain))
  /\ ProteinViewer.sequence chain
     = flat_map (fun entry => ProteinViewer.threeToOne (snd entry))
                (ProteinViewer.residues chain).

(** A line is an atom record. *)
Definition atom_record (line : jsstring) : bool :=
  startsWith line (js "ATOM") || startsWith line (js "HETATM").

(** The three columns the viewer reads of an atom record. *)
Definition chain_column (line : jsstring) : jsstring := trim (substring line 21 22).
Definition name_column (line : jsstring) : jsstring := trim (substring line 17 20).
Definition number_column (line : jsstring) : option Z :=
  parseInt (trim (substring line 22 26)).

(** A residue of a chain has been recorded. *)
Definition recorded (chainId : jsstring) (resNum : option Z)
           (chains : list ProteinViewer.Chain) : Prop :=
  exists chain,
    find (ProteinViewer.is_chain chainId) chains = Some chain
    /\ ProteinViewer.has (ProteinViewer.residues chain) resNum = true.

(** A line of a text has no line feed in it. *)
Definition one_line (line : jsstring) : Prop := ~ In 10%N line.

(** Lines put together into one text. *)
Fixpoint join_lines (lines : list jsstring) : jsstring :=
  match lines with
  | [] => []
  | [line] => line
  | line :: rest => line ++ 10%N :: join_lines rest
  end.

(** Two atom records of a small file: residue 1 (MET) and residue 2 (LYS)
    of chain A. *)
Definition atom_met_1 : jsstring :=
  js "ATOM      1  N   MET A   1      27.340  24.430   2.614  1.00  9.67           N".

Definition atom_met_1_ca : jsstring :=
  js "ATOM      2  CA  MET A   1      26.266  25.413   2.842  1.00 10.38           C".

Definition atom_lys_2 : jsstring :=
  js "ATOM      9  N   LYS A   2      25.112  24.880   3.649  1.00  9.62           N".

(** * Properties *)

(** ** The storage adapter *)

Lemma generateSasUrl_configured (env : Env) (blobName : string) (s : Store) :
  sas_configured env = true ->
  generateSasUrl env blobName s = (Normal (fresh_url env blobName), s).
Proof.
  unfold sas_configured, generateSasUrl. intros H.
  apply andb_true_iff in H. destruct H as [Hn Hk].
  rewrite Hn, Hk. reflexivity.
Qed.

Lemma generateSasUrl_unconfigured (env : Env) (blobName : string) (s : Store) :
  sas_configured env = false ->
  exists e, generateSasUrl env blobName s = (Throw e, s).
Proof.
  unfold sas_configured, generateSasUrl. intros H.
  apply andb_false_iff in H.
  destruct H as [H | H]; rewrite H; simpl.
  - eexists; reflexivity.
  - rewrite orb_true_r. eexists; reflexivity.
Qed.

Lemma generateSasUrl_store (env : Env) (blobName : string) (s : Store) :
  snd (generateSasUrl env blobName s) = s.
Proof.
  unfold generateSasUrl.
  destruct (negb _ || negb _); reflexivity.
Qed.

Lemma checkBlobExists_resolved (env : Env) (blobName : string) (s : Store) :
  getProperties env blobName = Resolved ->
  checkBlobExists env blobName s = (Normal true, s).
Proof.
  intros H. unfold checkBlobExists, tryCatch, bind. rewrite H. reflexivity.
Qed.

Lemma checkBlobExists_rejected (env : Env) (blobName : string) (s : Store) (e : JsError) :
  getProperties env blobName = Rejected e ->
  checkBlobExists env blobName s =
    (if statusCode_is e 404 then Normal false else Throw e, s).
Proof.
  intros H. unfold checkBlobExists, tryCatch, bind. rewrite H. simpl.
  destruct (statusCode_is e 404); reflexivity.
Qed.

Lemma checkBlobExists_store (env : Env) (blobName : string) (s : Store) :
  snd (checkBlobExists env blobName s) = s.
Proof.
  destruct (getProperties env blobName) as [|e] eqn:H.
  - rewrite (checkBlobExists_resolved _ _ _ H). reflexivity.
  - rewrite (checkBlobExists_rejected _ _ _ _ H). reflexivity.
Qed.

Lemma checkObjectExists_resolved (env : Env) (objectKey : string) (s : Store) :
  headObject env objectKey = Resolved ->
  checkObjectExists env objectKey s = (Normal true, s).
Proof.
  intros H. unfold checkObjectExists, tryCatch, bind. rewrite H. reflexivity.
Qed.

Lemma checkObjectExists_rejected (env : Env) (objectKey : string) (s : Store) (e : JsError) :
  headObject env objectKey = Rejected e ->
  checkObjectExists env objectKey s =
    (if String.eqb (err_name e) "NotFound" then Normal false else Throw e, s).
Proof.
  intros H. unfold checkObjectExists, tryCatch, bind. rewrite H. simpl.
  destruct (String.eqb (err_name e) "NotFound"); reflexivity.
Qed.

Lemma statusCode_is_iff (e : JsError) (n : Z) :
  statusCode_is e n = true <-> err_statusCode e = Some n.
Proof.
  unfold statusCode_is. destruct (err_statusCode e) as [c|].
  - rewrite Z.eqb_eq. split; congruence.
  - split; discriminate.
Qed.

(** C9.  For every object name, the existence check of the storage adapter
    answers [false] exactly when the provider signals not-found (status code
    404 for Azure, error name NotFound for S3), answers [true] when the
    metadata call succeeds, and rethrows every other failure as it is, in
    both implementations; it never writes to the store. *)
Theorem exists_check_not_found_is_false (env : Env) (name : string) (s : Store) :
  (* Azure *)
  (getProperties env name = Resolved ->
     checkBlobExists env name s = (Normal true, s))
  /\ (forall e, getProperties env name = Rejected e ->
        err_statusCode e = Some 404%Z ->
        checkBlobExists env name s = (Normal false, s))
  /\ (forall e, getProperties env name = Rejected e ->
        err_statusCode e <> Some 404%Z ->
        checkBlobExists env name s = (Throw e, s))
  /\ (fst (checkBlobExists env name s) = Normal false <->
        exists e, getProperties env name = Rejected e
                  /\ err_statusCode e = Some 404%Z)
  (* S3 *)
  /\ (headObject env name = Resolved ->
        checkObjectExists env name s = (Normal true, s))
  /\ (forall e, headObject env name = Rejected e ->
        err_name e = "NotFound"%string ->
        checkObjectExists env name s = (Normal false, s))
  /\ (forall e, headObject env name = Rejected e ->
        err_name e <> "NotFound"%string ->
        checkObjectExists env name s = (Throw e, s))
  /\ (fst (checkObjectExists env name s) = Normal false <->
        exists e, headObject env name = Rejected e
                  /\ err_name e = "NotFound"%string).
Proof.
  repeat split.
  - apply checkBlobExists_resolved.
  - intros e He H404. rewrite (checkBlobExists_rejected _ _ _ _ He).
    apply statusCode_is_iff in H404. rewrite H404. reflexivity.
  - intros e He Hn. rewrite (checkBlobExists_rejected _ _ _ _ He).
    destruct (statusCode_is e 404) eqn:E; [|reflexivity].
    apply statusCode_is_iff in E. contradiction.
  - intros H. destruct (getProperties env name) as [|e] eqn:He.
    + rewrite (checkBlobExists_resolved _ _ _ He) in H. discriminate.
    + exists e. split; [reflexivity|].
      rewrite (checkBlobExists_rejected _ _ _ _ He) in H. simpl in H.
      destruct (statusCode_is e 404) eqn:E; [|discriminate].
      apply statusCode_is_iff; assumption.
  - intros [e [He H404]]. rewrite (checkBlobExists_rejected _ _ _ _ He).
    apply statusCode_is_iff in H404. rewrite H404. reflexivity.
  - apply checkObjectExists_resolved.
  - intros e He Hn. rewrite (checkObjectExists_rejected _ _ _ _ He).
    apply String.eqb_eq in Hn. rewrite Hn. reflexivity.
  - intros e He Hn. rewrite (checkObjectExists_rejected _ _ _ _ He).
    destruct (String.eqb (err_name e) "NotFound") eqn:E; [|reflexivity].
    apply String.eqb_eq in E. contradiction.
  - intros H. destruct (headObject env name) as [|e] eqn:He.
    + rewrite (checkObjectExists_resolved _ _ _ He) in H. discriminate.
    + exists e. split; [reflexivity|].
      rewrite (checkObjectExists_rejected _ _ _ _ He) in H. simpl in H.
      destruct (String.eqb (err_name e) "NotFound") eqn:E; [|discriminate].
      apply String.eqb_eq; assumption.
  - intros [e [He Hn]]. rewrite (checkObjectExists_rejected _ _ _ _ He).
    apply String.eqb_eq in Hn. rewrite Hn. reflexivity.
Qed.

(** The check at work: an absent blob, a present one, and a busy service. *)
Lemma exists_check_not_found_is_false_witness :
  checkBlobExists (sample_env 5 "j" true true) "proteins/j.pdb" empty_store
    = (Normal true, empty_store)
  /\ checkBlobExists (sample_env 5 "j" false true) "proteins/j.pdb" empty_store
    = (Normal false, empty_store)
  /\ checkObjectExists (sample_env 5 "j" false true) "proteins/j.pdb" empty_store
    = (Normal false, empty_store)
  /\ checkBlobExists (busy_storage_env 5 "j") "proteins/j.pdb" empty_store
    = (Throw service_unavailable, empty_store).
Proof.
  split; [|split; [|split]].
  - apply (exists_check_not_found_is_false
             (sample_env 5 "j" true true) "proteins/j.pdb" empty_store).
    reflexivity.
  - apply (proj1 (proj2 (exists_check_not_found_is_false
             (sample_env 5 "j" false true) "proteins/j.pdb" empty_store))
             not_found_404); reflexivity.
  - apply (proj1 (proj2 (proj2 (proj2 (proj2 (proj2
             (exists_check_not_found_is_false
                (sample_env 5 "j" false true) "proteins/j.pdb" empty_store))))))
             s3_not_found); reflexivity.
  - apply (proj1 (proj2 (proj2 (exists_check_not_found_is_false
             (busy_storage_env 5 "j") "proteins/j.pdb" empty_store)))
             service_unavailable); [reflexivity | discriminate].
Defined.

(** ** The sequence validator *)

Lemma startsWith_In (sub s : jsstring) :
  startsWith s sub = true -> forall x, In x sub -> In x s.
Proof.
  revert s. induction sub as [|c sub IH]; intros s H x Hx.
  - destruct Hx.
  - destruct s as [|d s]; simpl in H; [discriminate|].
    apply andb_true_iff in H. destruct H as [Hcd Hrest].
    apply N.eqb_eq in Hcd. subst d.
    destruct Hx as [Hx | Hx].
    + left; assumption.
    + right. apply (IH s Hrest x Hx).
Qed.

Lemma includes_In (s sub : jsstring) :
  includes s sub = true -> forall x, In x sub -> In x s.
Proof.
  induction s as [|d s IH]; intros H x Hx.
  - destruct sub; [destruct Hx | discriminate H].
  - cbn [includes] in H. apply orb_true_iff in H. destruct H as [H | H].
    + apply (startsWith_In _ _ H x Hx).
    + right. apply (IH H x Hx).
Qed.

Lemma includes_unit (s : jsstring) (c : code_unit) :
  includes s [c] = existsb (N.eqb c) s.
Proof.
  induction s as [|d s IH].
  - reflexivity.
  - cbn [includes existsb startsWith]. rewrite IH.
    destruct s; simpl; rewrite ?andb_true_r; reflexivity.
Qed.

Lemma existsb_eqb_In (c : code_unit) (s : jsstring) :
  existsb (N.eqb c) s = true <-> In c s.
Proof.
  rewrite existsb_exists. split.
  - intros [x [Hx E]]. apply N.eqb_eq in E. subst; assumption.
  - intros H. exists c. split; [assumption | apply N.eqb_refl].
Qed.

Lemma lookup_In (c : code_unit) (table : list (code_unit * jsstring)) (form : jsstring) :
  lookup c table = Some form -> In (c, form) table.
Proof.
  induction table as [|[k f] rest IH]; simpl; [discriminate|].
  destruct (k =? c)%N eqn:E.
  - intros H. injection H as <-. apply N.eqb_eq in E. subst. left; reflexivity.
  - intros H. right. apply IH, H.
Qed.

Lemma toUpperCase_nonempty (c : code_unit) : toUpperCase c <> [].
Proof.
  unfold toUpperCase. destruct ((97 <=? c) && (c <=? 122))%N; [discriminate|].
  destruct (lookup c latin_upper_forms) as [form|] eqn:E; [|discriminate].
  apply lookup_In in E. simpl in E.
  repeat (destruct E as [E | E]; [injection E as <- <-; discriminate|]).
  destruct E.
Qed.

(** Apart from the two ST ligatures, a code unit passes the test of
    [isValidSequence] exactly when its upper-case form is one letter of the
    alphabet. *)
Lemma includes_toUpperCase (c : code_unit) :
  ligature_st c = false ->
  includes validAminoAcids (toUpperCase c) = one_letter (toUpperCase c).
Proof.
  intros Hl. unfold toUpperCase.
  destruct ((97 <=? c) && (c <=? 122))%N.
  - unfold one_letter. rewrite includes_unit. reflexivity.
  - destruct (lookup c latin_upper_forms) as [form|] eqn:E.
    + apply lookup_In in E. simpl in E.
      repeat (destruct E as [E | E];
              [injection E as <- <-; first [reflexivity | discriminate Hl]|]).
      destruct E.
    + unfold one_letter. rewrite includes_unit. reflexivity.
Qed.

Lemma isValidSequence_string (s : jsstring) :
  isValidSequence (JsString s) =
    negb (match s with [] => true | _ => false end)
    && forallb (fun char => includes validAminoAcids (toUpperCase char)) s.
Proof.
  destruct s; reflexivity.
Qed.

Lemma isValidSequence_truthy (v : JsValue) :
  isValidSequence v = true -> truthy v = true /\ v = JsString (as_string v).
Proof.
  unfold isValidSequence. destruct v as [s|b]; simpl.
  - destruct s; simpl; [discriminate|]. auto.
  - rewrite orb_true_r. discriminate.
Qed.

(** Away from the two ligatures the validator is the case-insensitive
    letter test: a string is accepted exactly when it is not empty and the
    upper-case form of each of its characters is one letter of the
    alphabet; the empty string and every value that is not a string are
    rejected. *)
Lemma isValidSequence_letters (s : jsstring) :
  forallb (fun c => negb (ligature_st c)) s = true ->
  (isValidSequence (JsString s) = true <->
     s <> [] /\ forall c, In c s ->
       exists l, toUpperCase c = [l] /\ In l validAminoAcids).
Proof.
  intros Hlig. rewrite isValidSequence_string.
  rewrite forallb_forall in Hlig.
  rewrite andb_true_iff, forallb_forall. split.
  - intros [Hne Hall]. split.
    + destruct s; [discriminate | discriminate].
    + intros c Hc.
      specialize (Hall c Hc). specialize (Hlig c Hc).
      apply negb_true_iff in Hlig.
      rewrite (includes_toUpperCase _ Hlig) in Hall.
      unfold one_letter in Hall.
      destruct (toUpperCase c) as [|l [|? ?]]; try discriminate.
      exists l. split; [reflexivity|].
      apply existsb_eqb_In; assumption.
  - intros [Hne Hall]. split.
    + destruct s; [contradiction | reflexivity].
    + intros c Hc. destruct (Hall c Hc) as [l [Hu Hl]].
      specialize (Hlig c Hc). apply negb_true_iff in Hlig.
      rewrite (includes_toUpperCase _ Hlig), Hu. simpl.
      apply existsb_eqb_In in Hl. exact Hl.
Qed.

Lemma isValidSequence_rejects_empty_and_non_strings :
  isValidSequence (JsString []) = false
  /\ forall b, isValidSequence (JsOther b) = false.
Proof.
  split; [reflexivity|]. intros b. unfold isValidSequence. simpl.
  rewrite orb_true_r. reflexivity.
Qed.

(** Lower-case amino-acid letters pass. *)
Lemma isValidSequence_lowercase :
  isValidSequence (JsString (js "acdefghiklmnpqrstvwy")) = true.
Proof. reflexivity. Qed.

(** C10.  The claim reads: a non-empty string is accepted if and only if
    each of its characters, upper-cased, is one of ACDEFGHIKLMNPQRSTVWY.
    The code tests [validAminoAcids.includes(char.toUpperCase())], a
    substring test, and an upper-case form may have several characters.
    The one-character string U+FB06 (ligature st) has the upper-case form
    ST, which is two characters and so none of the twenty letters, but which
    occurs inside ...QRSTVWY: the string is accepted.  (Read the other way,
    with each character of the upper-cased string tested: U+FB00, ligature
    ff, becomes FF, two valid letters, and is rejected.) *)
Theorem ligature_st_passes_validation :
  toUpperCase 0xFB06%N = js "ST"
  /\ (forall l, toUpperCase 0xFB06%N <> [l])
  /\ includes validAminoAcids (js "ST") = true
  /\ isValidSequence (JsString [0xFB06%N]) = true
  /\ toUpperCase 0xFB00%N = js "FF"
  /\ (forall l, In l (js "FF") -> In l validAminoAcids)
  /\ isValidSequence (JsString [0xFB00%N]) = false.
Proof.
  split; [reflexivity|]. split; [intros l H; discriminate H|].
  split; [reflexivity|]. split; [reflexivity|]. split; [reflexivity|].
  split; [|reflexivity].
  intros l [<- | [<- | []]]; simpl; tauto.
Qed.

(** ** What [submitSequence] does, case by case *)

Lemma dispatch_cases (env : Env) (seq : jsstring) :
  dispatch_succeeds env seq \/ dispatch_fails env seq.
Proof.
  unfold dispatch_succeeds, dispatch_fails.
  destruct (env_truthy (ALPHAFOLD_VM_ENDPOINT env)); [|right; left; reflexivity].
  destruct (env_truthy (AZURE_STORAGE_CONTAINER_NAME env));
    [|right; right; left; reflexivity].
  match goal with |- (_ /\ _ /\ ?p = _) \/ _ => destruct p as [|e] eqn:E end.
  - left. auto.
  - right. right. right. exists e. reflexivity.
Qed.

Lemma dispatch_not_both (env : Env) (seq : jsstring) :
  dispatch_succeeds env seq -> dispatch_fails env seq -> False.
Proof.
  intros [He [Hc Hp]] [Hf | [Hf | [e Hf]]]; congruence.
Qed.

Lemma submitSequence_rejected (env : Env) (v : JsValue) (s : Store) :
  isValidSequence v = false ->
  exists msg, submitSequence env v s = (Normal {| code := 400; json := ErrorJson msg |}, s).
Proof.
  intros H. unfold submitSequence, tryCatch, respond, ret.
  destruct (truthy v); simpl.
  - rewrite H. simpl. eexists; reflexivity.
  - eexists; reflexivity.
Qed.

Lemma submitSequence_unconfigured (env : Env) (v : JsValue) (s : Store) :
  isValidSequence v = true ->
  sas_configured env = false ->
  submitSequence env v s =
    (Normal {| code := 500; json := ErrorJson "Server error processing sequence" |}, s).
Proof.
  intros Hv Hc. destruct (isValidSequence_truthy _ Hv) as [Ht _].
  destruct (generateSasUrl_unconfigured env (storageName_of (uuidv4 env)) s Hc)
    as [e He].
  unfold submitSequence, tryCatch, bind. rewrite Ht, Hv. cbn [negb].
  unfold storageName_of in He. rewrite He. reflexivity.
Qed.

Lemma submitSequence_dispatch_failed (env : Env) (seq : jsstring) (s : Store) :
  isValidSequence (JsString seq) = true ->
  sas_configured env = true ->
  dispatch_fails env seq ->
  submitSequence env (JsString seq) s =
    (Normal (submit_ok env),
     {| queue := queue s ++ [queued_record env seq];
        log := log s ++ [error_record env seq] |}).
Proof.
  intros Hv Hc Hd. destruct (isValidSequence_truthy _ Hv) as [Ht _].
  pose proof (generateSasUrl_configured env (storageName_of (uuidv4 env)) s Hc) as Hg.
  unfold sas_configured in Hc. apply andb_true_iff in Hc. destruct Hc as [Hn Hk].
  unfold submitSequence, tryCatch, bind. rewrite Ht, Hv. cbn [negb].
  unfold storageName_of in Hg. rewrite Hg.
  unfold addToQueue, addToLog, readQueue, readLog, writeQueue, writeLog, bind,
    getStorageAccountName, getContainerName, removeFromQueue, respond, ret, throw.
  simpl queue. simpl log.
  destruct Hd as [Hd | [Hd | [e Hd]]].
  - rewrite Hd. reflexivity.
  - rewrite Hn, Hd.
    destruct (env_truthy (ALPHAFOLD_VM_ENDPOINT env)); reflexivity.
  - rewrite Hn.
    destruct (env_truthy (ALPHAFOLD_VM_ENDPOINT env)); [|reflexivity].
    destruct (env_truthy (AZURE_STORAGE_CONTAINER_NAME env)); [|reflexivity].
    cbn [negb]. unfold storageName_of, fresh_url in Hd.
    simpl as_string. unfold fresh_url. rewrite Hd. reflexivity.
Qed.

Lemma submitSequence_dispatched (env : Env) (seq : jsstring) (s : Store) :
  isValidSequence (JsString seq) = true ->
  sas_configured env = true ->
  dispatch_succeeds env seq ->
  submitSequence env (JsString seq) s =
    (Normal (submit_ok env),
     {| queue := filter (fun job => negb (has_id (uuidv4 env) job))
                        (queue s ++ [queued_record env seq]);
        log := log s ++ [processing_record env seq] |}).
Proof.
  intros Hv Hc [He [Hct Hp]]. destruct (isValidSequence_truthy _ Hv) as [Ht _].
  pose proof (generateSasUrl_configured env (storageName_of (uuidv4 env)) s Hc) as Hg.
  unfold sas_configured in Hc. apply andb_true_iff in Hc. destruct Hc as [Hn Hk].
  unfold submitSequence, tryCatch, bind. rewrite Ht, Hv. cbn [negb].
  unfold storageName_of in Hg. rewrite Hg.
  unfold addToQueue, addToLog, readQueue, readLog, writeQueue, writeLog, bind,
    getStorageAccountName, getContainerName, removeFromQueue, respond, ret, throw.
  simpl queue. simpl log.
  rewrite He, Hn, Hct. cbn [negb].
  unfold storageName_of, fresh_url in Hp. simpl as_string. unfold fresh_url.
  rewrite Hp. reflexivity.
Qed.

(** ** Lists: [find], [findIndex], [assign] *)

Lemma findIndex_find {A} (p : A -> bool) (l : list A) :
  match findIndex p l with
  | Some i => nth_error l i = find p l /\ find p l <> None
  | None => find p l = None
  end.
Proof.
  induction l as [|x rest IH]; simpl.
  - reflexivity.
  - destruct (p x).
    + split; [reflexivity | discriminate].
    + destruct (findIndex p rest); simpl; exact IH.
Qed.

Lemma assign_update_first {A} (p : A -> bool) (f : A -> A) (l : list A) :
  match findIndex p l with
  | Some i =>
      match nth_error l i with
      | Some old => assign l i (f old) = update_first p f l
      | None => False
      end
  | None => update_first p f l = l
  end.
Proof.
  induction l as [|x rest IH]; simpl.
  - reflexivity.
  - destruct (p x); simpl.
    + reflexivity.
    + destruct (findIndex p rest) as [i|]; simpl.
      * destruct (nth_error rest i); [|exact IH]. rewrite IH. reflexivity.
      * rewrite IH. reflexivity.
Qed.

Lemma update_first_nth {A} (p : A -> bool) (f : A -> A) (l : list A) (i : nat) (x : A) :
  nth_error l i = Some x ->
  nth_error (update_first p f l) i = Some x
  \/ (nth_error (update_first p f l) i = Some (f x) /\ p x = true
      /\ find p l = Some x).
Proof.
  revert i. induction l as [|y rest IH]; intros i H.
  - destruct i; discriminate.
  - simpl. destruct (p y) eqn:E.
    + destruct i; simpl in *.
      * injection H as <-. right. auto.
      * left. assumption.
    + destruct i; simpl in *.
      * left. assumption.
      * apply IH, H.
Qed.

Lemma find_update_first {A} (p : A -> bool) (f : A -> A) (l : list A) (x : A) :
  find p l = Some x ->
  p (f x) = true ->
  find p (update_first p f l) = Some (f x).
Proof.
  intros H Hf. induction l as [|y rest IH]; simpl in *.
  - discriminate.
  - destruct (p y) eqn:E.
    + injection H as <-. simpl. rewrite Hf. reflexivity.
    + simpl. rewrite E. apply IH, H.
Qed.

Lemma find_app_fresh {A} (p : A -> bool) (l : list A) (x : A) :
  existsb p l = false -> p x = true -> find p (l ++ [x]) = Some x.
Proof.
  intros H Hx. induction l as [|y rest IH]; simpl in *.
  - rewrite Hx. reflexivity.
  - apply orb_false_iff in H. destruct H as [Hy Hrest].
    rewrite Hy. apply IH, Hrest.
Qed.

Lemma find_some_holds {A} (p : A -> bool) (l : list A) (x : A) :
  find p l = Some x -> p x = true.
Proof. intros H. apply find_some in H. apply H. Qed.

Lemma has_id_spread (id : string) (job : JobData) (updates : PartialJobData) :
  p_jobId updates = None -> has_id id (spread job updates) = has_id id job.
Proof. intros H. unfold has_id, spread. simpl. rewrite H. reflexivity. Qed.

(** ** services/queueService: [updateLoggedJob] *)

Lemma updateLoggedJob_eq (id : string) (updates : PartialJobData) (s : Store) :
  updateLoggedJob id updates s =
    (Normal (option_map (fun job => spread job updates) (find (has_id id) (log s))),
     match find (has_id id) (log s) with
     | Some _ =>
         {| queue := queue s;
            log := update_first (has_id id) (fun job => spread job updates) (log s) |}
     | None => s
     end).
Proof.
  unfold updateLoggedJob, bind, readLog, writeLog, ret.
  pose proof (findIndex_find (has_id id) (log s)) as Hf.
  pose proof (assign_update_first (has_id id) (fun job => spread job updates) (log s)) as Ha.
  destruct (findIndex (has_id id) (log s)) as [i|].
  - destruct Hf as [Hn Hs]. rewrite <- Hn.
    destruct (nth_error (log s) i) as [old|]; [|contradiction].
    simpl. rewrite Ha. reflexivity.
  - rewrite Hf. reflexivity.
Qed.

(** [updateLoggedJob] answers none-found, and writes nothing, for an id
    that is not in the log. *)
Lemma updateLoggedJob_absent (id : string) (updates : PartialJobData) (s : Store) :
  find (has_id id) (log s) = None ->
  updateLoggedJob id updates s = (Normal None, s).
Proof. intros H. rewrite updateLoggedJob_eq, H. reflexivity. Qed.

(** ** What [checkResult] does, case by case *)

Lemma checkResult_not_logged (env : Env) (id : string) (s : Store) :
  find (has_id id) (log s) = None ->
  checkResult env id s =
    (Normal {| code := 404; json := ErrorJson "Job not found" |}, s).
Proof.
  intros H. unfold checkResult, getLoggedJob, tryCatch, bind, readLog, ret.
  rewrite H. reflexivity.
Qed.

Lemma checkResult_blob_absent (env : Env) (id : string) (s : Store) (job : JobData) :
  find (has_id id) (log s) = Some job ->
  blob_absent env job ->
  checkResult env id s =
    (Normal {| code := 200;
               json := ResultJson id Status.processing None
                         "Result is not available yet" |}, s).
Proof.
  intros H [e [He H404]].
  unfold checkResult, getLoggedJob, tryCatch, bind, readLog, ret.
  rewrite H. cbv beta iota.
  rewrite (checkBlobExists_rejected _ _ _ _ He).
  apply statusCode_is_iff in H404. rewrite H404. reflexivity.
Qed.

Lemma checkResult_blob_error (env : Env) (id : string) (s : Store) (job : JobData)
      (e : JsError) :
  find (has_id id) (log s) = Some job ->
  getProperties env (storageName job) = Rejected e ->
  err_statusCode e <> Some 404%Z ->
  checkResult env id s =
    (Normal {| code := 500; json := ErrorJson "Server error checking result" |}, s).
Proof.
  intros H He H404.
  unfold checkResult, getLoggedJob, tryCatch, bind, readLog, ret.
  rewrite H. cbv beta iota.
  rewrite (checkBlobExists_rejected _ _ _ _ He).
  destruct (statusCode_is e 404) eqn:E.
  - apply statusCode_is_iff in E. contradiction.
  - reflexivity.
Qed.

Lemma checkResult_blob_present (env : Env) (id : string) (s : Store) (job : JobData) :
  find (has_id id) (log s) = Some job ->
  blob_present env job ->
  checkResult env id s =
    (if sas_configured env
     then Normal {| code := 200;
                    json := ResultJson id Status.completed
                              (Some (fresh_url env (storageName job)))
                              "Result is available" |}
     else Normal {| code := 500; json := ErrorJson "Server error checking result" |},
     if Status.eqb (status job) Status.processing
     then {| queue := queue s;
             log := update_first (has_id id)
                      (fun j => spread j (completion (Date_now env))) (log s) |}
     else s).
Proof.
  intros H Hp. unfold blob_present in Hp.
  unfold checkResult, getLoggedJob, tryCatch, bind, readLog, ret.
  rewrite H. cbv beta iota.
  rewrite (checkBlobExists_resolved _ _ _ Hp). cbv beta iota.
  destruct (Status.eqb (status job) Status.processing).
  - fold (completion (Date_now env)). rewrite updateLoggedJob_eq, H. cbv beta iota.
    destruct (sas_configured env) eqn:Hc.
    + rewrite (generateSasUrl_configured _ _ _ Hc). reflexivity.
    + destruct (generateSasUrl_unconfigured env (storageName job)
                  {| queue := queue s;
                     log := update_first (has_id id)
                              (fun j => spread j (completion (Date_now env))) (log s) |}
                  Hc) as [e He].
      rewrite He. reflexivity.
  - destruct (sas_configured env) eqn:Hc.
    + rewrite (generateSasUrl_configured _ _ _ Hc). reflexivity.
    + destruct (generateSasUrl_unconfigured env (storageName job) s Hc) as [e He].
      rewrite He. reflexivity.
Qed.

Lemma status_eqb_eq (a b : Status.t) : Status.eqb a b = true <-> a = b.
Proof. destruct a, b; simpl; split; intros H; congruence. Qed.

Lemma status_eqb_neq (a b : Status.t) : Status.eqb a b = false <-> a <> b.
Proof. destruct a, b; simpl; split; intros H; congruence. Qed.

(** [checkResult] leaves the store as it is, or moves the first logged
    record of the id from processing to completed. *)
Lemma checkResult_store (env : Env) (id : string) (s : Store) :
  store_after (checkResult env id) s = s
  \/ exists job,
       find (has_id id) (log s) = Some job
       /\ status job = Status.processing
       /\ blob_present env job
       /\ store_after (checkResult env id) s =
            {| queue := queue s;
               log := update_first (has_id id)
                        (fun j => spread j (completion (Date_now env))) (log s) |}.
Proof.
  unfold store_after.
  destruct (find (has_id id) (log s)) as [job|] eqn:H.
  - destruct (getProperties env (storageName job)) as [|e] eqn:He.
    + rewrite (checkResult_blob_present env id s job H He).
      destruct (Status.eqb (status job) Status.processing) eqn:E.
      * right. exists job. apply status_eqb_eq in E. simpl. auto.
      * left. reflexivity.
    + left. destruct (statusCode_is e 404) eqn:E.
      * apply statusCode_is_iff in E.
        rewrite (checkResult_blob_absent env id s job H); [reflexivity|].
        exists e. auto.
      * rewrite (checkResult_blob_error env id s job e H He); [reflexivity|].
        intros H404. apply statusCode_is_iff in H404. congruence.
  - left. rewrite (checkResult_not_logged env id s H). reflexivity.
Qed.

(** ** What [getJobStatus] does, case by case *)

Lemma getJobStatus_queued (env : Env) (id : string) (s : Store) (job : JobData) :
  find (has_id id) (queue s) = Some job ->
  getJobStatus env id s =
    (Normal {| code := 200; json := JobJson job "Job is queued for processing" |}, s).
Proof.
  intros H. unfold getJobStatus, getQueuedJob, tryCatch, bind, readQueue, ret.
  rewrite H. reflexivity.
Qed.

Lemma getJobStatus_unknown (env : Env) (id : string) (s : Store) :
  find (has_id id) (queue s) = None ->
  find (has_id id) (log s) = None ->
  getJobStatus env id s =
    (Normal {| code := 404; json := ErrorJson "Job not found" |}, s).
Proof.
  intros Hq Hl.
  unfold getJobStatus, getQueuedJob, getLoggedJob, tryCatch, bind,
    readQueue, readLog, ret.
  rewrite Hq, Hl. reflexivity.
Qed.

Lemma getJobStatus_logged_as_stored (env : Env) (id : string) (s : Store) (job : JobData) :
  find (has_id id) (queue s) = None ->
  find (has_id id) (log s) = Some job ->
  status job <> Status.processing ->
  status job <> Status.completed ->
  getJobStatus env id s =
    (Normal {| code := 200; json := JobJson job "Job has been processed" |}, s).
Proof.
  intros Hq Hl Hp Hc.
  unfold getJobStatus, getQueuedJob, getLoggedJob, tryCatch, bind,
    readQueue, readLog, ret.
  rewrite Hq, Hl. cbv beta iota.
  apply status_eqb_neq in Hp. apply status_eqb_neq in Hc. rewrite Hp, Hc.
  reflexivity.
Qed.

Lemma getJobStatus_logged_rechecked (env : Env) (id : string) (s : Store) (job : JobData) :
  find (has_id id) (queue s) = None ->
  find (has_id id) (log s) = Some job ->
  status job = Status.processing \/ status job = Status.completed ->
  getJobStatus env id s =
    (if sas_configured env
     then match fst (checkBlobExists env (storageName job) s) with
          | Normal blobExists =>
              Normal {| code := 200;
                        json := JobJson (rechecked env job blobExists)
                                        "Job has been processed" |}
          | Throw _ =>
              Normal {| code := 500;
                        json := ErrorJson "Server error checking job status" |}
          end
     else Normal {| code := 500;
                    json := ErrorJson "Server error checking job status" |},
     s).
Proof.
  intros Hq Hl Hst.
  unfold getJobStatus, getQueuedJob, getLoggedJob, tryCatch, bind,
    readQueue, readLog, ret.
  rewrite Hq, Hl. cbv beta iota.
  assert (E : Status.eqb (status job) Status.processing
              || Status.eqb (status job) Status.completed = true).
  { destruct Hst as [-> | ->]; reflexivity. }
  rewrite E.
  destruct (sas_configured env) eqn:Hc.
  - rewrite (generateSasUrl_configured _ _ _ Hc).
    pose proof (checkBlobExists_store env (storageName job) s) as Hs.
    destruct (checkBlobExists env (storageName job) s) as [[b|e] s'];
      simpl in Hs; subst s'; reflexivity.
  - destruct (generateSasUrl_unconfigured env (storageName job) s Hc) as [e He].
    rewrite He. reflexivity.
Qed.

Lemma getJobStatus_store (env : Env) (id : string) (s : Store) :
  store_after (getJobStatus env id) s = s.
Proof.
  unfold store_after.
  destruct (find (has_id id) (queue s)) as [qj|] eqn:Hq.
  - rewrite (getJobStatus_queued env id s qj Hq). reflexivity.
  - destruct (find (has_id id) (log s)) as [lj|] eqn:Hl.
    + destruct (Status.eqb (status lj) Status.processing) eqn:Ep.
      * apply status_eqb_eq in Ep.
        rewrite (getJobStatus_logged_rechecked env id s lj Hq Hl); auto.
      * destruct (Status.eqb (status lj) Status.completed) eqn:Ec.
        -- apply status_eqb_eq in Ec.
           rewrite (getJobStatus_logged_rechecked env id s lj Hq Hl); auto.
        -- apply status_eqb_neq in Ep. apply status_eqb_neq in Ec.
           rewrite (getJobStatus_logged_as_stored env id s lj Hq Hl); auto.
    + rewrite (getJobStatus_unknown env id s Hq Hl). reflexivity.
Qed.

Lemma listAllJobs_eq (env : Env) (s : Store) :
  listAllJobs env s =
    (Normal {| code := 200; json := JobsJson (queue s) (log s) |}, s).
Proof. reflexivity. Qed.

(** ** Where a submitted job ends up *)

Lemma existsb_app_last {A} (p : A -> bool) (l : list A) (x : A) :
  existsb p (l ++ [x]) = existsb p l || p x.
Proof. rewrite existsb_app. simpl. rewrite orb_false_r. reflexivity. Qed.

Lemma existsb_filter_out {A} (p : A -> bool) (l : list A) :
  existsb p (filter (fun x => negb (p x)) l) = false.
Proof.
  induction l as [|x rest IH]; simpl; [reflexivity|].
  destruct (p x) eqn:E; simpl; [|rewrite E]; exact IH.
Qed.

Lemma has_id_refl (job : JobData) : has_id (jobId job) job = true.
Proof. apply String.eqb_refl. Qed.

(** When the predictor takes the request, the job is moved: it is in the
    log and no longer in the queue. *)
Lemma dispatched_job_in_log_only (env : Env) (seq : jsstring) (s : Store) :
  isValidSequence (JsString seq) = true ->
  sas_configured env = true ->
  dispatch_succeeds env seq ->
  in_queue (uuidv4 env) (store_after (submitSequence env (JsString seq)) s) = false
  /\ in_log (uuidv4 env) (store_after (submitSequence env (JsString seq)) s) = true.
Proof.
  intros Hv Hc Hd. unfold store_after.
  rewrite (submitSequence_dispatched env seq s Hv Hc Hd).
  unfold in_queue, in_log. simpl. split.
  - apply existsb_filter_out.
  - rewrite existsb_app_last.
    change (has_id (uuidv4 env) (processing_record env seq))
      with (has_id (jobId (processing_record env seq)) (processing_record env seq)).
    rewrite has_id_refl. apply orb_true_r.
Qed.

(** C1.  The claim asks that after a valid submission the job id is in
    exactly one of queue and log, also when the predictor call fails.  On
    that path the handler logs the job with status error and does not take it
    out of the queue (the other path calls [removeFromQueue]): the id is in
    both collections when the handler finishes. *)
Theorem refused_dispatch_leaves_job_in_queue_and_log
        (env : Env) (seq : jsstring) (s : Store) :
  isValidSequence (JsString seq) = true ->
  sas_configured env = true ->
  dispatch_fails env seq ->
  in_queue (uuidv4 env) (store_after (submitSequence env (JsString seq)) s) = true
  /\ in_log (uuidv4 env) (store_after (submitSequence env (JsString seq)) s) = true.
Proof.
  intros Hv Hc Hd. unfold store_after.
  rewrite (submitSequence_dispatch_failed env seq s Hv Hc Hd).
  unfold in_queue, in_log. simpl. rewrite !existsb_app_last.
  change (has_id (uuidv4 env) (queued_record env seq))
    with (has_id (jobId (queued_record env seq)) (queued_record env seq)).
  change (has_id (uuidv4 env) (error_record env seq))
    with (has_id (jobId (error_record env seq)) (error_record env seq)).
  rewrite !has_id_refl, !orb_true_r. split; reflexivity.
Qed.

Lemma sample_dispatch_refused (now : Time) (id : string) (blob : bool) (seq : jsstring) :
  dispatch_fails (sample_env now id blob false) seq.
Proof. right. right. exists connection_refused. reflexivity. Qed.

Lemma sample_dispatch_taken (now : Time) (id : string) (blob : bool) (seq : jsstring) :
  dispatch_succeeds (sample_env now id blob true) seq.
Proof. repeat split. Qed.

Lemma refused_dispatch_leaves_job_in_queue_and_log_witness :
  in_queue "job-1" store_after_refused_dispatch = true
  /\ in_log "job-1" store_after_refused_dispatch = true.
Proof.
  apply (refused_dispatch_leaves_job_in_queue_and_log
           (sample_env 1000 "job-1" false false) ten_letters empty_store).
  - reflexivity.
  - reflexivity.
  - apply sample_dispatch_refused.
Defined.

(** No handler answers with the status error from [checkResult]. *)
Lemma checkResult_never_reports_error (env : Env) (id : string) (s : Store) (r : Response) :
  response_of (checkResult env id) s = Some r ->
  response_status r <> Some Status.error /\ response_error r <> Some "Failed to send to AlphaFold VM"%string.
Proof.
  unfold response_of.
  destruct (find (has_id id) (log s)) as [job|] eqn:H.
  - destruct (getProperties env (storageName job)) as [|e] eqn:He.
    + rewrite (checkResult_blob_present env id s job H He).
      destruct (sas_configured env); simpl; intros E; injection E as <-;
        split; discriminate.
    + destruct (statusCode_is e 404) eqn:E4.
      * apply statusCode_is_iff in E4.
        rewrite (checkResult_blob_absent env id s job H); [|exists e; auto].
        simpl; intros E; injection E as <-; split; discriminate.
      * rewrite (checkResult_blob_error env id s job e H He).
        -- simpl; intros E; injection E as <-; split; discriminate.
        -- intros H404. apply statusCode_is_iff in H404. congruence.
  - rewrite (checkResult_not_logged env id s H).
    simpl; intros E; injection E as <-; split; discriminate.
Qed.

(** C4.  When the predictor call fails the handler still answers 200 with
    {jobId, storageUrl, message} and logs the job with status error and the
    message; this much of the claim holds.  The failure is then to show on a
    later status poll, and it does not: the job is still in the queue, with
    status queued, and [getJobStatus] answers from the queue first;
    [checkResult] never answers with status error either. *)
Theorem refused_dispatch_hidden_from_status_poll
        (env later : Env) (seq : jsstring) (s : Store) :
  isValidSequence (JsString seq) = true ->
  sas_configured env = true ->
  dispatch_fails env seq ->
  in_queue (uuidv4 env) s = false ->
  let s' := store_after (submitSequence env (JsString seq)) s in
  fst (submitSequence env (JsString seq) s) = Normal (submit_ok env)
  /\ In (error_record env seq) (log s')
  /\ getJobStatus later (uuidv4 env) s' =
       (Normal {| code := 200;
                  json := JobJson (queued_record env seq)
                                  "Job is queued for processing" |}, s')
  /\ (forall r, response_of (checkResult later (uuidv4 env)) s' = Some r ->
        response_status r <> Some Status.error
        /\ response_error r <> Some "Failed to send to AlphaFold VM"%string).
Proof.
  intros Hv Hc Hd Hfresh s'. subst s'. unfold store_after.
  rewrite (submitSequence_dispatch_failed env seq s Hv Hc Hd). simpl fst. simpl snd.
  split; [reflexivity|]. split; [|split].
  - simpl. apply in_or_app. right. left. reflexivity.
  - apply getJobStatus_queued. simpl.
    apply find_app_fresh; [exact Hfresh|].
    change (uuidv4 env) with (jobId (queued_record env seq)). apply has_id_refl.
  - intros r. apply checkResult_never_reports_error.
Qed.

Lemma refused_dispatch_hidden_from_status_poll_witness :
  response_status
    {| code := 200;
       json := JobJson (queued_record (sample_env 1000 "job-1" false false) ten_letters)
                       "Job is queued for processing" |}
    = Some Status.queued
  /\ getJobStatus (sample_env 61000 "job-2" false true) "job-1"
                  store_after_refused_dispatch
     = (Normal {| code := 200;
                  json := JobJson (queued_record (sample_env 1000 "job-1" false false)
                                                 ten_letters)
                                  "Job is queued for processing" |},
        store_after_refused_dispatch).
Proof.
  split; [reflexivity|].
  apply (refused_dispatch_hidden_from_status_poll
           (sample_env 1000 "job-1" false false)
           (sample_env 61000 "job-2" false true) ten_letters empty_store).
  - reflexivity.
  - reflexivity.
  - apply sample_dispatch_refused.
  - reflexivity.
Defined.

(** ** [checkResult] *)

Lemma checkResult_settled_job (env : Env) (id : string) (s : Store) (job : JobData) :
  find (has_id id) (log s) = Some job ->
  status job <> Status.processing ->
  store_after (checkResult env id) s = s.
Proof.
  intros H Hst.
  destruct (checkResult_store env id s) as [E | [job' [H' [Hp _]]]].
  - exact E.
  - rewrite H in H'. injection H' as <-. contradiction.
Qed.

Lemma checkResult_reads_log_only (env : Env) (id : string) (s : Store) (q : list JobData) :
  checkResult env id {| queue := q; log := log s |} =
    (fst (checkResult env id s),
     {| queue := q; log := log (snd (checkResult env id s)) |}).
Proof.
  destruct (find (has_id id) (log s)) as [job|] eqn:H.
  - destruct (getProperties env (storageName job)) as [|e] eqn:He.
    + rewrite (checkResult_blob_present env id s job H He).
      rewrite (checkResult_blob_present env id {| queue := q; log := log s |} job H He).
      simpl. destruct (Status.eqb (status job) Status.processing); reflexivity.
    + destruct (statusCode_is e 404) eqn:E4.
      * apply statusCode_is_iff in E4.
        rewrite (checkResult_blob_absent env id s job H); [|exists e; auto].
        rewrite (checkResult_blob_absent env id {| queue := q; log := log s |} job H);
          [|exists e; auto].
        reflexivity.
      * assert (Hn : err_statusCode e <> Some 404%Z).
        { intros H404. apply statusCode_is_iff in H404. congruence. }
        rewrite (checkResult_blob_error env id s job e H He Hn).
        rewrite (checkResult_blob_error env id {| queue := q; log := log s |} job e H He Hn).
        reflexivity.
  - rewrite (checkResult_not_logged env id s H).
    rewrite (checkResult_not_logged env id {| queue := q; log := log s |} H).
    reflexivity.
Qed.

(** C2.  [checkResult] reads the log only and answers 404 for an id that is
    not logged.  For a logged job whose blob exists it answers completed with
    a storage URL; if the stored status is processing it stores completed
    and [completedAt], and no later call writes to the store again, so
    [completedAt] is set on that first transition only; a job stored with
    another status is left as it is.  If the blob does not exist it answers
    processing and writes nothing. *)
Theorem checkResult_completes_once (env : Env) (id : string) (s : Store) :
  (forall q, checkResult env id {| queue := q; log := log s |} =
               (fst (checkResult env id s),
                {| queue := q; log := log (snd (checkResult env id s)) |}))
  /\ (find (has_id id) (log s) = None ->
        checkResult env id s =
          (Normal {| code := 404; json := ErrorJson "Job not found" |}, s))
  /\ (forall job,
        find (has_id id) (log s) = Some job ->
        blob_present env job ->
        (sas_configured env = true ->
           fst (checkResult env id s) =
             Normal {| code := 200;
                       json := ResultJson id Status.completed
                                 (Some (fresh_url env (storageName job)))
                                 "Result is available" |})
        /\ (status job = Status.processing ->
              let s1 := store_after (checkResult env id) s in
              queue s1 = queue s
              /\ find (has_id id) (log s1) =
                   Some (spread job (completion (Date_now env)))
              /\ status (spread job (completion (Date_now env))) = Status.completed
              /\ completedAt (spread job (completion (Date_now env)))
                   = Some (Date_now env)
              /\ (forall i other, nth_error (log s) i = Some other ->
                    nth_error (log s1) i = Some other
                    \/ (other = job
                        /\ nth_error (log s1) i
                             = Some (spread job (completion (Date_now env)))))
              /\ (forall later, store_after (checkResult later id) s1 = s1))
        /\ (status job <> Status.processing ->
              store_after (checkResult env id) s = s))
  /\ (forall job,
        find (has_id id) (log s) = Some job ->
        blob_absent env job ->
        checkResult env id s =
          (Normal {| code := 200;
                     json := ResultJson id Status.processing None
                               "Result is not available yet" |}, s)).
Proof.
  split; [|split; [|split]].
  - apply checkResult_reads_log_only.
  - apply checkResult_not_logged.
  - intros job H Hp. split; [|split].
    + intros Hc. rewrite (checkResult_blob_present env id s job H Hp), Hc. reflexivity.
    + intros Hst s1.
      assert (Hs1 : s1 = {| queue := queue s;
                            log := update_first (has_id id)
                                     (fun j => spread j (completion (Date_now env)))
                                     (log s) |}).
      { subst s1. unfold store_after.
        rewrite (checkResult_blob_present env id s job H Hp), Hst. reflexivity. }
      rewrite Hs1. clear Hs1 s1. simpl.
      assert (Hid : has_id id (spread job (completion (Date_now env))) = true).
      { rewrite has_id_spread; [|reflexivity]. apply (find_some_holds _ _ _ H). }
      assert (Hf : find (has_id id)
                     (update_first (has_id id)
                        (fun j => spread j (completion (Date_now env))) (log s))
                   = Some (spread job (completion (Date_now env)))).
      { apply (find_update_first (has_id id)
                 (fun j => spread j (completion (Date_now env))) (log s) job H Hid). }
      repeat split.
      * exact Hf.
      * intros i other Hn.
        destruct (update_first_nth (has_id id)
                    (fun j => spread j (completion (Date_now env))) (log s) i other Hn)
          as [Hsame | [Hupd [_ Hfo]]].
        -- left. exact Hsame.
        -- right. rewrite H in Hfo. injection Hfo as ->. auto.
      * intros later.
        apply (checkResult_settled_job later id _
                 (spread job (completion (Date_now env)))).
        -- exact Hf.
        -- discriminate.
    + intros Hst. apply (checkResult_settled_job env id s job H Hst).
  - intros job H Ha. apply (checkResult_blob_absent env id s job H Ha).
Qed.

Lemma checkResult_completes_once_witness :
  find (has_id "job-1")
       (log (store_after (checkResult (sample_env 5000 "job-2" true true) "job-1")
                         store_after_dispatch))
    = Some (spread (processing_record (sample_env 1000 "job-1" false true) ten_letters)
                   (completion 5000))
  /\ store_after (checkResult (sample_env 9000 "job-3" true true) "job-1")
       (store_after (checkResult (sample_env 5000 "job-2" true true) "job-1")
                    store_after_dispatch)
     = store_after (checkResult (sample_env 5000 "job-2" true true) "job-1")
                   store_after_dispatch.
Proof.
  destruct (checkResult_completes_once
              (sample_env 5000 "job-2" true true) "job-1" store_after_dispatch)
    as [_ [_ [H _]]].
  destruct (H (processing_record (sample_env 1000 "job-1" false true) ten_letters)
              eq_refl eq_refl) as [_ [H1 _]].
  destruct (H1 eq_refl) as [_ [Hf [_ [_ [_ Hl]]]]].
  split; [exact Hf | apply Hl].
Defined.

(** ** [getJobStatus] *)

(** C3.  [getJobStatus] answers from the queue first, with the queued
    record; otherwise from the log, where for a record with status
    processing or completed it generates the storage URL again, checks the
    blob again and reports completed if and only if the blob exists,
    processing otherwise; an id in neither collection gets 404 with
    {error: "Job not found"}.  It never writes to the store. *)
Theorem getJobStatus_queue_then_log (env : Env) (id : string) (s : Store) :
  (forall job,
     find (has_id id) (queue s) = Some job ->
     getJobStatus env id s =
       (Normal {| code := 200;
                  json := JobJson job "Job is queued for processing" |}, s))
  /\ (forall job,
        find (has_id id) (queue s) = None ->
        find (has_id id) (log s) = Some job ->
        status job = Status.processing \/ status job = Status.completed ->
        sas_configured env = true ->
        (blob_present env job ->
           getJobStatus env id s =
             (Normal {| code := 200;
                        json := JobJson (rechecked env job true)
                                        "Job has been processed" |}, s))
        /\ (blob_absent env job ->
              getJobStatus env id s =
                (Normal {| code := 200;
                           json := JobJson (rechecked env job false)
                                           "Job has been processed" |}, s))
        /\ (forall r, response_of (getJobStatus env id) s = Some r ->
              code r = 200 ->
              response_storageUrl r = Some (fresh_url env (storageName job))
              /\ (response_status r = Some Status.completed <-> blob_present env job)
              /\ (response_status r = Some Status.processing <-> ~ blob_present env job)))
  /\ (find (has_id id) (queue s) = None ->
      find (has_id id) (log s) = None ->
      getJobStatus env id s =
        (Normal {| code := 404; json := ErrorJson "Job not found" |}, s))
  /\ store_after (getJobStatus env id) s = s.
Proof.
  split; [|split; [|split]].
  - intros job H. apply (getJobStatus_queued env id s job H).
  - intros job Hq Hl Hst Hc.
    pose proof (getJobStatus_logged_rechecked env id s job Hq Hl Hst) as E.
    rewrite Hc in E. split; [|split].
    + intros Hp. rewrite E, (checkBlobExists_resolved _ _ _ Hp). reflexivity.
    + intros [e [He H404]]. rewrite E, (checkBlobExists_rejected _ _ _ _ He).
      apply statusCode_is_iff in H404. rewrite H404. reflexivity.
    + intros r. unfold response_of. rewrite E. simpl fst. unfold blob_present.
      destruct (getProperties env (storageName job)) as [|e] eqn:He.
      * rewrite (checkBlobExists_resolved _ _ _ He). simpl.
        intros Hr _. injection Hr as <-. simpl.
        split; [reflexivity|]. split; split; intros Hx;
          first [reflexivity | discriminate Hx | contradiction Hx; reflexivity].
      * rewrite (checkBlobExists_rejected _ _ _ _ He).
        destruct (statusCode_is e 404); simpl; intros Hr H200;
          injection Hr as <-; simpl in *; [|discriminate H200].
        split; [reflexivity|]. split; split; intros Hx;
          first [reflexivity | discriminate Hx | intros Hy; discriminate Hy].
  - apply getJobStatus_unknown.
  - apply getJobStatus_store.
Qed.

Lemma getJobStatus_queue_then_log_witness :
  getJobStatus (sample_env 5000 "job-2" true true) "job-1" store_after_dispatch
    = (Normal {| code := 200;
                 json := JobJson
                           (rechecked (sample_env 5000 "job-2" true true)
                              (processing_record (sample_env 1000 "job-1" false true)
                                                 ten_letters) true)
                           "Job has been processed" |},
       store_after_dispatch)
  /\ getJobStatus (sample_env 5000 "job-2" true true) "job-0" store_after_dispatch
    = (Normal {| code := 404; json := ErrorJson "Job not found" |},
       store_after_dispatch).
Proof.
  destruct (getJobStatus_queue_then_log
              (sample_env 5000 "job-2" true true) "job-1" store_after_dispatch)
    as [_ [H _]].
  destruct (H (processing_record (sample_env 1000 "job-1" false true) ten_letters)
              eq_refl eq_refl (or_introl eq_refl) eq_refl) as [Hp _].
  split.
  - apply Hp. reflexivity.
  - apply (getJobStatus_queue_then_log
             (sample_env 5000 "job-2" true true) "job-0" store_after_dispatch);
      reflexivity.
Defined.

(** ** Validation at the submit endpoint *)

Lemma in_alphabet_passes (c : code_unit) :
  In c validAminoAcids -> includes validAminoAcids (toUpperCase c) = true.
Proof.
  intros H. simpl in H.
  repeat (destruct H as [H | H]; [subst c; reflexivity|]).
  destruct H.
Qed.

Lemma letters_valid (seq : jsstring) :
  seq <> [] ->
  (forall c, In c seq -> In c validAminoAcids) ->
  isValidSequence (JsString seq) = true.
Proof.
  intros Hne Hall. rewrite isValidSequence_string.
  apply andb_true_iff. split.
  - destruct seq; [contradiction | reflexivity].
  - apply forallb_forall. intros c Hc. apply in_alphabet_passes, Hall, Hc.
Qed.

Lemma no_letter_invalid (seq : jsstring) :
  (forall c, In c seq -> forall u, In u (toUpperCase c) -> ~ In u validAminoAcids) ->
  isValidSequence (JsString seq) = false.
Proof.
  intros H. rewrite isValidSequence_string.
  destruct seq as [|c rest]; [reflexivity|].
  cbn [negb andb forallb].
  destruct (includes validAminoAcids (toUpperCase c)) eqn:E; [|reflexivity].
  exfalso.
  pose proof (toUpperCase_nonempty c) as Hne.
  destruct (toUpperCase c) as [|u form] eqn:Hu; [contradiction|].
  apply (H c (or_introl eq_refl) u).
  - rewrite Hu. left; reflexivity.
  - apply (includes_In _ _ E). left; reflexivity.
Qed.

(** A request answered with 400 has written nothing; a valid one is never
    answered with 400. *)
Lemma submitSequence_400_store (env : Env) (v : JsValue) (s : Store) (r : Response) :
  response_of (submitSequence env v) s = Some r ->
  code r = 400 ->
  isValidSequence v = false /\ store_after (submitSequence env v) s = s.
Proof.
  unfold response_of, store_after. intros Hr H400.
  destruct (isValidSequence v) eqn:Hv.
  - exfalso.
    destruct (isValidSequence_truthy _ Hv) as [_ Hs]. rewrite Hs in Hr, Hv.
    destruct (sas_configured env) eqn:Hc.
    + destruct (dispatch_cases env (as_string v)) as [Hd | Hd].
      * rewrite (submitSequence_dispatched env _ s Hv Hc Hd) in Hr.
        injection Hr as <-. discriminate H400.
      * rewrite (submitSequence_dispatch_failed env _ s Hv Hc Hd) in Hr.
        injection Hr as <-. discriminate H400.
    + rewrite (submitSequence_unconfigured env _ s Hv Hc) in Hr.
      injection Hr as <-. discriminate H400.
  - destruct (submitSequence_rejected env v s Hv) as [msg E].
    rewrite E. auto.
Qed.

(** C5, as the claim states it: every character of "acd" is outside the
    set ACDEFGHIKLMNPQRSTVWY, and the submission is accepted and logged. *)
Lemma lowercase_letters_outside_set_accepted :
  (forall c, In c (js "acd") -> ~ In c validAminoAcids)
  /\ submitSequence (sample_env 1000 "job-1" false true) (JsString (js "acd"))
                    empty_store
     = (Normal (submit_ok (sample_env 1000 "job-1" false true)),
        {| queue := [];
           log := [processing_record (sample_env 1000 "job-1" false true)
                                     (js "acd")] |}).
Proof.
  split.
  - intros c Hc Hv. simpl in Hc.
    repeat (destruct Hc as [Hc | Hc];
            [subst c; simpl in Hv;
             repeat (destruct Hv as [Hv | Hv]; [discriminate Hv|]); destruct Hv|]).
    destruct Hc.
  - reflexivity.
Qed.

(** C5, amended.  A sequence in which no character has a letter of
    ACDEFGHIKLMNPQRSTVWY in its upper-case form is rejected with a 400
    validation error, and nothing is written to the queue or the log. *)
Theorem sequence_without_letters_rejected (env : Env) (seq : jsstring) (s : Store) :
  (forall c, In c seq -> forall u, In u (toUpperCase c) -> ~ In u validAminoAcids) ->
  exists msg,
    submitSequence env (JsString seq) s =
      (Normal {| code := 400; json := ErrorJson msg |}, s)
    /\ (msg = "Sequence is required"%string
        \/ msg = "Invalid protein sequence. Use standard amino acid codes (ACDEFGHIKLMNPQRSTVWY)."%string).
Proof.
  intros H. pose proof (no_letter_invalid seq H) as Hv.
  unfold submitSequence, tryCatch, respond, ret.
  destruct (truthy (JsString seq)); cbn [negb].
  - rewrite Hv. cbn [negb]. eexists. split; [reflexivity | right; reflexivity].
  - eexists. split; [reflexivity | left; reflexivity].
Qed.

Lemma sequence_without_letters_rejected_witness :
  exists msg,
    submitSequence (sample_env 1000 "job-1" false true) (JsString (js "B2-x!"))
                   store_after_dispatch
      = (Normal {| code := 400; json := ErrorJson msg |}, store_after_dispatch)
    /\ (msg = "Sequence is required"%string
        \/ msg = "Invalid protein sequence. Use standard amino acid codes (ACDEFGHIKLMNPQRSTVWY)."%string).
Proof.
  apply (sequence_without_letters_rejected
           (sample_env 1000 "job-1" false true) (js "B2-x!") store_after_dispatch).
  intros c Hc u Hu Hv. simpl in Hc.
  repeat (destruct Hc as [Hc | Hc];
          [subst c; simpl in Hu;
           repeat (destruct Hu as [Hu | Hu];
                   [subst u; simpl in Hv;
                    repeat (destruct Hv as [Hv | Hv]; [discriminate Hv|]);
                    destruct Hv|]);
           destruct Hu|]).
  destruct Hc.
Defined.

(** C6, as the claim states it: "SHORT" is answered 400, but with the
    invalid-sequence message, which says nothing of length (the letter O is
    not in the alphabet); the four-letter sequence "ACDE" is not rejected
    at all: it is answered 200 and logged; and so is a sequence of 1001
    letters A, one more than the form of the client lets through. *)
Lemma short_sequences_not_rejected_for_length :
  submitSequence (sample_env 1000 "job-1" false true) (JsString (js "SHORT"))
                 empty_store
    = (Normal {| code := 400;
                 json := ErrorJson
                   "Invalid protein sequence. Use standard amino acid codes (ACDEFGHIKLMNPQRSTVWY)." |},
       empty_store)
  /\ includes
       (js "Invalid protein sequence. Use standard amino acid codes (ACDEFGHIKLMNPQRSTVWY).")
       (js "short") = false
  /\ includes validAminoAcids (toUpperCase (N_of_ascii "O")) = false
  /\ length (js "ACDE") = 4
  /\ submitSequence (sample_env 1000 "job-1" false true) (JsString (js "ACDE"))
                    empty_store
     = (Normal (submit_ok (sample_env 1000 "job-1" false true)),
        {| queue := [];
           log := [processing_record (sample_env 1000 "job-1" false true)
                                     (js "ACDE")] |})
  /\ length (repeat 65%N 1001) = 1001
  /\ submitSequence (sample_env 1000 "job-1" false true)
                    (JsString (repeat 65%N 1001)) empty_store
     = (Normal (submit_ok (sample_env 1000 "job-1" false true)),
        {| queue := [];
           log := [processing_record (sample_env 1000 "job-1" false true)
                                     (repeat 65%N 1001)] |}).
Proof. repeat split. Qed.

(** C6, amended.  "SHORT" gets a 400 response with the invalid-sequence
    message; the submit handler rejects no sequence for its length: with
    the storage credentials configured, every non-empty sequence of
    amino-acid letters that it receives is answered 200 and logged; and a
    request the handler answers with 400 has written nothing to the store.
    (What the handler receives is what [bodyParser.json()] has let through;
    that limit on the size of the request body stands in front of the
    handler and is not part of this statement.) *)
Theorem server_validation_ignores_length (env : Env) (s : Store) :
  submitSequence env (JsString (js "SHORT")) s
    = (Normal {| code := 400;
                 json := ErrorJson
                   "Invalid protein sequence. Use standard amino acid codes (ACDEFGHIKLMNPQRSTVWY)." |},
       s)
  /\ (forall seq,
        seq <> [] ->
        (forall c, In c seq -> In c validAminoAcids) ->
        sas_configured env = true ->
        fst (submitSequence env (JsString seq) s) = Normal (submit_ok env)
        /\ in_log (uuidv4 env) (store_after (submitSequence env (JsString seq)) s) = true)
  /\ (forall v r,
        response_of (submitSequence env v) s = Some r ->
        code r = 400 ->
        store_after (submitSequence env v) s = s).
Proof.
  split; [reflexivity|]. split.
  - intros seq Hne Hall Hc.
    pose proof (letters_valid seq Hne Hall) as Hv.
    unfold store_after.
    destruct (dispatch_cases env seq) as [Hd | Hd].
    + rewrite (submitSequence_dispatched env seq s Hv Hc Hd). split; [reflexivity|].
      unfold in_log. simpl. rewrite existsb_app_last.
      change (uuidv4 env) with (jobId (processing_record env seq)) at 2.
      rewrite has_id_refl. apply orb_true_r.
    + rewrite (submitSequence_dispatch_failed env seq s Hv Hc Hd). split; [reflexivity|].
      unfold in_log. simpl. rewrite existsb_app_last.
      change (uuidv4 env) with (jobId (error_record env seq)) at 2.
      rewrite has_id_refl. apply orb_true_r.
  - intros v r Hr H400. apply (submitSequence_400_store env v s r Hr H400).
Qed.

Lemma server_validation_ignores_length_witness :
  fst (submitSequence (sample_env 1000 "job-1" false true) (JsString [65%N])
                      empty_store)
    = Normal (submit_ok (sample_env 1000 "job-1" false true))
  /\ store_after (submitSequence (sample_env 1000 "job-1" false true)
                                 (JsString (js "SHORT")))
                 store_after_dispatch
     = store_after_dispatch.
Proof.
  destruct (server_validation_ignores_length
              (sample_env 1000 "job-1" false true) empty_store) as [_ [Hlen _]].
  destruct (server_validation_ignores_length
              (sample_env 1000 "job-1" false true) store_after_dispatch) as [_ [_ H400]].
  split.
  - apply (Hlen [65%N]).
    + discriminate.
    + intros c [<- | []]. left. reflexivity.
    + reflexivity.
  - apply (H400 (JsString (js "SHORT"))
                {| code := 400;
                   json := ErrorJson
                     "Invalid protein sequence. Use standard amino acid codes (ACDEFGHIKLMNPQRSTVWY)." |});
      reflexivity.
Defined.

(** ** Stored and reported status *)

Lemma submitSequence_store (env : Env) (v : JsValue) (s : Store) :
  store_after (submitSequence env v) s = s
  \/ (store_after (submitSequence env v) s =
        {| queue := queue s ++ [queued_record env (as_string v)];
           log := log s ++ [error_record env (as_string v)] |})
  \/ (store_after (submitSequence env v) s =
        {| queue := filter (fun job => negb (has_id (uuidv4 env) job))
                           (queue s ++ [queued_record env (as_string v)]);
           log := log s ++ [processing_record env (as_string v)] |}).
Proof.
  unfold store_after.
  destruct (isValidSequence v) eqn:Hv.
  - destruct (isValidSequence_truthy _ Hv) as [_ Hs]. rewrite Hs in Hv. rewrite Hs.
    simpl as_string.
    destruct (sas_configured env) eqn:Hc.
    + destruct (dispatch_cases env (as_string v)) as [Hd | Hd].
      * rewrite (submitSequence_dispatched env _ s Hv Hc Hd). auto.
      * rewrite (submitSequence_dispatch_failed env _ s Hv Hc Hd). auto.
    + rewrite (submitSequence_unconfigured env _ s Hv Hc). auto.
  - destruct (submitSequence_rejected env v s Hv) as [msg E]. rewrite E. auto.
Qed.

Lemma filter_In_sub {A} (p : A -> bool) (l : list A) (x : A) :
  In x (filter p l) -> In x l.
Proof. intros H. apply filter_In in H. apply H. Qed.

(** Every handler keeps the logged records in place, and rewrites one
    only to move it from processing to completed. *)
Lemma route_log_records (env : Env) (req : Request) (s : Store) (i : nat) (job : JobData) :
  nth_error (log s) i = Some job ->
  nth_error (log (store_after (route env req) s)) i = Some job
  \/ (status job = Status.processing
      /\ nth_error (log (store_after (route env req) s)) i
           = Some (spread job (completion (Date_now env)))).
Proof.
  intros Hn. destruct req as [v | id | id |]; simpl route.
  - assert (Happ : forall extra, nth_error (log s ++ extra) i = Some job).
    { intros extra. rewrite nth_error_app1; [exact Hn|].
      apply nth_error_Some. congruence. }
    destruct (submitSequence_store env v s) as [E | [E | E]]; rewrite E; simpl; auto.
  - rewrite getJobStatus_store. auto.
  - destruct (checkResult_store env id s) as [E | [job' [Hf [Hst [_ E]]]]]; rewrite E.
    + auto.
    + simpl.
      destruct (update_first_nth (has_id id)
                  (fun j => spread j (completion (Date_now env))) (log s) i job Hn)
        as [Hsame | [Hupd [_ Hfo]]].
      * auto.
      * right. rewrite Hf in Hfo. injection Hfo as ->. auto.
  - unfold store_after. rewrite listAllJobs_eq. auto.
Qed.

(** C7, as the claim states it: the job of [store_after_refused_dispatch]
    is logged with status error, and [checkResult] reports it as processing
    while its blob is missing and as completed once a blob is there. *)
Lemma checkResult_reports_other_status_for_error_job :
  (exists job,
     find (has_id "job-1") (log store_after_refused_dispatch) = Some job
     /\ status job = Status.error)
  /\ fst (checkResult (sample_env 61000 "job-2" false true) "job-1"
                      store_after_refused_dispatch)
     = Normal {| code := 200;
                 json := ResultJson "job-1" Status.processing None
                           "Result is not available yet" |}
  /\ fst (checkResult (sample_env 61000 "job-2" true true) "job-1"
                      store_after_refused_dispatch)
     = Normal {| code := 200;
                 json := ResultJson "job-1" Status.completed
                           (Some (fresh_url (sample_env 61000 "job-2" true true)
                                            (storageName_of "job-1")))
                           "Result is available" |}.
Proof.
  split; [|split]; try reflexivity.
  eexists. split; reflexivity.
Qed.

(** C7, amended.  The stored status only moves forward: a handler leaves
    each logged record as it is or moves it from processing to completed;
    records enter the queue as queued and the log as processing or error;
    a logged record with status error is never rewritten, and
    [getJobStatus], when it answers from the log, reports it with status
    error.  [checkResult] reports completed or processing by the existence
    of the blob alone, whatever status is stored. *)
Theorem stored_status_moves_forward_only (env : Env) (req : Request) (s : Store) :
  (forall i job,
     nth_error (log s) i = Some job ->
     nth_error (log (store_after (route env req) s)) i = Some job
     \/ (status job = Status.processing
         /\ exists job',
              nth_error (log (store_after (route env req) s)) i = Some job'
              /\ jobId job' = jobId job
              /\ status job' = Status.completed))
  /\ (forall i job,
        nth_error (log s) i = Some job ->
        status job = Status.error ->
        nth_error (log (store_after (route env req) s)) i = Some job)
  /\ (forall i job,
        nth_error (log (store_after (route env req) s)) i = Some job ->
        length (log s) <= i ->
        status job = Status.processing \/ status job = Status.error)
  /\ (forall job,
        In job (queue (store_after (route env req) s)) ->
        In job (queue s) \/ status job = Status.queued)
  /\ (forall id job,
        find (has_id id) (queue s) = None ->
        find (has_id id) (log s) = Some job ->
        status job = Status.error ->
        getJobStatus env id s =
          (Normal {| code := 200; json := JobJson job "Job has been processed" |}, s))
  /\ (forall id job r,
        find (has_id id) (log s) = Some job ->
        response_of (checkResult env id) s = Some r ->
        code r = 200 ->
        (blob_present env job -> response_status r = Some Status.completed)
        /\ (blob_absent env job -> response_status r = Some Status.processing)).
Proof.
  split; [|split; [|split; [|split; [|split]]]].
  - intros i job Hn.
    destruct (route_log_records env req s i job Hn) as [H | [Hst H]].
    + left. exact H.
    + right. split; [exact Hst|]. eexists. split; [exact H|]. split; reflexivity.
  - intros i job Hn Hst.
    destruct (route_log_records env req s i job Hn) as [H | [Hp _]].
    + exact H.
    + congruence.
  - intros i job Hn Hlen.
    assert (Hnone : nth_error (log s) i = None) by (apply nth_error_None; exact Hlen).
    destruct req as [v | id | id |]; simpl route in Hn.
    + destruct (submitSequence_store env v s) as [E | [E | E]];
        rewrite E in Hn; simpl in Hn.
      * congruence.
      * rewrite nth_error_app2 in Hn by exact Hlen.
        destruct (i - length (log s)) as [|k]; simpl in Hn.
        -- injection Hn as <-. right. reflexivity.
        -- destruct k; discriminate Hn.
      * rewrite nth_error_app2 in Hn by exact Hlen.
        destruct (i - length (log s)) as [|k]; simpl in Hn.
        -- injection Hn as <-. left. reflexivity.
        -- destruct k; discriminate Hn.
    + rewrite getJobStatus_store in Hn. congruence.
    + destruct (checkResult_store env id s) as [E | [job' [Hf [Hst [_ E]]]]];
        rewrite E in Hn.
      * congruence.
      * simpl in Hn. exfalso.
        assert (Hlen' : length (update_first (has_id id)
                          (fun j => spread j (completion (Date_now env))) (log s))
                        = length (log s)).
        { clear. induction (log s) as [|x rest IH]; simpl; [reflexivity|].
          destruct (has_id id x); simpl; congruence. }
        assert (Hsome : nth_error (update_first (has_id id)
                          (fun j => spread j (completion (Date_now env))) (log s)) i
                        <> None) by congruence.
        apply nth_error_Some in Hsome. lia.
    + unfold store_after in Hn. rewrite listAllJobs_eq in Hn. simpl in Hn. congruence.
  - intros job Hin. destruct req as [v | id | id |]; simpl route in Hin.
    + destruct (submitSequence_store env v s) as [E | [E | E]];
        rewrite E in Hin; simpl in Hin.
      * auto.
      * apply in_app_or in Hin. destruct Hin as [Hin | [<- | []]]; auto.
      * apply filter_In_sub in Hin.
        apply in_app_or in Hin. destruct Hin as [Hin | [<- | []]]; auto.
    + rewrite getJobStatus_store in Hin. auto.
    + destruct (checkResult_store env id s) as [E | [job' [_ [_ [_ E]]]]];
        rewrite E in Hin; auto.
    + unfold store_after in Hin. rewrite listAllJobs_eq in Hin. auto.
  - intros id job Hq Hl Hst.
    apply (getJobStatus_logged_as_stored env id s job Hq Hl); congruence.
  - intros id job r Hl Hr H200. unfold response_of in Hr. split.
    + intros Hp. rewrite (checkResult_blob_present env id s job Hl Hp) in Hr.
      destruct (sas_configured env); simpl in Hr; injection Hr as <-.
      * reflexivity.
      * discriminate H200.
    + intros Ha. rewrite (checkResult_blob_absent env id s job Hl Ha) in Hr.
      simpl in Hr. injection Hr as <-. reflexivity.
Qed.

Lemma stored_status_moves_forward_only_witness :
  nth_error
    (log (store_after (route (sample_env 61000 "job-2" true true)
                             (GET_check_result "job-1"))
                      store_after_refused_dispatch)) 0
  = Some (error_record (sample_env 1000 "job-1" false false) ten_letters).
Proof.
  apply (proj1 (proj2 (stored_status_moves_forward_only
                         (sample_env 61000 "job-2" true true)
                         (GET_check_result "job-1")
                         store_after_refused_dispatch))
               0 (error_record (sample_env 1000 "job-1" false false) ten_letters));
    reflexivity.
Defined.

(** ** The storage URL in responses *)

(** C8, as the claim states it: two days after the submission of
    [store_after_refused_dispatch], the job is answered from the queue with
    the URL stored at submission, which is not the one generated at the
    time of the request and has expired. *)
Lemma queued_job_answered_with_stored_url :
  exists r u,
    response_of (getJobStatus (sample_env 172801000 "job-2" false true) "job-1")
                store_after_refused_dispatch = Some r
    /\ response_storageUrl r = Some u
    /\ u = fresh_url (sample_env 1000 "job-1" false false) (storageName_of "job-1")
    /\ u <> fresh_url (sample_env 172801000 "job-2" false true) (storageName_of "job-1")
    /\ (sas_expiresOn u < Date_now (sample_env 172801000 "job-2" false true))%N.
Proof.
  eexists. eexists. split; [reflexivity|]. split; [reflexivity|].
  split; [reflexivity|]. split; [discriminate | reflexivity].
Qed.

(** C8, amended.  The storage URL of a response is generated during the
    request in the submit response, in the response of [checkResult], and
    in the response of [getJobStatus] for a logged job with status
    processing or completed.  For a job answered from the queue, and for a
    logged job with any other status, [getJobStatus] sends the record as
    stored, with the URL written at submission. *)
Theorem storage_url_fresh_where_regenerated
        (env : Env) (req : Request) (s : Store) (r : Response) (u : SasUrl) :
  response_of (route env req) s = Some r ->
  response_storageUrl r = Some u ->
  match req with
  | POST_submit_sequence _ =>
      u = fresh_url env (storageName_of (uuidv4 env))
  | GET_check_result id =>
      exists job, find (has_id id) (log s) = Some job
                  /\ u = fresh_url env (storageName job)
  | GET_job_status id =>
      (exists job, find (has_id id) (queue s) = Some job
                   /\ storageUrl job = Some u)
      \/ (find (has_id id) (queue s) = None
          /\ exists job,
               find (has_id id) (log s) = Some job
               /\ ((status job = Status.processing \/ status job = Status.completed)
                   /\ u = fresh_url env (storageName job)
                   \/ (status job <> Status.processing
                       /\ status job <> Status.completed
                       /\ storageUrl job = Some u)))
  | GET_admin_jobs => False
  end.
Proof.
  unfold response_of. destruct req as [v | id | id |]; simpl route; intros Hr Hu.
  - destruct (isValidSequence v) eqn:Hv.
    + destruct (isValidSequence_truthy _ Hv) as [_ Hs]. rewrite Hs in Hv, Hr.
      destruct (sas_configured env) eqn:Hc.
      * destruct (dispatch_cases env (as_string v)) as [Hd | Hd].
        -- rewrite (submitSequence_dispatched env _ s Hv Hc Hd) in Hr.
           injection Hr as <-. cbv [response_storageUrl submit_ok json] in Hu.
           congruence.
        -- rewrite (submitSequence_dispatch_failed env _ s Hv Hc Hd) in Hr.
           injection Hr as <-. cbv [response_storageUrl submit_ok json] in Hu.
           congruence.
      * rewrite (submitSequence_unconfigured env _ s Hv Hc) in Hr.
        injection Hr as <-. discriminate Hu.
    + destruct (submitSequence_rejected env v s Hv) as [msg E]. rewrite E in Hr.
      injection Hr as <-. discriminate Hu.
  - destruct (find (has_id id) (queue s)) as [qj|] eqn:Hq.
    + rewrite (getJobStatus_queued env id s qj Hq) in Hr. injection Hr as <-.
      left. exists qj. auto.
    + right. split; [reflexivity|].
      destruct (find (has_id id) (log s)) as [lj|] eqn:Hl.
      * exists lj. split; [reflexivity|].
        destruct (Status.eqb (status lj) Status.processing
                  || Status.eqb (status lj) Status.completed) eqn:E.
        -- left.
           assert (Hst : status lj = Status.processing \/ status lj = Status.completed).
           { apply orb_true_iff in E. destruct E as [E | E];
               apply status_eqb_eq in E; auto. }
           split; [exact Hst|].
           rewrite (getJobStatus_logged_rechecked env id s lj Hq Hl Hst) in Hr.
           destruct (sas_configured env);
             [|simpl in Hr; injection Hr as <-; discriminate Hu].
           simpl fst in Hr.
           destruct (fst (checkBlobExists env (storageName lj) s)) as [b | e];
             injection Hr as <-;
             cbv [response_storageUrl json rechecked storageUrl] in Hu; congruence.
        -- right. apply orb_false_iff in E. destruct E as [Ep Ec].
           apply status_eqb_neq in Ep. apply status_eqb_neq in Ec.
           rewrite (getJobStatus_logged_as_stored env id s lj Hq Hl Ep Ec) in Hr.
           injection Hr as <-. auto.
      * rewrite (getJobStatus_unknown env id s Hq Hl) in Hr.
        injection Hr as <-. discriminate Hu.
  - destruct (find (has_id id) (log s)) as [job|] eqn:H.
    + exists job. split; [reflexivity|].
      destruct (getProperties env (storageName job)) as [|e] eqn:He.
      * rewrite (checkResult_blob_present env id s job H He) in Hr.
        destruct (sas_configured env); simpl in Hr; injection Hr as <-;
          cbv [response_storageUrl json] in Hu; congruence.
      * destruct (statusCode_is e 404) eqn:E4.
        -- apply statusCode_is_iff in E4.
           rewrite (checkResult_blob_absent env id s job H) in Hr; [|exists e; auto].
           injection Hr as <-. discriminate Hu.
        -- rewrite (checkResult_blob_error env id s job e H He) in Hr.
           ++ injection Hr as <-. discriminate Hu.
           ++ intros H404. apply statusCode_is_iff in H404. congruence.
    + rewrite (checkResult_not_logged env id s H) in Hr.
      injection Hr as <-. discriminate Hu.
  - rewrite listAllJobs_eq in Hr. injection Hr as <-. discriminate Hu.
Qed.

Lemma storage_url_fresh_where_regenerated_witness :
  exists job,
    find (has_id "job-1") (log store_after_dispatch) = Some job
    /\ fresh_url (sample_env 172801000 "job-2" true true) (storageName_of "job-1")
       = fresh_url (sample_env 172801000 "job-2" true true) (storageName job).
Proof.
  apply (storage_url_fresh_where_regenerated
           (sample_env 172801000 "job-2" true true)
           (GET_check_result "job-1") store_after_dispatch
           {| code := 200;
              json := ResultJson "job-1" Status.completed
                        (Some (fresh_url (sample_env 172801000 "job-2" true true)
                                         (storageName_of "job-1")))
                        "Result is available" |}
           (fresh_url (sample_env 172801000 "job-2" true true)
                      (storageName_of "job-1")));
    reflexivity.
Defined.

(** * Further properties of the server *)

(** ** services/queueService: writing and reading back *)

Lemma find_app_last {A} (p : A -> bool) (l : list A) (x : A) :
  find p (l ++ [x]) =
    match find p l with
    | Some y => Some y
    | None => if p x then Some x else None
    end.
Proof.
  induction l as [|y rest IH]; simpl.
  - reflexivity.
  - destruct (p y); [reflexivity | exact IH].
Qed.

Lemma has_id_other (id id' : string) (job : JobData) :
  jobId job = id -> id' <> id -> has_id id' job = false.
Proof.
  intros <- Hne. unfold has_id. apply String.eqb_neq. congruence.
Qed.

Lemma has_id_eq (id : string) (job : JobData) :
  has_id id job = true <-> jobId job = id.
Proof. unfold has_id. apply String.eqb_eq. Qed.

(** X1.  A record written with [addToQueue] or [addToLog] is what the
    matching lookup returns for its id, unless the collection already held a
    record with that id: lookups return the oldest one.  [addToLog] stamps
    [processedAt] with the instant of the request, whatever the record
    carried.  Lookups of other ids, and the other file, are not affected. *)
Theorem written_job_read_back_unless_shadowed (env : Env) (job : JobData) (s : Store) :
  fst (getQueuedJob (jobId job) (store_after (addToQueue job) s))
    = Normal (Some (match find (has_id (jobId job)) (queue s) with
                    | Some older => older
                    | None => job
                    end))
  /\ (forall id, id <> jobId job ->
        fst (getQueuedJob id (store_after (addToQueue job) s))
          = fst (getQueuedJob id s))
  /\ log (store_after (addToQueue job) s) = log s
  /\ fst (getLoggedJob (jobId job) (store_after (addToLog env job) s))
       = Normal (Some (match find (has_id (jobId job)) (log s) with
                       | Some older => older
                       | None => with_processedAt job (Date_now env)
                       end))
  /\ processedAt (with_processedAt job (Date_now env)) = Some (Date_now env)
  /\ (forall id, id <> jobId job ->
        fst (getLoggedJob id (store_after (addToLog env job) s))
          = fst (getLoggedJob id s))
  /\ queue (store_after (addToLog env job) s) = queue s.
Proof.
  unfold store_after, addToQueue, addToLog, getQueuedJob, getLoggedJob,
    bind, readQueue, readLog, writeQueue, writeLog, ret.
  cbn [fst snd queue log].
  repeat split.
  - rewrite find_app_last.
    destruct (find (has_id (jobId job)) (queue s)); [reflexivity|].
    rewrite has_id_refl. reflexivity.
  - intros id Hne. rewrite find_app_last.
    destruct (find (has_id id) (queue s)); [reflexivity|].
    rewrite (has_id_other (jobId job) id job eq_refl Hne). reflexivity.
  - rewrite find_app_last.
    destruct (find (has_id (jobId job)) (log s)); [reflexivity|].
    change (has_id (jobId job) (with_processedAt job (Date_now env)))
      with (has_id (jobId job) job).
    rewrite has_id_refl. reflexivity.
  - intros id Hne. rewrite find_app_last.
    destruct (find (has_id id) (log s)); [reflexivity|].
    change (has_id id (with_processedAt job (Date_now env))) with (has_id id job).
    rewrite (has_id_other (jobId job) id job eq_refl Hne). reflexivity.
Qed.

Lemma written_job_read_back_unless_shadowed_witness :
  fst (getQueuedJob "job-2"
         (store_after (addToQueue (queued_record (sample_env 7000 "job-1" false true)
                                                 ten_letters))
                      store_after_refused_dispatch))
    = fst (getQueuedJob "job-2" store_after_refused_dispatch).
Proof.
  apply (proj1 (proj2 (written_job_read_back_unless_shadowed
                         (sample_env 7000 "job-1" false true)
                         (queued_record (sample_env 7000 "job-1" false true) ten_letters)
                         store_after_refused_dispatch)) "job-2"%string).
  discriminate.
Defined.

Lemma find_filter_other (id id' : string) (l : list JobData) :
  id' <> id ->
  find (has_id id') (filter (fun job => negb (has_id id job)) l) = find (has_id id') l.
Proof.
  intros Hne. induction l as [|x rest IH]; simpl; [reflexivity|].
  destruct (has_id id x) eqn:E; simpl.
  - apply has_id_eq in E.
    rewrite (has_id_other id id' x E Hne). exact IH.
  - destruct (has_id id' x); [reflexivity | exact IH].
Qed.

Lemma find_none_existsb {A} (p : A -> bool) (l : list A) :
  find p l = None <-> existsb p l = false.
Proof.
  induction l as [|x rest IH]; simpl.
  - split; reflexivity.
  - destruct (p x); simpl; [split; discriminate | exact IH].
Qed.

Lemma filter_out_absent {A} (p : A -> bool) (l : list A) :
  existsb p l = false -> filter (fun x => negb (p x)) l = l.
Proof.
  induction l as [|x rest IH]; simpl; [reflexivity|].
  intros H. apply orb_false_iff in H. destruct H as [Hx Hrest].
  rewrite Hx. simpl. rewrite (IH Hrest). reflexivity.
Qed.

(** X2.  [removeFromQueue] takes every record with the id out of the queue
    (a later lookup of the id finds nothing), keeps the other records, in
    their order as far as lookups go, does not touch the log, changes
    nothing when the id is not queued, and does nothing more when repeated. *)
Theorem removeFromQueue_takes_out_every_copy (id : string) (s : Store) :
  fst (getQueuedJob id (store_after (removeFromQueue id) s)) = Normal None
  /\ (forall id', id' <> id ->
        fst (getQueuedJob id' (store_after (removeFromQueue id) s))
          = fst (getQueuedJob id' s))
  /\ (forall job, In job (queue (store_after (removeFromQueue id) s))
                  <-> In job (queue s) /\ jobId job <> id)
  /\ log (store_after (removeFromQueue id) s) = log s
  /\ (in_queue id s = false -> store_after (removeFromQueue id) s = s)
  /\ store_after (removeFromQueue id) (store_after (removeFromQueue id) s)
       = store_after (removeFromQueue id) s.
Proof.
  unfold store_after, removeFromQueue, getQueuedJob, bind, readQueue, writeQueue, ret.
  cbn [fst snd queue log].
  split; [|split; [|split; [|split; [|split]]]].
  - f_equal. apply find_none_existsb. apply existsb_filter_out.
  - intros id' Hne. f_equal. apply (find_filter_other id id' (queue s) Hne).
  - intros job. rewrite filter_In. rewrite negb_true_iff.
    split; intros [Hin H]; (split; [exact Hin|]).
    + intros E. apply has_id_eq in E. congruence.
    + destruct (has_id id job) eqn:E; [|reflexivity].
      apply has_id_eq in E. contradiction.
  - reflexivity.
  - unfold in_queue. intros H. rewrite (filter_out_absent _ _ H).
    destruct s; reflexivity.
  - f_equal. apply filter_out_absent. apply existsb_filter_out.
Qed.

Lemma removeFromQueue_takes_out_every_copy_witness :
  store_after (removeFromQueue "job-1") store_after_dispatch = store_after_dispatch.
Proof.
  destruct (removeFromQueue_takes_out_every_copy "job-1" store_after_dispatch)
    as [_ [_ [_ [_ [Habsent _]]]]].
  apply Habsent. reflexivity.
Defined.

(** ** services/queueService: [updateLoggedJob] *)

Lemma update_first_length {A} (p : A -> bool) (f : A -> A) (l : list A) :
  length (update_first p f l) = length l.
Proof.
  induction l as [|x rest IH]; simpl; [reflexivity|].
  destruct (p x); simpl; congruence.
Qed.

Lemma find_update_first_other (id id' : string) (f : JobData -> JobData) (l : list JobData) :
  id' <> id ->
  (forall job, jobId (f job) = jobId job) ->
  find (has_id id') (update_first (has_id id) f l) = find (has_id id') l.
Proof.
  intros Hne Hf. induction l as [|x rest IH]; simpl; [reflexivity|].
  destruct (has_id id x) eqn:E; simpl.
  - apply has_id_eq in E.
    assert (Hx : has_id id' x = false) by (apply (has_id_other id id' x E Hne)).
    assert (Hfx : has_id id' (f x) = false).
    { apply (has_id_other id id' (f x)); [rewrite Hf; exact E | exact Hne]. }
    rewrite Hx, Hfx. reflexivity.
  - destruct (has_id id' x); [reflexivity | exact IH].
Qed.

Lemma jobId_spread (job : JobData) (updates : PartialJobData) :
  p_jobId updates = None -> jobId (spread job updates) = jobId job.
Proof. intros H. unfold spread. simpl. rewrite H. reflexivity. Qed.

(** X3.  [updateLoggedJob] answers none-found and writes nothing when the id
    is not in the log.  Otherwise it merges the updates into the oldest
    record with the id and returns the merged record; the log keeps its
    length, every other record stays where it is, the queue is untouched;
    and when the updates carry no jobId, a lookup of the id now returns the
    merged record while lookups of other ids are unchanged. *)
Theorem updateLoggedJob_merges_oldest_record
        (id : string) (updates : PartialJobData) (s : Store) :
  (find (has_id id) (log s) = None ->
     updateLoggedJob id updates s = (Normal None, s))
  /\ (forall job,
        find (has_id id) (log s) = Some job ->
        fst (updateLoggedJob id updates s) = Normal (Some (spread job updates))
        /\ queue (store_after (updateLoggedJob id updates) s) = queue s
        /\ length (log (store_after (updateLoggedJob id updates) s)) = length (log s)
        /\ (forall i other,
              nth_error (log s) i = Some other ->
              nth_error (log (store_after (updateLoggedJob id updates) s)) i = Some other
              \/ (other = job
                  /\ nth_error (log (store_after (updateLoggedJob id updates) s)) i
                       = Some (spread job updates)))
        /\ (p_jobId updates = None ->
              fst (getLoggedJob id (store_after (updateLoggedJob id updates) s))
                = Normal (Some (spread job updates))
              /\ forall id', id' <> id ->
                   fst (getLoggedJob id' (store_after (updateLoggedJob id updates) s))
                     = fst (getLoggedJob id' s))).
Proof.
  split.
  - apply updateLoggedJob_absent.
  - intros job H. unfold store_after. rewrite updateLoggedJob_eq, H.
    cbn [fst snd queue log option_map].
    split; [reflexivity|]. split; [reflexivity|].
    split; [apply update_first_length|]. split.
    + intros i other Hn.
      destruct (update_first_nth (has_id id) (fun j => spread j updates)
                  (log s) i other Hn) as [Hsame | [Hupd [_ Hfo]]].
      * left. exact Hsame.
      * right. rewrite H in Hfo. injection Hfo as ->. auto.
    + intros Hid. unfold getLoggedJob, bind, readLog, ret. cbn [fst snd log]. split.
      * f_equal.
        apply (find_update_first (has_id id) (fun j => spread j updates) (log s) job H).
        rewrite (has_id_spread id job updates Hid).
        apply (find_some_holds _ _ _ H).
      * intros id' Hne. f_equal.
        apply (find_update_first_other id id' (fun j => spread j updates) (log s) Hne).
        intros j. apply (jobId_spread j updates Hid).
Qed.

Lemma updateLoggedJob_merges_oldest_record_witness :
  updateLoggedJob "job-9" (completion 5000) store_after_dispatch
    = (Normal None, store_after_dispatch)
  /\ fst (getLoggedJob "job-1"
            (store_after (updateLoggedJob "job-1" (completion 5000)) store_after_dispatch))
     = Normal (Some (spread (processing_record (sample_env 1000 "job-1" false true)
                                               ten_letters)
                            (completion 5000))).
Proof.
  split.
  - apply (updateLoggedJob_merges_oldest_record "job-9" (completion 5000)
             store_after_dispatch).
    reflexivity.
  - destruct (updateLoggedJob_merges_oldest_record "job-1" (completion 5000)
                store_after_dispatch) as [_ H].
    destruct (H (processing_record (sample_env 1000 "job-1" false true) ten_letters)
                eq_refl) as [_ [_ [_ [_ Hread]]]].
    apply (Hread eq_refl).
Defined.

(** ** controllers/sequenceController: a submission followed by polls *)

Lemma find_filter_out_none (id : string) (l : list JobData) :
  find (has_id id) (filter (fun job => negb (has_id id job)) l) = None.
Proof. apply find_none_existsb. apply existsb_filter_out. Qed.

(** X4.  A valid submission that the predictor takes, with an id not yet in
    the log, can be followed up: while the blob is missing a status poll
    answers the logged record as processing, with the submitted sequence
    and a URL for proteins/<id>.pdb generated at the poll; once the blob is
    there, [checkResult] answers completed and stores completed with
    [completedAt] at its own instant, and every later status poll that
    finds the blob answers completed with that [completedAt].  A stale
    queue record with the same id does not get in the way: the submission
    has removed it. *)
Theorem dispatched_job_can_be_followed_to_completion
        (env poll check later : Env) (seq : jsstring) (s : Store) :
  isValidSequence (JsString seq) = true ->
  sas_configured env = true ->
  dispatch_succeeds env seq ->
  in_log (uuidv4 env) s = false ->
  sas_configured poll = true ->
  sas_configured check = true ->
  sas_configured later = true ->
  blob_absent poll (processing_record env seq) ->
  blob_present check (processing_record env seq) ->
  blob_present later (processing_record env seq) ->
  getJobStatus poll (uuidv4 env) (store_after (submitSequence env (JsString seq)) s)
    = (Normal {| code := 200;
                 json := JobJson (rechecked poll (processing_record env seq) false)
                                 "Job has been processed" |},
       store_after (submitSequence env (JsString seq)) s)
  /\ sequence (rechecked poll (processing_record env seq) false) = seq
  /\ storageUrl (rechecked poll (processing_record env seq) false)
       = Some (fresh_url poll (storageName_of (uuidv4 env)))
  /\ fst (checkResult check (uuidv4 env)
            (store_after (submitSequence env (JsString seq)) s))
       = Normal {| code := 200;
                   json := ResultJson (uuidv4 env) Status.completed
                             (Some (fresh_url check (storageName_of (uuidv4 env))))
                             "Result is available" |}
  /\ fst (getJobStatus later (uuidv4 env)
            (store_after (checkResult check (uuidv4 env))
               (store_after (submitSequence env (JsString seq)) s)))
       = Normal {| code := 200;
                   json := JobJson
                             (rechecked later
                                (spread (processing_record env seq)
                                        (completion (Date_now check))) true)
                             "Job has been processed" |}
  /\ completedAt (rechecked later
                    (spread (processing_record env seq)
                            (completion (Date_now check))) true)
       = Some (Date_now check).
Proof.
  intros Hv Hc Hd Hfresh Hcp Hcc Hcl Habs Hpres Hlater.
  unfold store_after at 1 2 3 5.
  rewrite (submitSequence_dispatched env seq s Hv Hc Hd). cbn [snd].
  set (s1 := {| queue := filter (fun job => negb (has_id (uuidv4 env) job))
                                (queue s ++ [queued_record env seq]);
                log := log s ++ [processing_record env seq] |}).
  assert (Hq : find (has_id (uuidv4 env)) (queue s1) = None)
    by apply find_filter_out_none.
  assert (Hl : find (has_id (uuidv4 env)) (log s1) = Some (processing_record env seq)).
  { apply find_app_fresh; [exact Hfresh|].
    change (uuidv4 env) with (jobId (processing_record env seq)). apply has_id_refl. }
  split; [|split; [reflexivity|split; [reflexivity|split; [|split; [|reflexivity]]]]].
  - rewrite (getJobStatus_logged_rechecked poll (uuidv4 env) s1
               (processing_record env seq) Hq Hl (or_introl eq_refl)).
    rewrite Hcp. destruct Habs as [e [He H404]].
    rewrite (checkBlobExists_rejected _ _ _ _ He).
    apply statusCode_is_iff in H404. rewrite H404. reflexivity.
  - rewrite (checkResult_blob_present check (uuidv4 env) s1
               (processing_record env seq) Hl Hpres).
    rewrite Hcc. reflexivity.
  - unfold store_after.
    rewrite (checkResult_blob_present check (uuidv4 env) s1
               (processing_record env seq) Hl Hpres).
    cbn [snd status processing_record Status.eqb].
    set (done := spread (processing_record env seq) (completion (Date_now check))).
    set (s2 := {| queue := queue s1;
                  log := update_first (has_id (uuidv4 env))
                           (fun j => spread j (completion (Date_now check)))
                           (log s1) |}).
    assert (Hl2 : find (has_id (uuidv4 env)) (log s2) = Some done).
    { apply (find_update_first (has_id (uuidv4 env))
               (fun j => spread j (completion (Date_now check)))
               (log s1) (processing_record env seq) Hl).
      apply String.eqb_refl. }
    rewrite (getJobStatus_logged_rechecked later (uuidv4 env) s2 done Hq Hl2
               (or_intror eq_refl)).
    rewrite Hcl. cbn [fst].
    change (storageName done) with (storageName (processing_record env seq)).
    rewrite (checkBlobExists_resolved _ _ _ Hlater). reflexivity.
Qed.

Lemma dispatched_job_can_be_followed_to_completion_witness :
  fst (getJobStatus (sample_env 9000 "job-4" true true) "job-1"
         (store_after (checkResult (sample_env 5000 "job-3" true true) "job-1")
                      store_after_dispatch))
    = Normal {| code := 200;
                json := JobJson
                          (rechecked (sample_env 9000 "job-4" true true)
                             (spread (processing_record
                                        (sample_env 1000 "job-1" false true) ten_letters)
                                     (completion 5000)) true)
                          "Job has been processed" |}.
Proof.
  destruct (dispatched_job_can_be_followed_to_completion
              (sample_env 1000 "job-1" false true)
              (sample_env 3000 "job-2" false true)
              (sample_env 5000 "job-3" true true)
              (sample_env 9000 "job-4" true true)
              ten_letters empty_store
              eq_refl eq_refl (sample_dispatch_taken 1000 "job-1" false ten_letters)
              eq_refl eq_refl eq_refl eq_refl
              (ex_intro _ not_found_404 (conj eq_refl eq_refl))
              eq_refl eq_refl)
    as [_ [_ [_ [_ [H _]]]]].
  exact H.
Defined.

(** ** controllers/sequenceController: failures of the storage adapter *)

(** X5.  On a server whose storage account name or key is missing or
    empty: a valid submission is answered 500 and writes nothing; a status
    poll for a logged job with status processing or completed is answered
    500; [checkResult] still answers processing while the blob is missing,
    but answers 500 once the blob is there, after it has already stored the
    move from processing to completed. *)
Theorem missing_sas_credentials_break_url_paths (env : Env) (id : string) (s : Store) :
  sas_configured env = false ->
  (forall v, isValidSequence v = true ->
     submitSequence env v s =
       (Normal {| code := 500; json := ErrorJson "Server error processing sequence" |}, s))
  /\ (forall job,
        find (has_id id) (queue s) = None ->
        find (has_id id) (log s) = Some job ->
        status job = Status.processing \/ status job = Status.completed ->
        getJobStatus env id s =
          (Normal {| code := 500;
                     json := ErrorJson "Server error checking job status" |}, s))
  /\ (forall job,
        find (has_id id) (log s) = Some job ->
        blob_absent env job ->
        checkResult env id s =
          (Normal {| code := 200;
                     json := ResultJson id Status.processing None
                               "Result is not available yet" |}, s))
  /\ (forall job,
        find (has_id id) (log s) = Some job ->
        blob_present env job ->
        fst (checkResult env id s) =
          Normal {| code := 500; json := ErrorJson "Server error checking result" |}
        /\ (status job = Status.processing ->
              fst (getLoggedJob id (store_after (checkResult env id) s))
                = Normal (Some (spread job (completion (Date_now env)))))).
Proof.
  intros Hc. split; [|split; [|split]].
  - intros v Hv. apply (submitSequence_unconfigured env v s Hv Hc).
  - intros job Hq Hl Hst.
    rewrite (getJobStatus_logged_rechecked env id s job Hq Hl Hst), Hc. reflexivity.
  - intros job Hl Ha. apply (checkResult_blob_absent env id s job Hl Ha).
  - intros job Hl Hp. unfold store_after.
    rewrite (checkResult_blob_present env id s job Hl Hp), Hc.
    split; [reflexivity|]. intros Hst. rewrite Hst. cbn [snd Status.eqb].
    unfold getLoggedJob, bind, readLog, ret. cbn [fst log]. f_equal.
    apply (find_update_first (has_id id)
             (fun j => spread j (completion (Date_now env))) (log s) job Hl).
    rewrite has_id_spread; [|reflexivity]. apply (find_some_holds _ _ _ Hl).
Qed.

(** X6.  When the storage service fails the existence check with anything
    but not-found, a status poll for a logged job with status processing or
    completed and every [checkResult] for a logged job are answered 500,
    and nothing is written; a job still in the queue is answered from the
    queue without asking the storage service. *)
Theorem storage_failure_is_answered_500 (env : Env) (id : string) (s : Store)
        (job : JobData) (e : JsError) :
  getProperties env (storageName job) = Rejected e ->
  err_statusCode e <> Some 404%Z ->
  (find (has_id id) (queue s) = None ->
   find (has_id id) (log s) = Some job ->
   status job = Status.processing \/ status job = Status.completed ->
   getJobStatus env id s =
     (Normal {| code := 500;
                json := ErrorJson "Server error checking job status" |}, s))
  /\ (find (has_id id) (log s) = Some job ->
      checkResult env id s =
        (Normal {| code := 500; json := ErrorJson "Server error checking result" |}, s))
  /\ (find (has_id id) (queue s) = Some job ->
      getJobStatus env id s =
        (Normal {| code := 200;
                   json := JobJson job "Job is queued for processing" |}, s)).
Proof.
  intros He Hn. split; [|split].
  - intros Hq Hl Hst.
    rewrite (getJobStatus_logged_rechecked env id s job Hq Hl Hst).
    rewrite (checkBlobExists_rejected _ _ _ _ He).
    destruct (statusCode_is e 404) eqn:E.
    + apply statusCode_is_iff in E. contradiction.
    + destruct (sas_configured env); reflexivity.
  - intros Hl. apply (checkResult_blob_error env id s job e Hl He Hn).
  - intros Hq. apply (getJobStatus_queued env id s job Hq).
Qed.

Lemma missing_sas_credentials_break_url_paths_witness :
  submitSequence (keyless_env 5000 "job-2" true) (JsString ten_letters) store_after_dispatch
    = (Normal {| code := 500; json := ErrorJson "Server error processing sequence" |},
       store_after_dispatch)
  /\ fst (checkResult (keyless_env 5000 "job-2" true) "job-1" store_after_dispatch)
     = Normal {| code := 500; json := ErrorJson "Server error checking result" |}
  /\ fst (getLoggedJob "job-1"
            (store_after (checkResult (keyless_env 5000 "job-2" true) "job-1")
                         store_after_dispatch))
     = Normal (Some (spread (processing_record (sample_env 1000 "job-1" false true)
                                               ten_letters)
                            (completion 5000))).
Proof.
  destruct (missing_sas_credentials_break_url_paths
              (keyless_env 5000 "job-2" true) "job-1" store_after_dispatch eq_refl)
    as [Hsubmit [_ [_ Hcheck]]].
  destruct (Hcheck (processing_record (sample_env 1000 "job-1" false true) ten_letters)
                   eq_refl eq_refl) as [H500 Hstored].
  split; [|split].
  - apply (Hsubmit (JsString ten_letters)). reflexivity.
  - exact H500.
  - apply Hstored. reflexivity.
Defined.

Lemma storage_failure_is_answered_500_witness :
  getJobStatus (busy_storage_env 5000 "job-2") "job-1" store_after_dispatch
    = (Normal {| code := 500;
                 json := ErrorJson "Server error checking job status" |},
       store_after_dispatch).
Proof.
  destruct (storage_failure_is_answered_500
              (busy_storage_env 5000 "job-2") "job-1" store_after_dispatch
              (processing_record (sample_env 1000 "job-1" false true) ten_letters)
              service_unavailable eq_refl)
    as [H _].
  - discriminate.
  - apply H; [reflexivity | reflexivity | left; reflexivity].
Defined.

(** ** controllers/sequenceController: what every handler keeps *)

Lemma route_answers (env : Env) (req : Request) (s : Store) :
  exists r,
    fst (route env req s) = Normal r
    /\ (code r = 200
        \/ exists msg, json r = ErrorJson msg
                       /\ In (code r) [400; 404; 500]
                       /\ In msg handler_errors).
Proof.
  destruct req as [v | id | id |]; simpl route.
  - destruct (isValidSequence v) eqn:Hv.
    + destruct (isValidSequence_truthy _ Hv) as [_ Hs]. rewrite Hs in Hv. rewrite Hs.
      destruct (sas_configured env) eqn:Hc.
      * destruct (dispatch_cases env (as_string v)) as [Hd | Hd].
        -- rewrite (submitSequence_dispatched env _ s Hv Hc Hd).
           eexists. split; [reflexivity | left; reflexivity].
        -- rewrite (submitSequence_dispatch_failed env _ s Hv Hc Hd).
           eexists. split; [reflexivity | left; reflexivity].
      * rewrite (submitSequence_unconfigured env _ s Hv Hc).
        eexists. split; [reflexivity|]. right. eexists. split; [reflexivity|].
        simpl. tauto.
    + unfold submitSequence, tryCatch, respond, ret.
      destruct (truthy v); cbn [negb]; [rewrite Hv; cbn [negb]|];
        (eexists; split; [reflexivity|]; right; eexists; split; [reflexivity|];
         simpl; tauto).
  - destruct (find (has_id id) (queue s)) as [qj|] eqn:Hq.
    + rewrite (getJobStatus_queued env id s qj Hq).
      eexists. split; [reflexivity | left; reflexivity].
    + destruct (find (has_id id) (log s)) as [lj|] eqn:Hl.
      * destruct (Status.eqb (status lj) Status.processing
                  || Status.eqb (status lj) Status.completed) eqn:E.
        -- assert (Hst : status lj = Status.processing \/ status lj = Status.completed).
           { apply orb_true_iff in E. destruct E as [E | E];
               apply status_eqb_eq in E; auto. }
           rewrite (getJobStatus_logged_rechecked env id s lj Hq Hl Hst).
           destruct (sas_configured env);
             [destruct (fst (checkBlobExists env (storageName lj) s))|];
             (eexists; split; [reflexivity|]);
             first [left; reflexivity
                   | right; eexists; split; [reflexivity|]; simpl; tauto].
        -- apply orb_false_iff in E. destruct E as [Ep Ec].
           apply status_eqb_neq in Ep. apply status_eqb_neq in Ec.
           rewrite (getJobStatus_logged_as_stored env id s lj Hq Hl Ep Ec).
           eexists. split; [reflexivity | left; reflexivity].
      * rewrite (getJobStatus_unknown env id s Hq Hl).
        eexists. split; [reflexivity|]. right. eexists. split; [reflexivity|].
        simpl. tauto.
  - destruct (find (has_id id) (log s)) as [job|] eqn:H.
    + destruct (getProperties env (storageName job)) as [|e] eqn:He.
      * rewrite (checkResult_blob_present env id s job H He).
        destruct (sas_configured env); (eexists; split; [reflexivity|]);
          first [left; reflexivity
                | right; eexists; split; [reflexivity|]; simpl; tauto].
      * destruct (statusCode_is e 404) eqn:E4.
        -- apply statusCode_is_iff in E4.
           rewrite (checkResult_blob_absent env id s job H); [|exists e; auto].
           eexists. split; [reflexivity | left; reflexivity].
        -- rewrite (checkResult_blob_error env id s job e H He).
           ++ eexists. split; [reflexivity|]. right. eexists.
              split; [reflexivity|]. simpl. tauto.
           ++ intros H404. apply statusCode_is_iff in H404. congruence.
    + rewrite (checkResult_not_logged env id s H).
      eexists. split; [reflexivity|]. right. eexists. split; [reflexivity|].
      simpl. tauto.
  - rewrite listAllJobs_eq. eexists. split; [reflexivity | left; reflexivity].
Qed.

(** X7.  Every handler answers, whatever the request, the store and the
    surroundings: no rejection escapes a handler.  The status code is 200,
    400, 404 or 500, and every answer that is not 200 has a body {error}
    with one of the fixed, non-empty error texts. *)
Theorem every_request_is_answered (env : Env) (req : Request) (s : Store) :
  exists r,
    fst (route env req s) = Normal r
    /\ In (code r) handler_codes
    /\ (code r <> 200 ->
        exists msg, json r = ErrorJson msg /\ In msg handler_errors /\ msg <> ""%string).
Proof.
  destruct (route_answers env req s) as [r [Hr [H200 | [msg [Hj [Hc Hm]]]]]];
    exists r; (split; [exact Hr|]).
  - split; [rewrite H200; left; reflexivity|]. intros Hn. contradiction.
  - split.
    + right. exact Hc.
    + intros _. exists msg. split; [exact Hj|]. split; [exact Hm|].
      simpl in Hm. intros ->.
      repeat (destruct Hm as [Hm | Hm]; [discriminate Hm|]). destruct Hm.
Qed.

Lemma records_of_app_other (id : string) (l : list JobData) (job : JobData) :
  has_id id job = false ->
  records_of id (l ++ [job]) = records_of id l.
Proof.
  intros H. unfold records_of. rewrite filter_app. simpl. rewrite H.
  apply app_nil_r.
Qed.

Lemma records_of_filter_other (id id' : string) (l : list JobData) :
  id' <> id ->
  records_of id' (filter (fun job => negb (has_id id job)) l) = records_of id' l.
Proof.
  intros Hne. unfold records_of. induction l as [|x rest IH]; simpl; [reflexivity|].
  destruct (has_id id x) eqn:E; simpl.
  - apply has_id_eq in E. rewrite (has_id_other id id' x E Hne). exact IH.
  - destruct (has_id id' x); [rewrite IH; reflexivity | exact IH].
Qed.

Lemma records_of_update_first_other (id id' : string) (f : JobData -> JobData)
      (l : list JobData) :
  id' <> id ->
  (forall job, jobId (f job) = jobId job) ->
  records_of id' (update_first (has_id id) f l) = records_of id' l.
Proof.
  intros Hne Hf. unfold records_of. induction l as [|x rest IH]; simpl; [reflexivity|].
  destruct (has_id id x) eqn:E; simpl.
  - apply has_id_eq in E.
    rewrite (has_id_other id id' x E Hne).
    rewrite (has_id_other id id' (f x)); [reflexivity | rewrite Hf; exact E | exact Hne].
  - destruct (has_id id' x); [rewrite IH; reflexivity | exact IH].
Qed.

(** X8.  A request leaves the records of every other job as they are: in
    the queue and in the log, the records of an id that the request is not
    about are the same, in the same order, before and after. *)
Theorem other_jobs_are_left_alone (env : Env) (req : Request) (s : Store) (id' : string) :
  request_id env req <> Some id' ->
  records_of id' (queue (store_after (route env req) s)) = records_of id' (queue s)
  /\ records_of id' (log (store_after (route env req) s)) = records_of id' (log s).
Proof.
  intros Hne. destruct req as [v | id | id |]; simpl in Hne; simpl route.
  - assert (Hid : id' <> uuidv4 env) by congruence.
    assert (Hq : has_id id' (queued_record env (as_string v)) = false)
      by (apply (has_id_other (uuidv4 env) id'); [reflexivity | exact Hid]).
    assert (He : has_id id' (error_record env (as_string v)) = false)
      by (apply (has_id_other (uuidv4 env) id'); [reflexivity | exact Hid]).
    assert (Hp : has_id id' (processing_record env (as_string v)) = false)
      by (apply (has_id_other (uuidv4 env) id'); [reflexivity | exact Hid]).
    destruct (submitSequence_store env v s) as [E | [E | E]]; rewrite E; cbn [queue log].
    + auto.
    + rewrite (records_of_app_other id' _ _ Hq), (records_of_app_other id' _ _ He). auto.
    + rewrite (records_of_filter_other (uuidv4 env) id' _ Hid).
      rewrite (records_of_app_other id' _ _ Hq), (records_of_app_other id' _ _ Hp). auto.
  - rewrite getJobStatus_store. auto.
  - assert (Hid : id' <> id) by congruence.
    destruct (checkResult_store env id s) as [E | [job [_ [_ [_ E]]]]];
      rewrite E; cbn [queue log].
    + auto.
    + split; [reflexivity|].
      apply (records_of_update_first_other id id' _ (log s) Hid).
      intros j. apply jobId_spread. reflexivity.
  - unfold store_after. rewrite listAllJobs_eq. auto.
Qed.

Lemma other_jobs_are_left_alone_witness :
  records_of "job-1"
    (log (store_after (route (sample_env 7000 "job-2" false true)
                             (POST_submit_sequence (JsString ten_letters)))
                      store_after_dispatch))
    = records_of "job-1" (log store_after_dispatch).
Proof.
  apply (other_jobs_are_left_alone
           (sample_env 7000 "job-2" false true)
           (POST_submit_sequence (JsString ten_letters))
           store_after_dispatch "job-1").
  discriminate.
Defined.

(** X9.  No request takes a job out of the log or shrinks it: the log
    after a request is as long as before or one record longer, only a
    submission makes it longer, and an id that was logged is still
    logged. *)
Theorem logged_jobs_are_never_lost (env : Env) (req : Request) (s : Store) :
  (length (log (store_after (route env req) s)) = length (log s)
   \/ length (log (store_after (route env req) s)) = S (length (log s))
      /\ exists v, req = POST_submit_sequence v /\ isValidSequence v = true)
  /\ (forall id, in_log id s = true ->
        in_log id (store_after (route env req) s) = true).
Proof.
  destruct req as [v | id | id |]; simpl route.
  - destruct (isValidSequence v) eqn:Hv.
    + destruct (submitSequence_store env v s) as [E | [E | E]]; rewrite E;
        unfold in_log; cbn [log].
      * auto.
      * split.
        -- right. rewrite length_app. simpl. split; [lia|]. exists v. auto.
        -- intros id H. rewrite existsb_app, H. reflexivity.
      * split.
        -- right. rewrite length_app. simpl. split; [lia|]. exists v. auto.
        -- intros id H. rewrite existsb_app, H. reflexivity.
    + destruct (submitSequence_rejected env v s Hv) as [msg E].
      unfold store_after. rewrite E. auto.
  - rewrite getJobStatus_store. auto.
  - destruct (checkResult_store env id s) as [E | [job [_ [_ [_ E]]]]];
      rewrite E; unfold in_log; cbn [log].
    + auto.
    + split; [left; apply update_first_length|].
      intros id0 H. apply existsb_exists in H. destruct H as [x [Hin Hx]].
      apply In_nth_error in Hin. destruct Hin as [i Hi].
      apply existsb_exists.
      destruct (update_first_nth (has_id id)
                  (fun j => spread j (completion (Date_now env))) (log s) i x Hi)
        as [Hsame | [Hupd _]].
      * exists x. split; [apply (nth_error_In _ _ Hsame) | exact Hx].
      * exists (spread x (completion (Date_now env))).
        split; [apply (nth_error_In _ _ Hupd)|].
        rewrite has_id_spread; [exact Hx | reflexivity].
  - unfold store_after. rewrite listAllJobs_eq. auto.
Qed.

Lemma logged_jobs_are_never_lost_witness :
  in_log "job-1"
    (store_after (route (sample_env 5000 "job-2" true true) (GET_check_result "job-1"))
                 store_after_dispatch) = true.
Proof.
  apply (logged_jobs_are_never_lost
           (sample_env 5000 "job-2" true true) (GET_check_result "job-1")
           store_after_dispatch).
  reflexivity.
Defined.

(** ** Validation: values that are not sequences *)

(** X10.  Validation comes before everything else in [submitSequence]: a
    missing, falsy or empty sequence is answered 400 "Sequence is
    required", a truthy value that is not a string (a number, an array, an
    object) 400 with the invalid-sequence text, on any server, configured
    or not, and nothing is written; the id generator's value, the clock and
    the predictor play no part. *)
Theorem non_sequences_are_rejected_first (env : Env) (s : Store) :
  submitSequence env (JsOther false) s
    = (Normal {| code := 400; json := ErrorJson "Sequence is required" |}, s)
  /\ submitSequence env (JsString []) s
       = (Normal {| code := 400; json := ErrorJson "Sequence is required" |}, s)
  /\ submitSequence env (JsOther true) s
       = (Normal {| code := 400;
                    json := ErrorJson
                      "Invalid protein sequence. Use standard amino acid codes (ACDEFGHIKLMNPQRSTVWY)." |},
          s)
  /\ (forall v env', isValidSequence v = false ->
        submitSequence env v s = submitSequence env' v s).
Proof.
  split; [reflexivity|]. split; [reflexivity|]. split.
  - unfold submitSequence, tryCatch, respond, ret. cbn [truthy negb].
    unfold isValidSequence. cbn [truthy typeof_string negb orb]. reflexivity.
  - intros v env' Hv. unfold submitSequence, tryCatch, respond, ret.
    destruct (truthy v); cbn [negb]; [rewrite Hv|]; reflexivity.
Qed.

Lemma non_sequences_are_rejected_first_witness :
  submitSequence (sample_env 1000 "job-1" false true) (JsString (js "HELLO WORLD"))
                 store_after_dispatch
    = submitSequence (keyless_env 9000 "job-7" true) (JsString (js "HELLO WORLD"))
                     store_after_dispatch.
Proof.
  apply (non_sequences_are_rejected_first
           (sample_env 1000 "job-1" false true) store_after_dispatch).
  reflexivity.
Defined.

(** ** shared/utils: how validity composes *)

Lemma isValidSequence_app (s1 s2 : jsstring) :
  s1 <> [] -> s2 <> [] ->
  isValidSequence (JsString (s1 ++ s2))
    = isValidSequence (JsString s1) && isValidSequence (JsString s2).
Proof.
  intros H1 H2. rewrite !isValidSequence_string, forallb_app.
  destruct s1 as [|a s1]; [contradiction|].
  destruct s2 as [|b s2]; [contradiction|].
  reflexivity.
Qed.

Lemma lookup_latin_ge (c : code_unit) (form : jsstring) :
  lookup c latin_upper_forms = Some form -> (223 <= c)%N.
Proof.
  intros H. apply lookup_In in H. simpl in H.
  repeat (destruct H as [H | H]; [injection H as <- <-; discriminate|]).
  destruct H.
Qed.

Lemma toUpperCase_ascii (c : code_unit) :
  (c < 128)%N ->
  toUpperCase c = [if ((97 <=? c) && (c <=? 122))%N then (c - 32)%N else c].
Proof.
  intros Hc. unfold toUpperCase.
  destruct ((97 <=? c) && (c <=? 122))%N; [reflexivity|].
  destruct (lookup c latin_upper_forms) as [form|] eqn:E; [|reflexivity].
  apply lookup_latin_ge in E. lia.
Qed.

Lemma toUpperCase_ascii_twice (c : code_unit) :
  (c < 128)%N ->
  flat_map toUpperCase (toUpperCase c) = toUpperCase c.
Proof.
  intros Hc. rewrite (toUpperCase_ascii c Hc). simpl. rewrite app_nil_r.
  destruct ((97 <=? c) && (c <=? 122))%N eqn:E.
  - apply andb_true_iff in E. destruct E as [E1 E2].
    apply N.leb_le in E1. apply N.leb_le in E2.
    rewrite toUpperCase_ascii by lia.
    replace ((97 <=? c - 32) && (c - 32 <=? 122))%N with false; [reflexivity|].
    symmetry. apply andb_false_iff. left. apply N.leb_gt. lia.
  - rewrite (toUpperCase_ascii c Hc), E. reflexivity.
Qed.

(** X11.  Validity of Basic Latin text does not depend on letter case:
    upper-casing every character of a string of code units below 128 does
    not change what [isValidSequence] answers.  And validity is
    compositional: a concatenation of two non-empty strings is valid
    exactly when both parts are. *)
Theorem validity_ignores_case_and_composes (s1 s2 : jsstring) :
  (forall c, In c s1 -> (c < 128)%N) ->
  isValidSequence (JsString (flat_map toUpperCase s1)) = isValidSequence (JsString s1)
  /\ (s1 <> [] -> s2 <> [] ->
      isValidSequence (JsString (s1 ++ s2))
        = isValidSequence (JsString s1) && isValidSequence (JsString s2)).
Proof.
  intros Hascii. split; [|apply isValidSequence_app].
  rewrite !isValidSequence_string.
  destruct s1 as [|a rest]; [reflexivity|].
  assert (Hne : flat_map toUpperCase (a :: rest) <> []).
  { simpl. pose proof (toUpperCase_nonempty a) as Hn.
    destruct (toUpperCase a); [contradiction | discriminate]. }
  destruct (flat_map toUpperCase (a :: rest)) as [|b more] eqn:Hfm; [contradiction|].
  rewrite <- Hfm. cbn [negb andb]. clear Hne Hfm b more.
  induction (a :: rest) as [|c l IH]; [reflexivity|].
  cbn [flat_map forallb]. rewrite forallb_app.
  rewrite IH by (intros x Hx; apply Hascii; right; exact Hx).
  f_equal.
  assert (Hc : (c < 128)%N) by (apply Hascii; left; reflexivity).
  pose proof (toUpperCase_ascii_twice c Hc) as Htw.
  rewrite (toUpperCase_ascii c Hc) in *. simpl in *.
  rewrite app_nil_r in Htw. rewrite Htw. rewrite andb_true_r. reflexivity.
Qed.

Lemma validity_ignores_case_and_composes_witness :
  isValidSequence (JsString (flat_map toUpperCase (js "mkvl")))
    = isValidSequence (JsString (js "mkvl")).
Proof.
  refine (proj1 (validity_ignores_case_and_composes (js "mkvl") (js "A") _)).
  intros c Hc. simpl in Hc.
  repeat (destruct Hc as [Hc | Hc]; [subst c; reflexivity|]).
  destruct Hc.
Defined.

(** * Properties of the client *)

(** ** client/services/api against the server *)

Lemma api_outcome_of_reply (fallback : string) (r : Response) :
  (code r = 200
   \/ exists msg, json r = ErrorJson msg
                  /\ In (code r) [400; 404; 500]
                  /\ In msg handler_errors) ->
  (if Api.resolves r then Api.Returned (json r)
   else Api.ThrownError (Api.or_else (response_error r) fallback))
  = (if Nat.eqb (code r) 200 then Api.Returned (json r)
     else Api.ThrownError (match json r with ErrorJson msg => msg | _ => fallback end)).
Proof.
  intros [H200 | [msg [Hj [Hc Hm]]]]; unfold Api.resolves.
  - rewrite H200. reflexivity.
  - unfold response_error. rewrite Hj.
    assert (Hne : String.eqb msg "" = false).
    { simpl in Hm.
      repeat (destruct Hm as [Hm | Hm]; [subst msg; reflexivity|]). destruct Hm. }
    unfold Api.or_else. rewrite Hne.
    simpl in Hc. destruct Hc as [<- | [<- | [<- | []]]]; reflexivity.
Qed.

(** X12.  Whenever the reply a wrapper of the client receives is a reply
    that one of the four handlers of this server has sent (to whatever
    request, in whatever store), the wrapper returns the body of a 200 reply
    and throws, for every other reply, an Error whose message is the
    handler's own error text, one of the six texts the handlers use; none
    of the fallback texts ("Failed to ...") is thrown for a handler's
    reply.  When no reply arrives the message is
    "Network error. Please try again later.". *)
Theorem client_shows_the_servers_error_text (env : Env) (s : Store) :
  (forall req r,
     response_of (route env req) s = Some r ->
     (forall post sequence,
        post (JsString sequence) = Replied r ->
        Api.submitSequence post sequence
        = (if Nat.eqb (code r) 200 then Api.Returned (json r)
           else Api.ThrownError
                  (match json r with ErrorJson msg => msg | _ => ""%string end)))
     /\ (forall get jobId,
           get jobId = Replied r ->
           Api.getJobStatus get jobId
           = (if Nat.eqb (code r) 200 then Api.Returned (json r)
              else Api.ThrownError
                     (match json r with ErrorJson msg => msg | _ => ""%string end)))
     /\ (forall get jobId,
           get jobId = Replied r ->
           Api.checkResult get jobId
           = (if Nat.eqb (code r) 200 then Api.Returned (json r)
              else Api.ThrownError
                     (match json r with ErrorJson msg => msg | _ => ""%string end)))
     /\ (code r <> 200 ->
         exists msg,
           json r = ErrorJson msg
           /\ In msg handler_errors
           /\ ~ In msg [ "Failed to submit sequence";
                         "Failed to get job status";
                         "Failed to check result" ]%string))
  /\ (forall sequence id,
        Api.submitSequence (fun _ => NoResponse) sequence
          = Api.ThrownError "Network error. Please try again later."
        /\ Api.getJobStatus (fun _ => NoResponse) id
          = Api.ThrownError "Network error. Please try again later."
        /\ Api.checkResult (fun _ => NoResponse) id
          = Api.ThrownError "Network error. Please try again later.").
Proof.
  split; [|intros sequence id; repeat split].
  intros req r Hr.
  destruct (route_answers env req s) as [r' [Hr' Hcases]].
  assert (r' = r) as ->.
  { unfold response_of in Hr. rewrite Hr' in Hr. injection Hr as ->. reflexivity. }
  assert (Hgen : forall fallback,
            (if Api.resolves r then Api.Returned (json r)
             else Api.ThrownError (Api.or_else (response_error r) fallback))
            = (if Nat.eqb (code r) 200 then Api.Returned (json r)
               else Api.ThrownError
                      (match json r with ErrorJson msg => msg | _ => ""%string end))).
  { intros fallback. rewrite (api_outcome_of_reply fallback r Hcases).
    destruct Hcases as [H200 | [msg [Hj _]]].
    - rewrite H200. reflexivity.
    - rewrite Hj. reflexivity. }
  split; [|split; [|split]].
  - intros post sequence Hp. unfold Api.submitSequence. rewrite Hp. apply Hgen.
  - intros get jobId Hg. unfold Api.getJobStatus. rewrite Hg. apply Hgen.
  - intros get jobId Hg. unfold Api.checkResult. rewrite Hg. apply Hgen.
  - intros Hn. destruct Hcases as [H200 | [msg [Hj [_ Hm]]]]; [contradiction|].
    exists msg. split; [exact Hj|]. split; [exact Hm|].
    simpl in Hm. intros Hf. simpl in Hf.
    repeat (destruct Hm as [Hm | Hm];
            [subst msg;
             repeat (destruct Hf as [Hf | Hf]; [discriminate Hf|]); destruct Hf|]).
    destruct Hm.
Qed.

Lemma client_shows_the_servers_error_text_witness :
  Api.submitSequence
    (fun _ => Replied
       {| code := 400;
          json := ErrorJson
            "Invalid protein sequence. Use standard amino acid codes (ACDEFGHIKLMNPQRSTVWY)." |})
    (js "SHORT")
  = Api.ThrownError
      "Invalid protein sequence. Use standard amino acid codes (ACDEFGHIKLMNPQRSTVWY).".
Proof.
  destruct (client_shows_the_servers_error_text
              (sample_env 1000 "job-1" false true) empty_store) as [H _].
  destruct (H (POST_submit_sequence (JsString (js "SHORT")))
              {| code := 400;
                 json := ErrorJson
                   "Invalid protein sequence. Use standard amino acid codes (ACDEFGHIKLMNPQRSTVWY)." |}
              eq_refl) as [Hpost _].
  exact (Hpost (fun _ => Replied
                  {| code := 400;
                     json := ErrorJson
                       "Invalid protein sequence. Use standard amino acid codes (ACDEFGHIKLMNPQRSTVWY)." |})
               (js "SHORT") eq_refl).
Defined.

(** ** client/components/SequenceInput *)

Lemma trimStart_nil (s : jsstring) :
  trimStart s = [] <-> forallb isWhiteSpace s = true.
Proof.
  induction s as [|c rest IH]; simpl.
  - split; reflexivity.
  - destruct (isWhiteSpace c); simpl; [exact IH|]. split; discriminate.
Qed.

Lemma trimStart_suffix (s : jsstring) :
  exists stripped, s = stripped ++ trimStart s /\ forallb isWhiteSpace stripped = true.
Proof.
  induction s as [|c rest IH]; simpl.
  - exists []. split; reflexivity.
  - destruct (isWhiteSpace c) eqn:E.
    + destruct IH as [st [Hs Hw]]. exists (c :: st). split.
      * simpl. f_equal. exact Hs.
      * simpl. rewrite E. exact Hw.
    + exists []. split; reflexivity.
Qed.

Lemma white_space_reversed (s : jsstring) :
  forallb isWhiteSpace (rev s) = true -> forallb isWhiteSpace s = true.
Proof.
  rewrite !forallb_forall. intros H c Hc. apply H. apply in_rev in Hc. exact Hc.
Qed.

Lemma trim_nil (s : jsstring) :
  trim s = [] <-> forallb isWhiteSpace s = true.
Proof.
  unfold trim, trimEnd. split.
  - intros H.
    assert (Hr : trimStart (rev (trimStart s)) = []).
    { destruct (trimStart (rev (trimStart s))) as [|c l]; [reflexivity|].
      simpl in H. destruct (rev l); discriminate H. }
    apply trimStart_nil in Hr. apply white_space_reversed in Hr.
    destruct (trimStart_suffix s) as [st [Hs Hw]].
    rewrite Hs, forallb_app, Hw, Hr. reflexivity.
  - intros H. apply trimStart_nil in H. rewrite H. reflexivity.
Qed.

Lemma white_space_is_no_amino_acid (c : code_unit) :
  isWhiteSpace c = true -> includes validAminoAcids (toUpperCase c) = false.
Proof.
  unfold isWhiteSpace. intros H. apply existsb_exists in H.
  destruct H as [x [Hin E]]. apply N.eqb_eq in E. subst x. simpl in Hin.
  repeat (destruct Hin as [Hin | Hin]; [subst c; reflexivity|]).
  destruct Hin.
Qed.

Lemma valid_has_no_white_space (seq : jsstring) :
  isValidSequence (JsString seq) = true ->
  trim seq <> [] /\ removeWhiteSpace seq = seq.
Proof.
  rewrite isValidSequence_string. intros H. apply andb_true_iff in H.
  destruct H as [Hne Hall]. rewrite forallb_forall in Hall.
  assert (Hnw : forall c, In c seq -> isWhiteSpace c = false).
  { intros c Hc. destruct (isWhiteSpace c) eqn:E; [|reflexivity].
    specialize (Hall c Hc).
    rewrite (white_space_is_no_amino_acid c E) in Hall. discriminate Hall. }
  split.
  - intros Ht. apply trim_nil in Ht.
    destruct seq as [|c rest]; [discriminate Hne|].
    simpl in Ht. rewrite (Hnw c (or_introl eq_refl)) in Ht. discriminate Ht.
  - unfold removeWhiteSpace. clear Hne Hall.
    induction seq as [|c rest IH]; simpl; [reflexivity|].
    rewrite (Hnw c (or_introl eq_refl)). simpl. f_equal.
    apply IH. intros x Hx. apply Hnw. right. exact Hx.
Qed.

(** X13.  The form lets a sequence through exactly when [isValidSequence]
    accepts it and it has 10 to 1000 characters; the message it sets is
    empty exactly then.  Text made of white space only gets "Please enter a
    protein sequence".  Whatever the form lets through, the server does not
    answer with 400; and a valid sequence has no white space in it, so the
    text area's stripping leaves it as it is. *)
Theorem form_lets_through_valid_sequences_of_10_to_1000 (seq : jsstring) :
  (SequenceInput.handleSubmit seq = true <->
     isValidSequence (JsString seq) = true /\ 10 <= length seq <= 1000)
  /\ (SequenceInput.validationMsg (SequenceInput.validateSequence seq) = ""%string <->
        SequenceInput.handleSubmit seq = true)
  /\ (forallb isWhiteSpace seq = true ->
        SequenceInput.validateSequence seq =
          {| SequenceInput.isValid := false;
             SequenceInput.validationMsg := "Please enter a protein sequence" |})
  /\ (SequenceInput.handleSubmit seq = true ->
        forall env s r,
          response_of (submitSequence env (JsString seq)) s = Some r ->
          code r <> 400)
  /\ (isValidSequence (JsString seq) = true ->
        forall state, fst (SequenceInput.onChange state seq) = seq).
Proof.
  unfold SequenceInput.handleSubmit.
  assert (Hmain : SequenceInput.isValid (SequenceInput.validateSequence seq) = true <->
                  isValidSequence (JsString seq) = true /\ 10 <= length seq <= 1000).
  { unfold SequenceInput.validateSequence.
    destruct (trim seq) as [|c rest] eqn:Ht.
    - simpl. split; [discriminate|]. intros [Hv _].
      destruct (valid_has_no_white_space seq Hv) as [Hne _]. contradiction.
    - destruct (isValidSequence (JsString seq)) eqn:Hv; cbn [negb].
      + destruct (length seq <? 10) eqn:E1.
        * apply Nat.ltb_lt in E1. simpl. split; [discriminate | lia].
        * apply Nat.ltb_ge in E1.
          destruct (1000 <? length seq) eqn:E2.
          -- apply Nat.ltb_lt in E2. simpl. split; [discriminate | lia].
          -- apply Nat.ltb_ge in E2. simpl. split; auto.
      + simpl. split; [discriminate|]. intros [H _]. discriminate H. }
  split; [exact Hmain|]. split; [|split; [|split]].
  - unfold SequenceInput.validateSequence.
    destruct (trim seq) as [|c rest]; [simpl; split; discriminate|].
    destruct (negb (isValidSequence (JsString seq))); [simpl; split; discriminate|].
    destruct (length seq <? 10); [simpl; split; discriminate|].
    destruct (1000 <? length seq); simpl; split; try discriminate; reflexivity.
  - intros Hw. apply trim_nil in Hw. unfold SequenceInput.validateSequence.
    rewrite Hw. reflexivity.
  - intros Hok env s r Hr H400. apply Hmain in Hok. destruct Hok as [Hv _].
    destruct (submitSequence_400_store env (JsString seq) s r Hr H400) as [Hinv _].
    congruence.
  - intros Hv state. unfold SequenceInput.onChange. cbn [fst].
    apply (valid_has_no_white_space seq Hv).
Qed.

Lemma form_lets_through_valid_sequences_of_10_to_1000_witness :
  SequenceInput.validateSequence (js "  ")
    = {| SequenceInput.isValid := false;
         SequenceInput.validationMsg := "Please enter a protein sequence" |}
  /\ SequenceInput.handleSubmit ten_letters = true.
Proof.
  destruct (form_lets_through_valid_sequences_of_10_to_1000 (js "  "))
    as [_ [_ [Hblank _]]].
  destruct (form_lets_through_valid_sequences_of_10_to_1000 ten_letters)
    as [Hten _].
  split.
  - apply Hblank. reflexivity.
  - apply Hten. split; [reflexivity | simpl; lia].
Defined.

(** ** client/components/App: the list of recent jobs *)

Lemma filter_none {A} (p : A -> bool) (l : list A) :
  (forall x, In x l -> p x = false) -> filter p l = [].
Proof.
  induction l as [|x rest IH]; intros H; simpl; [reflexivity|].
  rewrite (H x (or_introl eq_refl)). apply IH. intros y Hy. apply H. right. exact Hy.
Qed.

Lemma firstn_sublist {A} (n : nat) (l : list A) : incl (firstn n l) l.
Proof.
  revert l. induction n as [|n IH]; intros l x H; [destruct H|].
  destruct l as [|y rest]; [destruct H|].
  simpl in H. destruct H as [H | H]; [left; exact H | right; apply IH, H].
Qed.

Lemma distinct_keys_after_filter {Item Key} (key : Item -> Key) (keep : Item -> bool)
      (items : list Item) :
  NoDup (List.map key items) -> NoDup (List.map key (filter keep items)).
Proof.
  intros Hnd. induction items as [|x rest IH]; simpl; [constructor|].
  simpl in Hnd. apply NoDup_cons_iff in Hnd. destruct Hnd as [Hnin Hrest].
  destruct (keep x); simpl; [|apply IH, Hrest].
  apply NoDup_cons_iff. split; [|apply IH, Hrest].
  intros Hin. apply Hnin. apply in_map_iff in Hin. destruct Hin as [z [Hz Hin]].
  apply in_map_iff. exists z. split; [exact Hz|].
  apply filter_In in Hin. apply Hin.
Qed.

(** X14.  The list [storeJob] stores has the new job first, at most five
    entries, and the new id exactly once; the older jobs that stay keep
    their order, and only from the end are jobs dropped; if the ids were
    distinct before they are distinct after; and while fewer than five jobs
    were listed none of the others is dropped. *)
Theorem recent_jobs_newest_first_at_most_five
        (recentJobs : list App.StoredJob) (now : Time) (id : string) (seq : jsstring) :
  hd_error (App.storeJob recentJobs now id seq)
    = Some {| App.jobId := id; App.sequence := seq; App.timestamp := now |}
  /\ length (App.storeJob recentJobs now id seq) <= 5
  /\ filter (fun job => String.eqb (App.jobId job) id)
            (App.storeJob recentJobs now id seq)
       = [{| App.jobId := id; App.sequence := seq; App.timestamp := now |}]
  /\ (exists dropped,
        {| App.jobId := id; App.sequence := seq; App.timestamp := now |}
          :: filter (fun job => negb (String.eqb (App.jobId job) id)) recentJobs
        = App.storeJob recentJobs now id seq ++ dropped)
  /\ (NoDup (map App.jobId recentJobs) ->
      NoDup (map App.jobId (App.storeJob recentJobs now id seq)))
  /\ (length recentJobs < 5 ->
      forall job, In job recentJobs -> App.jobId job <> id ->
                  In job (App.storeJob recentJobs now id seq)).
Proof.
  unfold App.storeJob.
  set (newJob := {| App.jobId := id; App.sequence := seq; App.timestamp := now |}).
  set (others := filter (fun job => negb (String.eqb (App.jobId job) id)) recentJobs).
  assert (Hothers : forall job, In job others -> String.eqb (App.jobId job) id = false).
  { intros job Hin. apply filter_In in Hin. destruct Hin as [_ Hn].
    apply negb_true_iff in Hn. exact Hn. }
  split; [reflexivity|]. split; [apply firstn_le_length|]. split; [|split; [|split]].
  - change (firstn 5 (newJob :: others)) with (newJob :: firstn 4 others).
    cbn [filter App.jobId newJob]. rewrite String.eqb_refl. f_equal.
    apply filter_none. intros job Hin. apply Hothers.
    apply (firstn_sublist 4 others job Hin).
  - exists (skipn 5 (newJob :: others)). symmetry. apply firstn_skipn.
  - intros Hnd.
    assert (Hall : NoDup (map App.jobId (newJob :: others))).
    { cbn [map]. constructor.
      - intros Hin. apply in_map_iff in Hin. destruct Hin as [job [Hid Hin]].
        apply Hothers in Hin. apply String.eqb_neq in Hin. apply Hin. exact Hid.
      - apply distinct_keys_after_filter. exact Hnd. }
    rewrite <- (firstn_skipn 5 (newJob :: others)) in Hall.
    rewrite map_app in Hall. apply NoDup_app_remove_r in Hall. exact Hall.
  - intros Hlen job Hin Hne.
    assert (Hlo : length others <= length recentJobs) by apply filter_length_le.
    rewrite firstn_all2 by (simpl; lia).
    right. apply filter_In. split; [exact Hin|].
    apply negb_true_iff. apply String.eqb_neq. exact Hne.
Qed.

Lemma recent_jobs_newest_first_at_most_five_witness :
  NoDup (map App.jobId
           (App.storeJob
              [ {| App.jobId := "job-1"; App.sequence := ten_letters; App.timestamp := 10 |};
                {| App.jobId := "job-2"; App.sequence := ten_letters; App.timestamp := 20 |} ]
              30 "job-1" ten_letters)).
Proof.
  apply (recent_jobs_newest_first_at_most_five
           [ {| App.jobId := "job-1"; App.sequence := ten_letters; App.timestamp := 10 |};
             {| App.jobId := "job-2"; App.sequence := ten_letters; App.timestamp := 20 |} ]
           30 "job-1" ten_letters).
  simpl. constructor.
  - intros [H | []]. discriminate H.
  - constructor; [intros [] | constructor].
Defined.

(** ** client/components/ProteinViewer *)

Lemma jsstring_eqb_eq (a b : jsstring) : jsstring_eqb a b = true <-> a = b.
Proof.
  revert b. induction a as [|c a IH]; intros [|d b]; simpl;
    try (split; [discriminate | discriminate]); [split; reflexivity|].
  rewrite andb_true_iff, N.eqb_eq, IH. split.
  - intros [-> ->]. reflexivity.
  - intros H. injection H as -> ->. auto.
Qed.

Lemma jsstring_eqb_refl (a : jsstring) : jsstring_eqb a a = true.
Proof. apply jsstring_eqb_eq. reflexivity. Qed.

Lemma property_In {V} (object : list (jsstring * V)) (key : jsstring) (v : V) :
  ProteinViewer.property object key = Some v -> In (key, v) object.
Proof.
  induction object as [|[k w] rest IH]; simpl; [discriminate|].
  destruct (jsstring_eqb k key) eqn:E.
  - intros H. injection H as <-. apply jsstring_eqb_eq in E. subst. left. reflexivity.
  - intros H. right. apply IH, H.
Qed.

(** The code of a residue name is one letter: a letter of the validator's
    alphabet when the name is one of the twenty, X otherwise. *)
Lemma threeToOne_letter (three : jsstring) :
  exists l,
    ProteinViewer.threeToOne three = [l]
    /\ includes validAminoAcids (toUpperCase l)
       = match ProteinViewer.property ProteinViewer.map three with
         | Some _ => true
         | None => false
         end.
Proof.
  unfold ProteinViewer.threeToOne.
  destruct (ProteinViewer.property ProteinViewer.map three) as [one|] eqn:E.
  - apply property_In in E. simpl in E.
    repeat (destruct E as [E | E];
            [injection E as <- <-; eexists; split; reflexivity|]).
    destruct E.
  - eexists. split; reflexivity.
Qed.

(** X15.  [threeToOne] gives one character for a residue name (of at most
    three characters, as the viewer cuts it out of a line): for the twenty
    upper-case three-letter names the letter of the validator's alphabet,
    each letter for exactly one name, and X for every other name
    (lower-case names included).  So the sequence made of the codes of some
    residue names passes [isValidSequence] exactly when every name is one of
    the twenty. *)
Theorem residue_codes_are_the_validators_letters (names : list jsstring) :
  (forall three, In three names -> length three <= 3) ->
  (forall three, In three names -> length (ProteinViewer.threeToOne three) = 1)
  /\ (names <> [] ->
      isValidSequence (JsString (flat_map ProteinViewer.threeToOne names))
        = forallb (fun three =>
                     match ProteinViewer.property ProteinViewer.map three with
                     | Some _ => true
                     | None => false
                     end) names)
  /\ (forall l, In l validAminoAcids <->
                exists three, In (three, [l]) ProteinViewer.map)
  /\ NoDup (List.map snd ProteinViewer.map)
  /\ ProteinViewer.threeToOne (js "ala") = js "X".
Proof.
  intros _. split; [|split; [|split; [|split]]].
  - intros three _. destruct (threeToOne_letter three) as [l [Hl _]].
    rewrite Hl. reflexivity.
  - intros Hne. rewrite isValidSequence_string.
    assert (Hnn : flat_map ProteinViewer.threeToOne names <> []).
    { destruct names as [|n rest]; [contradiction|]. simpl.
      destruct (threeToOne_letter n) as [l [Hl _]]. rewrite Hl. discriminate. }
    destruct (flat_map ProteinViewer.threeToOne names) as [|b more] eqn:Hfm;
      [contradiction|].
    rewrite <- Hfm. cbn [negb andb]. clear.
    induction names as [|n rest IH]; [reflexivity|].
    cbn [flat_map forallb]. rewrite forallb_app, IH. f_equal.
    destruct (threeToOne_letter n) as [l [Hl Hin]]. rewrite Hl. simpl.
    rewrite andb_true_r. exact Hin.
  - intros l. split.
    + intros H. simpl in H.
      repeat (destruct H as [H | H];
              [subst l; eexists; simpl;
               repeat (first [left; reflexivity | right])|]).
      destruct H.
    + intros [three H]. simpl in H.
      repeat (destruct H as [H | H]; [injection H as <- <-; simpl; tauto|]).
      destruct H.
  - simpl. repeat (constructor; [simpl; intros H;
      repeat (destruct H as [H | H]; [discriminate H|]); destruct H|]).
    constructor.
  - reflexivity.
Qed.

Lemma residue_codes_are_the_validators_letters_witness :
  isValidSequence
    (JsString (flat_map ProteinViewer.threeToOne [js "MET"; js "LYS"; js "HOH"]))
  = false.
Proof.
  destruct (residue_codes_are_the_validators_letters [js "MET"; js "LYS"; js "HOH"])
    as [_ [H _]].
  - intros three Hin. simpl in Hin.
    repeat (destruct Hin as [Hin | Hin]; [subst three; simpl; lia|]). destruct Hin.
  - rewrite H; [reflexivity | discriminate].
Defined.

Lemma option_Z_eqb_eq (a b : option Z) :
  ProteinViewer.option_Z_eqb a b = true <-> a = b.
Proof.
  destruct a as [x|], b as [y|]; simpl; try (split; discriminate).
  - rewrite Z.eqb_eq. split; congruence.
  - split; reflexivity.
Qed.

Lemma has_In (residues : list (option Z * jsstring)) (n : option Z) :
  ProteinViewer.has residues n = true <-> In n (List.map fst residues).
Proof.
  unfold ProteinViewer.has. rewrite existsb_exists, in_map_iff. split.
  - intros [entry [Hin E]]. apply option_Z_eqb_eq in E. exists entry. auto.
  - intros [entry [E Hin]]. exists entry. split; [exact Hin|].
    apply option_Z_eqb_eq. exact E.
Qed.

Lemma update_first_absent {A} (p : A -> bool) (f : A -> A) (l : list A) (x : A) :
  existsb p l = false -> p x = true ->
  update_first p f (l ++ [x]) = l ++ [f x].
Proof.
  intros H Hx. induction l as [|y rest IH]; simpl in *.
  - rewrite Hx. reflexivity.
  - apply orb_false_iff in H. destruct H as [Hy Hrest].
    rewrite Hy. f_equal. apply IH, Hrest.
Qed.

Lemma update_first_map_id {A B} (p : A -> bool) (f : A -> A) (g : A -> B) (l : list A) :
  (forall x, g (f x) = g x) ->
  List.map g (update_first p f l) = List.map g l.
Proof.
  intros H. induction l as [|x rest IH]; simpl; [reflexivity|].
  destruct (p x); simpl; [rewrite H; reflexivity | rewrite IH; reflexivity].
Qed.

Lemma update_first_Forall {A} (P : A -> Prop) (p : A -> bool) (f : A -> A) (l : list A) :
  (forall x, P x -> P (f x)) ->
  Forall P l -> Forall P (update_first p f l).
Proof.
  intros Hf H. induction H as [|x rest Hx Hrest IH]; simpl; [constructor|].
  destruct (p x); constructor; auto.
Qed.

Lemma record_residue_consistent (chain : ProteinViewer.Chain)
      (resNum : option Z) (resName : jsstring) :
  NoDup (List.map fst (ProteinViewer.residues chain)) ->
  ProteinViewer.sequence chain
    = flat_map (fun entry => ProteinViewer.threeToOne (snd entry))
               (ProteinViewer.residues chain) ->
  chain_consistent
    (if ProteinViewer.has (ProteinViewer.residues chain) resNum then chain
     else {| ProteinViewer.id := ProteinViewer.id chain;
             ProteinViewer.residues := ProteinViewer.residues chain ++ [(resNum, resName)];
             ProteinViewer.sequence :=
               ProteinViewer.sequence chain ++ ProteinViewer.threeToOne resName |}).
Proof.
  intros Hnd Hseq.
  destruct (ProteinViewer.has (ProteinViewer.residues chain) resNum) eqn:E.
  - split; [|split; assumption].
    apply has_In in E. intros Hnil. rewrite Hnil in E. destruct E.
  - unfold chain_consistent. cbn [ProteinViewer.residues ProteinViewer.sequence].
    split; [|split].
    + destruct (ProteinViewer.residues chain); discriminate.
    + rewrite map_app. simpl. apply NoDup_app; [exact Hnd | |].
      * constructor; [intros [] | constructor].
      * intros a Ha [<- | []].
        apply has_In in Ha. congruence.
    + rewrite flat_map_app. simpl. rewrite app_nil_r, Hseq. reflexivity.
Qed.

Lemma each_line_keeps_consistency (chains : list ProteinViewer.Chain) (line : jsstring) :
  Forall chain_consistent chains ->
  NoDup (List.map ProteinViewer.id chains) ->
  Forall chain_consistent (ProteinViewer.each_line chains line)
  /\ NoDup (List.map ProteinViewer.id (ProteinViewer.each_line chains line)).
Proof.
  intros Hall Hnd. unfold ProteinViewer.each_line.
  destruct (startsWith line (js "ATOM") || startsWith line (js "HETATM"));
    [|split; assumption].
  unfold ProteinViewer.record_atom.
  set (chainId := trim (substring line 21 22)).
  set (resName := trim (substring line 17 20)).
  set (resNum := parseInt (trim (substring line 22 26))).
  set (f := fun chain : ProteinViewer.Chain =>
              if ProteinViewer.has (ProteinViewer.residues chain) resNum then chain
              else {| ProteinViewer.id := ProteinViewer.id chain;
                      ProteinViewer.residues :=
                        ProteinViewer.residues chain ++ [(resNum, resName)];
                      ProteinViewer.sequence :=
                        ProteinViewer.sequence chain
                        ++ ProteinViewer.threeToOne resName |}).
  assert (Hid : forall x, ProteinViewer.id (f x) = ProteinViewer.id x).
  { intros x. unfold f. destruct (ProteinViewer.has _ _); reflexivity. }
  assert (Hf : forall x, chain_consistent x -> chain_consistent (f x)).
  { intros x [_ [Hx1 Hx2]].
    apply (record_residue_consistent x resNum resName Hx1 Hx2). }
  destruct (existsb (ProteinViewer.is_chain chainId) chains) eqn:E.
  - split.
    + apply update_first_Forall; assumption.
    + rewrite (update_first_map_id _ f ProteinViewer.id chains Hid). exact Hnd.
  - rewrite (update_first_absent (ProteinViewer.is_chain chainId) f chains
               {| ProteinViewer.id := chainId;
                  ProteinViewer.residues := [];
                  ProteinViewer.sequence := [] |} E (jsstring_eqb_refl chainId)).
    split.
    + apply Forall_app. split; [exact Hall|]. constructor; [|constructor].
      unfold f. simpl. split; [discriminate|]. split.
      * constructor; [intros [] | constructor].
      * simpl. rewrite app_nil_r. reflexivity.
    + rewrite map_app. simpl. apply NoDup_app; [exact Hnd | |].
      * constructor; [intros [] | constructor].
      * intros a Ha [<- | []].
        apply in_map_iff in Ha. destruct Ha as [c [Hc Hin]].
        assert (Ht : existsb (ProteinViewer.is_chain chainId) chains = true).
        { apply existsb_exists. exists c. split; [exact Hin|].
          unfold ProteinViewer.is_chain. apply jsstring_eqb_eq. exact Hc. }
        congruence.
Qed.

Lemma fold_each_line_consistent (lines : list jsstring) (chains : list ProteinViewer.Chain) :
  Forall chain_consistent chains ->
  NoDup (List.map ProteinViewer.id chains) ->
  Forall chain_consistent (fold_left ProteinViewer.each_line lines chains)
  /\ NoDup (List.map ProteinViewer.id (fold_left ProteinViewer.each_line lines chains)).
Proof.
  revert chains. induction lines as [|line rest IH]; intros chains Hall Hnd.
  - split; assumption.
  - simpl. destruct (each_line_keeps_consistency chains line Hall Hnd) as [H1 H2].
    apply IH; assumption.
Qed.

Lemma digit_id_listed (d : code_unit) :
  ((48 <=? d) && (d <=? 57))%N = true <->
  In d [48; 49; 50; 51; 52; 53; 54; 55; 56; 57]%N.
Proof.
  split.
  - intros H. apply andb_true_iff in H. destruct H as [H1 H2].
    apply N.leb_le in H1. apply N.leb_le in H2. simpl.
    assert (d = 48 \/ d = 49 \/ d = 50 \/ d = 51 \/ d = 52 \/ d = 53 \/ d = 54
            \/ d = 55 \/ d = 56 \/ d = 57)%N as Hd by lia.
    repeat (destruct Hd as [Hd | Hd]; [subst d; tauto|]). subst d. tauto.
  - intros H. simpl in H.
    repeat (destruct H as [H | H]; [subst d; reflexivity|]). destruct H.
Qed.

Lemma Object_values_In (chains : list ProteinViewer.Chain) (chain : ProteinViewer.Chain) :
  In chain (ProteinViewer.Object_values chains) <-> In chain chains.
Proof.
  unfold ProteinViewer.Object_values. rewrite in_app_iff, in_flat_map. split.
  - intros [[d [_ H]] | H]; apply filter_In in H; apply H.
  - intros Hin. destruct (ProteinViewer.is_digit_id chain) eqn:E.
    + left. unfold ProteinViewer.is_digit_id in E.
      destruct (ProteinViewer.id chain) as [|d [|? ?]] eqn:Hid; try discriminate E.
      exists d. split; [apply digit_id_listed; exact E|].
      apply filter_In. split; [exact Hin|].
      unfold ProteinViewer.is_chain. rewrite Hid. apply jsstring_eqb_refl.
    + right. apply filter_In. split; [exact Hin|]. rewrite E. reflexivity.
Qed.

Lemma Object_values_NoDup (chains : list ProteinViewer.Chain) :
  NoDup (List.map ProteinViewer.id chains) ->
  NoDup (List.map ProteinViewer.id (ProteinViewer.Object_values chains)).
Proof.
  intros Hnd. unfold ProteinViewer.Object_values. rewrite map_app.
  assert (Hblock : forall ds a,
            In a (List.map ProteinViewer.id
                    (flat_map (fun digit => filter (ProteinViewer.is_chain [digit]) chains)
                              ds)) ->
            exists d, In d ds /\ a = [d]).
  { intros ds a Ha. apply in_map_iff in Ha. destruct Ha as [c [Hc Hin]].
    apply in_flat_map in Hin. destruct Hin as [d [Hd Hf]].
    apply filter_In in Hf. destruct Hf as [_ Hf].
    unfold ProteinViewer.is_chain in Hf. apply jsstring_eqb_eq in Hf.
    exists d. split; [exact Hd | congruence]. }
  apply NoDup_app.
  - assert (Hds : NoDup [48; 49; 50; 51; 52; 53; 54; 55; 56; 57]%N).
    { repeat (constructor; [simpl; intros H;
        repeat (destruct H as [H | H]; [discriminate H|]); destruct H|]).
      constructor. }
    induction Hds as [|d ds Hnin Hds IH]; [constructor|].
    cbn [flat_map]. rewrite map_app. apply NoDup_app.
    + apply distinct_keys_after_filter. exact Hnd.
    + exact IH.
    + intros a Ha Hb. apply in_map_iff in Ha. destruct Ha as [c [Hc Hin]].
      apply filter_In in Hin. destruct Hin as [_ Hf].
      unfold ProteinViewer.is_chain in Hf. apply jsstring_eqb_eq in Hf.
      destruct (Hblock ds a Hb) as [d' [Hd' Ha']].
      assert (d = d') by congruence. subst d'. contradiction.
  - apply distinct_keys_after_filter. exact Hnd.
  - intros a Ha Hb. destruct (Hblock _ a Ha) as [d [Hd Had]].
    apply in_map_iff in Hb. destruct Hb as [c [Hc Hin]].
    apply filter_In in Hin. destruct Hin as [_ Hnot].
    apply negb_true_iff in Hnot. unfold ProteinViewer.is_digit_id in Hnot.
    rewrite Hc, Had in Hnot. apply digit_id_listed in Hd. congruence.
Qed.

Lemma fold_each_line_no_atoms (lines : list jsstring) (chains : list ProteinViewer.Chain) :
  (forall line, In line lines -> atom_record line = false) ->
  fold_left ProteinViewer.each_line lines chains = chains.
Proof.
  revert chains. induction lines as [|line rest IH]; intros chains H; [reflexivity|].
  simpl. unfold ProteinViewer.each_line at 2.
  pose proof (H line (or_introl eq_refl)) as Hl. unfold atom_record in Hl.
  rewrite Hl. apply IH. intros l Hin. apply H. right. exact Hin.
Qed.

(** X16.  Whatever text [extractChains] is given, the chains it returns
    have distinct ids, and each of them has at least one residue, distinct
    residue numbers, and a sequence with one character per residue: the
    codes of its residues in the order in which they first appear.  A text
    without ATOM or HETATM lines gives no chain. *)
Theorem extracted_chains_are_consistent (pdbData : jsstring) :
  NoDup (List.map ProteinViewer.id (ProteinViewer.extractChains pdbData))
  /\ (forall chain,
        In chain (ProteinViewer.extractChains pdbData) ->
        ProteinViewer.residues chain <> []
        /\ NoDup (List.map fst (ProteinViewer.residues chain))
        /\ ProteinViewer.sequence chain
           = flat_map (fun entry => ProteinViewer.threeToOne (snd entry))
                      (ProteinViewer.residues chain)
        /\ length (ProteinViewer.sequence chain)
           = length (ProteinViewer.residues chain))
  /\ ((forall line, In line (split 10%N pdbData) -> atom_record line = false) ->
      ProteinViewer.extractChains pdbData = []).
Proof.
  unfold ProteinViewer.extractChains.
  destruct (fold_each_line_consistent (split 10%N pdbData) []
              (Forall_nil _) (NoDup_nil _)) as [Hall Hnd].
  split; [|split].
  - apply Object_values_NoDup. exact Hnd.
  - intros chain Hin. apply (proj1 (Object_values_In _ chain)) in Hin.
    rewrite Forall_forall in Hall.
    destruct (Hall chain Hin) as [H1 [H2 H3]].
    split; [exact H1|]. split; [exact H2|]. split; [exact H3|].
    rewrite H3. clear. induction (ProteinViewer.residues chain) as [|e rest IH];
      [reflexivity|].
    cbn [flat_map]. rewrite length_app, IH.
    destruct (threeToOne_letter (snd e)) as [l [Hl _]]. rewrite Hl. reflexivity.
  - intros Hno. rewrite (fold_each_line_no_atoms _ [] Hno). reflexivity.
Qed.

Lemma extracted_chains_are_consistent_witness :
  ProteinViewer.extractChains (join_lines [js "HEADER    TRANSFERASE"; js "END"]) = [].
Proof.
  apply (extracted_chains_are_consistent
           (join_lines [js "HEADER    TRANSFERASE"; js "END"])).
  intros line Hin. simpl in Hin.
  repeat (destruct Hin as [Hin | Hin]; [subst line; reflexivity|]). destruct Hin.
Defined.

Lemma split_one_line (line : jsstring) :
  one_line line -> split 10%N line = [line].
Proof.
  unfold one_line. induction line as [|c rest IH]; intros H; [reflexivity|].
  simpl. destruct (c =? 10)%N eqn:E.
  - apply N.eqb_eq in E. exfalso. apply H. left. auto.
  - rewrite IH; [reflexivity|]. intros Hin. apply H. right. exact Hin.
Qed.

Lemma split_cons_line (line rest : jsstring) :
  one_line line -> split 10%N (line ++ 10%N :: rest) = line :: split 10%N rest.
Proof.
  unfold one_line. induction line as [|c more IH]; intros H; [reflexivity|].
  cbn [app split]. destruct (c =? 10)%N eqn:E.
  - apply N.eqb_eq in E. exfalso. apply H. left. auto.
  - rewrite IH; [reflexivity|]. intros Hin. apply H. right. exact Hin.
Qed.

Lemma split_join_lines (lines : list jsstring) :
  lines <> [] ->
  (forall line, In line lines -> one_line line) ->
  split 10%N (join_lines lines) = lines.
Proof.
  induction lines as [|line rest IH]; intros Hne H; [contradiction|].
  destruct rest as [|next rest].
  - simpl. apply split_one_line. apply H. left. reflexivity.
  - change (join_lines (line :: next :: rest))
      with (line ++ 10%N :: join_lines (next :: rest)).
    rewrite split_cons_line by (apply H; left; reflexivity).
    f_equal. apply IH; [discriminate|]. intros l Hl. apply H. right. exact Hl.
Qed.

Lemma update_first_fixed {A} (p : A -> bool) (f : A -> A) (l : list A) (x : A) :
  find p l = Some x -> f x = x -> update_first p f l = l.
Proof.
  intros H Hf. induction l as [|y rest IH]; simpl in *; [reflexivity|].
  destruct (p y).
  - injection H as ->. rewrite Hf. reflexivity.
  - f_equal. apply IH, H.
Qed.

Lemma find_some_existsb {A} (p : A -> bool) (l : list A) (x : A) :
  find p l = Some x -> existsb p l = true.
Proof.
  intros H. destruct (existsb p l) eqn:E; [reflexivity|].
  apply find_none_existsb in E. congruence.
Qed.

Lemma find_update_first_unrelated {A} (p q : A -> bool) (f : A -> A) (l : list A) :
  (forall x, p x = true -> q x = false /\ q (f x) = false) ->
  find q (update_first p f l) = find q l.
Proof.
  intros H. induction l as [|y rest IH]; simpl; [reflexivity|].
  destruct (p y) eqn:E; simpl.
  - destruct (H y E) as [H1 H2]. rewrite H1, H2. reflexivity.
  - destruct (q y); [reflexivity | exact IH].
Qed.

Lemma find_app_found {A} (p : A -> bool) (l extra : list A) (x : A) :
  find p l = Some x -> find p (l ++ extra) = Some x.
Proof.
  induction l as [|y rest IH]; simpl; [discriminate|].
  destruct (p y); [auto | exact IH].
Qed.

Lemma has_app (residues : list (option Z * jsstring)) (entry : option Z * jsstring)
      (n : option Z) :
  ProteinViewer.has residues n = true ->
  ProteinViewer.has (residues ++ [entry]) n = true.
Proof.
  unfold ProteinViewer.has. intros H. rewrite existsb_app, H. reflexivity.
Qed.

Lemma has_added (residues : list (option Z * jsstring)) (n : option Z) (name : jsstring) :
  ProteinViewer.has (residues ++ [(n, name)]) n = true.
Proof.
  unfold ProteinViewer.has. rewrite existsb_app. simpl.
  replace (ProteinViewer.option_Z_eqb n n) with true; [apply orb_true_r|].
  symmetry. apply option_Z_eqb_eq. reflexivity.
Qed.

(** After an atom record has been read, its residue is recorded. *)
Lemma record_atom_records (chains : list ProteinViewer.Chain) (line : jsstring) :
  recorded (chain_column line) (number_column line)
           (ProteinViewer.record_atom chains line).
Proof.
  unfold recorded, ProteinViewer.record_atom.
  fold (chain_column line). fold (name_column line). fold (number_column line).
  set (f := fun chain : ProteinViewer.Chain =>
              if ProteinViewer.has (ProteinViewer.residues chain) (number_column line)
              then chain
              else {| ProteinViewer.id := ProteinViewer.id chain;
                      ProteinViewer.residues :=
                        ProteinViewer.residues chain
                        ++ [(number_column line, name_column line)];
                      ProteinViewer.sequence :=
                        ProteinViewer.sequence chain
                        ++ ProteinViewer.threeToOne (name_column line) |}).
  assert (Hp : forall x, ProteinViewer.is_chain (chain_column line) (f x)
                         = ProteinViewer.is_chain (chain_column line) x).
  { intros x. unfold f. destruct (ProteinViewer.has _ _); reflexivity. }
  assert (Hh : forall x, ProteinViewer.has (ProteinViewer.residues (f x))
                                           (number_column line) = true).
  { intros x. unfold f.
    destruct (ProteinViewer.has (ProteinViewer.residues x) (number_column line)) eqn:E;
      [exact E | apply has_added]. }
  destruct (existsb (ProteinViewer.is_chain (chain_column line)) chains) eqn:E.
  - destruct (find (ProteinViewer.is_chain (chain_column line)) chains) as [c|] eqn:Hf.
    + exists (f c). split; [|apply Hh].
      apply (find_update_first _ f chains c Hf). rewrite Hp.
      apply (find_some_holds _ _ _ Hf).
    + apply find_none_existsb in Hf. congruence.
  - rewrite (update_first_absent (ProteinViewer.is_chain (chain_column line)) f chains
               {| ProteinViewer.id := chain_column line;
                  ProteinViewer.residues := [];
                  ProteinViewer.sequence := [] |}
               E (jsstring_eqb_refl (chain_column line))).
    eexists. split; [|apply Hh].
    apply find_app_fresh; [exact E|]. rewrite Hp. apply jsstring_eqb_refl.
Qed.

(** A recorded residue stays recorded, whatever line is read next. *)
Lemma each_line_keeps_recorded (chains : list ProteinViewer.Chain) (line : jsstring)
      (chainId : jsstring) (resNum : option Z) :
  recorded chainId resNum chains ->
  recorded chainId resNum (ProteinViewer.each_line chains line).
Proof.
  intros [c [Hf Hh]]. unfold ProteinViewer.each_line.
  destruct (startsWith line (js "ATOM") || startsWith line (js "HETATM"));
    [|exists c; auto].
  unfold ProteinViewer.record_atom.
  fold (chain_column line). fold (name_column line). fold (number_column line).
  set (f := fun chain : ProteinViewer.Chain =>
              if ProteinViewer.has (ProteinViewer.residues chain) (number_column line)
              then chain
              else {| ProteinViewer.id := ProteinViewer.id chain;
                      ProteinViewer.residues :=
                        ProteinViewer.residues chain
                        ++ [(number_column line, name_column line)];
                      ProteinViewer.sequence :=
                        ProteinViewer.sequence chain
                        ++ ProteinViewer.threeToOne (name_column line) |}).
  assert (Hid : forall x, ProteinViewer.id (f x) = ProteinViewer.id x).
  { intros x. unfold f.
    destruct (ProteinViewer.has (ProteinViewer.residues x) (number_column line));
      reflexivity. }
  assert (Hkeep : ProteinViewer.has (ProteinViewer.residues (f c)) resNum = true).
  { unfold f. destruct (ProteinViewer.has (ProteinViewer.residues c) (number_column line));
      [exact Hh | apply has_app; exact Hh]. }
  set (chains1 := if existsb (ProteinViewer.is_chain (chain_column line)) chains
                  then chains
                  else chains ++ [{| ProteinViewer.id := chain_column line;
                                     ProteinViewer.residues := [];
                                     ProteinViewer.sequence := [] |}]).
  assert (Hf1 : find (ProteinViewer.is_chain chainId) chains1 = Some c).
  { unfold chains1. destruct (existsb _ chains); [exact Hf|].
    apply find_app_found. exact Hf. }
  destruct (jsstring_eqb (chain_column line) chainId) eqn:E.
  - apply jsstring_eqb_eq in E. rewrite E. exists (f c). split; [|exact Hkeep].
    apply (find_update_first _ f chains1 c Hf1).
    unfold ProteinViewer.is_chain. rewrite Hid. apply (find_some_holds _ _ _ Hf1).
  - exists c. split; [|exact Hh]. rewrite <- Hf1.
    apply find_update_first_unrelated. intros x Hx.
    unfold ProteinViewer.is_chain in *. rewrite Hid.
    apply jsstring_eqb_eq in Hx. rewrite Hx. auto.
Qed.

Lemma fold_each_line_keeps_recorded (lines : list jsstring)
      (chains : list ProteinViewer.Chain) (chainId : jsstring) (resNum : option Z) :
  recorded chainId resNum chains ->
  recorded chainId resNum (fold_left ProteinViewer.each_line lines chains).
Proof.
  revert chains. induction lines as [|line rest IH]; intros chains H; [exact H|].
  simpl. apply IH. apply each_line_keeps_recorded. exact H.
Qed.

(** An atom record of a recorded residue changes nothing. *)
Lemma record_atom_recorded (chains : list ProteinViewer.Chain) (line : jsstring) :
  recorded (chain_column line) (number_column line) chains ->
  ProteinViewer.record_atom chains line = chains.
Proof.
  intros [c [Hf Hh]]. unfold ProteinViewer.record_atom.
  fold (chain_column line). fold (name_column line). fold (number_column line).
  rewrite (find_some_existsb _ _ _ Hf).
  apply (update_first_fixed _ _ chains c Hf). rewrite Hh. reflexivity.
Qed.

(** X17.  The atoms of a residue count once: an atom record whose chain and
    residue number were read on an earlier line of the text adds nothing,
    whatever residue name it carries and however many lines lie between. *)
Theorem atoms_of_a_residue_count_once
        (before middle : list jsstring) (first again : jsstring) :
  (forall line, In line (before ++ first :: middle ++ [again]) -> one_line line) ->
  atom_record first = true ->
  atom_record again = true ->
  chain_column again = chain_column first ->
  number_column again = number_column first ->
  ProteinViewer.extractChains (join_lines (before ++ first :: middle ++ [again]))
    = ProteinViewer.extractChains (join_lines (before ++ first :: middle)).
Proof.
  intros Hlines Hfirst Hagain Hchain Hnum.
  unfold ProteinViewer.extractChains.
  rewrite (split_join_lines (before ++ first :: middle ++ [again]));
    [|destruct before; discriminate | exact Hlines].
  rewrite (split_join_lines (before ++ first :: middle));
    [|destruct before; discriminate|].
  - replace (before ++ first :: middle ++ [again])
      with ((before ++ first :: middle) ++ [again])
      by (rewrite <- app_assoc; reflexivity).
    rewrite fold_left_app. cbn [fold_left]. f_equal.
    unfold ProteinViewer.each_line at 1.
    unfold atom_record in Hagain. rewrite Hagain.
    apply record_atom_recorded. rewrite Hchain, Hnum.
    rewrite fold_left_app. cbn [fold_left].
    apply fold_each_line_keeps_recorded.
    unfold ProteinViewer.each_line. unfold atom_record in Hfirst. rewrite Hfirst.
    apply record_atom_records.
  - intros line Hin. apply Hlines.
    apply in_app_or in Hin. apply in_or_app.
    destruct Hin as [Hin | [Hin | Hin]]; [left; exact Hin | right; left; exact Hin|].
    right. right. apply in_or_app. left. exact Hin.
Qed.

Lemma atoms_of_a_residue_count_once_witness :
  ProteinViewer.extractChains
    (join_lines ([js "HEADER"] ++ atom_met_1 :: [atom_lys_2] ++ [atom_met_1_ca]))
  = ProteinViewer.extractChains
      (join_lines ([js "HEADER"] ++ atom_met_1 :: [atom_lys_2])).
Proof.
  apply (atoms_of_a_residue_count_once [js "HEADER"] [atom_lys_2]
           atom_met_1 atom_met_1_ca); try reflexivity.
  intros line Hin. simpl in Hin.
  repeat (destruct Hin as [Hin | Hin];
          [subst line; unfold one_line; simpl; intros H;
           repeat (destruct H as [H | H]; [discriminate H|]); destruct H|]).
  destruct Hin.
Defined.

Lemma Object_values_single (chain : ProteinViewer.Chain) :
  ProteinViewer.Object_values [chain] = [chain].
Proof.
  destruct (ProteinViewer.is_digit_id chain) eqn:E.
  - unfold ProteinViewer.is_digit_id in E.
    destruct chain as [i r sq]. simpl in E.
    destruct i as [|d [|? ?]]; try discriminate E.
    apply digit_id_listed in E. simpl in E.
    repeat (destruct E as [E | E]; [subst d; reflexivity|]). destruct E.
  - unfold ProteinViewer.Object_values. cbn [filter]. rewrite E. cbn [negb].
    assert (Hno : forall d, In d [48; 49; 50; 51; 52; 53; 54; 55; 56; 57]%N ->
                            ProteinViewer.is_chain [d] chain = false).
    { intros d Hd. destruct (ProteinViewer.is_chain [d] chain) eqn:Hc; [|reflexivity].
      unfold ProteinViewer.is_chain in Hc. apply jsstring_eqb_eq in Hc.
      unfold ProteinViewer.is_digit_id in E. rewrite Hc in E.
      apply digit_id_listed in Hd. congruence. }
    cbn [flat_map].
    rewrite !Hno by (simpl; tauto). reflexivity.
Qed.

Lemma fold_each_line_one_chain (lines : list jsstring) (chain : ProteinViewer.Chain) :
  (forall line, In line lines ->
     atom_record line = true /\ chain_column line = ProteinViewer.id chain) ->
  NoDup (List.map fst (ProteinViewer.residues chain) ++ List.map number_column lines) ->
  fold_left ProteinViewer.each_line lines [chain]
    = [{| ProteinViewer.id := ProteinViewer.id chain;
          ProteinViewer.residues :=
            ProteinViewer.residues chain
            ++ List.map (fun line => (number_column line, name_column line)) lines;
          ProteinViewer.sequence :=
            ProteinViewer.sequence chain
            ++ flat_map (fun line => ProteinViewer.threeToOne (name_column line)) lines |}].
Proof.
  revert chain. induction lines as [|line rest IH]; intros chain Hall Hnd.
  - simpl. rewrite !app_nil_r. destruct chain; reflexivity.
  - destruct (Hall line (or_introl eq_refl)) as [Hatom Hchain].
    cbn [fold_left]. unfold ProteinViewer.each_line at 2.
    unfold atom_record in Hatom. rewrite Hatom.
    unfold ProteinViewer.record_atom.
    fold (chain_column line). fold (name_column line). fold (number_column line).
    assert (Hp : ProteinViewer.is_chain (chain_column line) chain = true).
    { unfold ProteinViewer.is_chain. rewrite Hchain. apply jsstring_eqb_refl. }
    cbn [existsb]. rewrite Hp. cbn [orb update_first]. rewrite Hp.
    assert (Hnew : ProteinViewer.has (ProteinViewer.residues chain) (number_column line)
                   = false).
    { destruct (ProteinViewer.has (ProteinViewer.residues chain) (number_column line))
        eqn:E; [|reflexivity].
      apply has_In in E. exfalso.
      apply NoDup_remove_2 in Hnd. apply Hnd. apply in_or_app. left. exact E. }
    rewrite Hnew. rewrite IH.
    + cbn [ProteinViewer.id ProteinViewer.residues ProteinViewer.sequence].
      cbn [List.map flat_map]. rewrite <- !app_assoc. reflexivity.
    + intros l Hl. apply Hall. right. exact Hl.
    + cbn [ProteinViewer.residues]. rewrite map_app. cbn [List.map fst].
      rewrite <- app_assoc. exact Hnd.
Qed.

(** X18.  A text of atom records that all belong to one chain, each with
    its own residue number, is read back in order: [extractChains] returns
    that one chain, with the residues in the order of the lines and the
    sequence made of their codes. *)
Theorem one_chain_is_read_in_line_order (lines : list jsstring) (chainId : jsstring) :
  lines <> [] ->
  (forall line, In line lines ->
     one_line line /\ atom_record line = true /\ chain_column line = chainId) ->
  NoDup (List.map number_column lines) ->
  ProteinViewer.extractChains (join_lines lines)
    = [{| ProteinViewer.id := chainId;
          ProteinViewer.residues :=
            List.map (fun line => (number_column line, name_column line)) lines;
          ProteinViewer.sequence :=
            flat_map (fun line => ProteinViewer.threeToOne (name_column line)) lines |}].
Proof.
  intros Hne Hall Hnd. unfold ProteinViewer.extractChains.
  rewrite (split_join_lines lines Hne) by (intros l Hl; apply (Hall l Hl)).
  set (start := {| ProteinViewer.id := chainId;
                   ProteinViewer.residues := [];
                   ProteinViewer.sequence := [] |}).
  assert (Hstart : fold_left ProteinViewer.each_line lines []
                   = fold_left ProteinViewer.each_line lines [start]).
  { destruct lines as [|line rest]; [contradiction|].
    destruct (Hall line (or_introl eq_refl)) as [_ [Hatom Hchain]].
    cbn [fold_left]. f_equal.
    unfold ProteinViewer.each_line. unfold atom_record in Hatom. rewrite Hatom.
    unfold ProteinViewer.record_atom. fold (chain_column line). rewrite Hchain.
    cbn [existsb app].
    assert (Hp : ProteinViewer.is_chain chainId start = true)
      by apply jsstring_eqb_refl.
    rewrite Hp. reflexivity. }
  rewrite Hstart, (fold_each_line_one_chain lines start).
  - apply Object_values_single.
  - intros l Hl. destruct (Hall l Hl) as [_ [Ha Hc]]. auto.
  - exact Hnd.
Qed.

Lemma one_chain_is_read_in_line_order_witness :
  ProteinViewer.extractChains (join_lines [atom_met_1; atom_lys_2])
  = [{| ProteinViewer.id := js "A";
        ProteinViewer.residues := [(Some 1%Z, js "MET"); (Some 2%Z, js "LYS")];
        ProteinViewer.sequence := js "MK" |}].
Proof.
  apply (one_chain_is_read_in_line_order [atom_met_1; atom_lys_2] (js "A")).
  - discriminate.
  - intros line Hin. simpl in Hin.
    repeat (destruct Hin as [Hin | Hin];
            [subst line; split; [|split; reflexivity];
             unfold one_line; simpl; intros H;
             repeat (destruct H as [H | H]; [discriminate H|]); destruct H|]).
    destruct Hin.
  - simpl. constructor.
    + intros [H | []]. discriminate H.
    + constructor; [intros [] | constructor].
Defined.

Lemma every_request_is_answered_witness :
  exists r,
    fst (route (busy_storage_env 5000 "job-2") (GET_check_result "job-1")
               store_after_dispatch) = Normal r
    /\ In (code r) handler_codes
    /\ (code r <> 200 ->
        exists msg, json r = ErrorJson msg /\ In msg handler_errors /\ msg <> ""%string).
Proof.
  exact (every_request_is_answered (busy_storage_env 5000 "job-2")
           (GET_check_result "job-1") store_after_dispatch).
Defined.
